(** * Wolf-Logic cache layer and time-sync tracker

    A shallow embedding of [server/redis_manager.py] (RedisCache,
    SessionManager, RateLimiter, MemoryCache) and of the TimeSyncManager of
    [server/timesync_app.py], together with the fragments of the Python
    runtime, of [hashlib], [json] and of the Redis server that these two
    files call into.

    Conventions.
    - A Python [str] is a [string]; every character is read as the code
      point of the same number (U+0000 .. U+00FF).
    - A Python [int] is a [Z]; a Python [float] is a binary64 [float].
    - A method that can raise returns a [result]; a method of an object
      with mutable state takes the object and returns it updated. *)

From Stdlib Require Import ZArith String Ascii List Bool Lia.
From Stdlib Require Import Floats Uint63 DecimalString.
From Stdlib Require DecimalPos DecimalFacts.
From stdpp Require Import base option list gmap strings.

#[local] Set Warnings "-register-all,-inexact-float".

Open Scope string_scope.
Open Scope Z_scope.

(* ===================================================================== *)
(** * Part I. Definitions                                                 *)
(* ===================================================================== *)

(** ** Python runtime fragments *)

Module Py.

(** The exception classes that can occur in the modelled code. *)
Inductive exn :=
| TypeError           (* json.dumps on a value that is not serialisable,
                         an argument given twice *)
| ValueError          (* int() on text that is not an integer literal,
                         an int beyond the digit limit,
                         json.JSONDecodeError *)
| AttributeError      (* a method call on None *)
| ConnectionError     (* redis.exceptions.ConnectionError / TimeoutError *)
| ResponseError       (* redis.exceptions.ResponseError *)
| RecursionError.     (* nesting beyond the interpreter's recursion limit *)

Inductive result (A : Type) :=
| Ok (a : A)
| Raise (e : exn).
Arguments Ok {A} a.
Arguments Raise {A} e.

Definition is_ok {A} (r : result A) : bool :=
  match r with Ok _ => true | Raise _ => false end.

(** [str(x)] and the [{x}] of an f-string. *)
Class Str (A : Type) := str : A -> string.

Definition str_int (z : Z) : string := NilZero.string_of_int (Z.to_int z).

#[export] Instance Str_string : Str string := fun s => s.
#[export] Instance Str_int : Str Z := str_int.
#[export] Instance Str_bool : Str bool :=
  fun b => if b then "True" else "False".

(** [sep.join(parts)]. *)
Fixpoint join (sep : string) (parts : list string) : string :=
  match parts with
  | [] => EmptyString
  | [p] => p
  | p :: ps => p +:+ sep +:+ join sep ps
  end.

(** [len(s)]. *)
Definition len (s : string) : Z := Z.of_nat (String.length s).

Definition code (c : ascii) : Z := Z.of_N (N_of_ascii c).
Definition chr (z : Z) : ascii := ascii_of_N (Z.to_N z).

Definition is_digit (c : ascii) : bool := (48 <=? code c) && (code c <=? 57).

(** The characters [int()] passes over as white space around a literal,
    among the code points below 256: the ASCII white space, U+0085 and
    U+00A0. (U+001C to U+001F are white space for [str.strip()], but not
    for [int()].) *)
Definition is_space (c : ascii) : bool :=
  let n := code c in
  ((9 <=? n) && (n <=? 13)) || (n =? 32) || (n =? 133) || (n =? 160).

Fixpoint lstrip (s : list ascii) : list ascii :=
  match s with
  | c :: s' => if is_space c then lstrip s' else s
  | [] => []
  end.

Definition strip (s : list ascii) : list ascii :=
  rev (lstrip (rev (lstrip s))).

(** Digits of an integer literal, most significant first; a single
    underscore is allowed between two digits. [acc] is the value read so
    far, [after_digit] tells whether the previous character was a digit. *)
Fixpoint int_digits (s : list ascii) (acc : Z) (after_digit : bool)
  : option Z :=
  match s with
  | [] => if after_digit then Some acc else None
  | c :: s' =>
      if is_digit c then int_digits s' (10 * acc + (code c - 48)) true
      else if (code c =? 95) && after_digit then int_digits s' acc false
      else None
  end.

(** [sys.int_info.default_max_str_digits]: the longest decimal text,
    counted in digits, that [int()] reads and [str()] writes. *)
Definition int_max_str_digits : Z := 4300.

(** [int(s)] for a [str] argument, base 10. *)
Definition int (s : string) : result Z :=
  let body := strip (list_ascii_of_string s) in
  let '(neg, digits) :=
    match body with
    | c :: rest =>
        if code c =? 45 then (true, rest)
        else if code c =? 43 then (false, rest)
        else (false, body)
    | [] => (false, [])
    end in
  match int_digits digits 0 false with
  | Some n =>
      if int_max_str_digits <? Z.of_nat (length (List.filter is_digit digits))
      then Raise ValueError
      else Ok (if neg then - n else n)
  | None => Raise ValueError
  end.

(** [s.encode()]: UTF-8. *)
Definition encode_char (c : ascii) : list Z :=
  let n := code c in
  if n <? 128 then [n]
  else [Z.lor 192 (Z.shiftr n 6); Z.lor 128 (Z.land n 63)].

Definition encode (s : string) : list Z :=
  flat_map encode_char (list_ascii_of_string s).

(** Lower-case hexadecimal digit. *)
Definition hex_digit (n : Z) : ascii :=
  if n <? 10 then chr (48 + n) else chr (87 + n).

(** Comparison of two [str], as [sorted] uses it: by code point,
    lexicographically. *)
Definition str_le (a b : string) : bool := String.leb a b.

(** [s.startswith(lit)], returning what follows the literal. *)
Fixpoint after (lit : list ascii) (s : list ascii) : option (list ascii) :=
  match lit, s with
  | [], _ => Some s
  | a :: lit', b :: s' =>
      if Ascii.eqb a b then after lit' s' else None
  | _ :: _, [] => None
  end.

(** The values that cross the cache boundary: what [json] can write and
    read, and [PyObject] for every other object. A [float] is carried by
    a literal that denotes it. The keys of a [dict] are [str]. *)
Inductive pyval :=
| PyNone
| PyBool (b : bool)
| PyInt (z : Z)
| PyFloat (literal : string)
| PyStr (s : string)
| PyList (items : list pyval)
| PyDict (items : list (string * pyval))
| PyObject (name : string).

(** [x is not None]. *)
Definition is_not_None (x : pyval) : bool :=
  match x with PyNone => false | _ => true end.

(** [d[k] = v] on an insertion-ordered [dict]. *)
Fixpoint dict_set {V} (d : list (string * V)) (k : string) (v : V)
  : list (string * V) :=
  match d with
  | [] => [(k, v)]
  | (k', v') :: d' =>
      if String.eqb k k' then (k', v) :: d' else (k', v') :: dict_set d' k v
  end.

(** [s.replace(old, new)]: every occurrence of [old], from left to
    right and without overlap. [skip] counts the characters of the
    occurrence just found that are still to be passed over. An empty
    [old] occurs before every character and at the end. *)
Fixpoint replace_from (old new s : list ascii) (skip : nat) : list ascii :=
  match s with
  | [] => []
  | c :: s' =>
      match skip with
      | S k => replace_from old new s' k
      | O =>
          match after old s with
          | Some _ => new ++ replace_from old new s' (length old - 1)
          | None => c :: replace_from old new s' 0
          end
      end
  end.

Definition replace (old new s : string) : string :=
  let new' := list_ascii_of_string new in
  match old with
  | EmptyString =>
      string_of_list_ascii
        (new' ++ flat_map (fun c => c :: new') (list_ascii_of_string s))
  | String _ _ =>
      string_of_list_ascii
        (replace_from (list_ascii_of_string old) new'
                      (list_ascii_of_string s) 0)
  end.

End Py.

Export Py.

(** ** hashlib.md5 *)

Module Md5.

Definition mask32 (x : Z) : Z := Z.land x 4294967295.

Definition rotl32 (x : Z) (c : Z) : Z :=
  mask32 (Z.lor (Z.shiftl x c) (Z.shiftr (mask32 x) (32 - c))).

Definition not32 (x : Z) : Z := Z.lxor (mask32 x) 4294967295.

(** Per-round shift amounts. *)
Definition S : list Z :=
  [ 7; 12; 17; 22; 7; 12; 17; 22; 7; 12; 17; 22; 7; 12; 17; 22;
    5;  9; 14; 20; 5;  9; 14; 20; 5;  9; 14; 20; 5;  9; 14; 20;
    4; 11; 16; 23; 4; 11; 16; 23; 4; 11; 16; 23; 4; 11; 16; 23;
    6; 10; 15; 21; 6; 10; 15; 21; 6; 10; 15; 21; 6; 10; 15; 21 ].

(** [K i = floor (2^32 * abs (sin (i + 1)))]. *)
Definition K : list Z :=
  [ 3614090360; 3905402710;  606105819; 3250441966;
    4118548399; 1200080426; 2821735955; 4249261313;
    1770035416; 2336552879; 4294925233; 2304563134;
    1804603682; 4254626195; 2792965006; 1236535329;
    4129170786; 3225465664;  643717713; 3921069994;
    3593408605;   38016083; 3634488961; 3889429448;
     568446438; 3275163606; 4107603335; 1163531501;
    2850285829; 4243563512; 1735328473; 2368359562;
    4294588738; 2272392833; 1839030562; 4259657740;
    2763975236; 1272893353; 4139469664; 3200236656;
     681279174; 3936430074; 3572445317;   76029189;
    3654602809; 3873151461;  530742520; 3299628645;
    4096336452; 1126891415; 2878612391; 4237533241;
    1700485571; 2399980690; 4293915773; 2240044497;
    1873313359; 4264355552; 2734768916; 1309151649;
    4149444226; 3174756917;  718787259; 3951481745 ].

Definition nthZ (l : list Z) (i : nat) : Z := nth i l 0.

(** Message padding: a [1] bit, zeros up to 56 mod 64 bytes, then the
    bit length as a 64-bit little-endian integer. *)
Definition le_bytes (n : nat) (x : Z) : list Z :=
  map (fun i => Z.land (Z.shiftr x (8 * Z.of_nat i)) 255) (seq 0 n).

Definition pad (msg : list Z) : list Z :=
  let n := Z.of_nat (length msg) in
  let zeros := Z.to_nat ((55 - n) mod 64) in
  msg ++ [128] ++ repeat 0 zeros ++ le_bytes 8 ((8 * n) mod 2 ^ 64).

Fixpoint le_word (bs : list Z) : Z :=
  match bs with
  | [] => 0
  | b :: bs' => b + 256 * le_word bs'
  end.

(** The sixteen 32-bit words of a 64-byte block. *)
Definition words (block : list Z) : list Z :=
  map (fun i => le_word (firstn 4 (skipn (4 * i) block))) (seq 0 16).

Definition state : Type := Z * Z * Z * Z.

Definition round (M : list Z) (st : state) (i : nat) : state :=
  let '(a, b, c, d) := st in
  let '(f, g) :=
    match Nat.div i 16 with
    | 0%nat => (Z.lor (Z.land b c) (Z.land (not32 b) d), i)
    | 1%nat => (Z.lor (Z.land d b) (Z.land (not32 d) c),
                Nat.modulo (5 * i + 1) 16)
    | 2%nat => (Z.lxor b (Z.lxor c d), Nat.modulo (3 * i + 5) 16)
    | _ => (Z.lxor c (Z.lor b (not32 d)), Nat.modulo (7 * i) 16)
    end in
  let f' := mask32 (f + a + nthZ K i + nthZ M g) in
  (d, mask32 (b + rotl32 f' (nthZ S i)), b, c).

Definition process_block (st : state) (block : list Z) : state :=
  let '(a0, b0, c0, d0) := st in
  let '(a, b, c, d) := fold_left (round (words block)) (seq 0 64) st in
  (mask32 (a0 + a), mask32 (b0 + b), mask32 (c0 + c), mask32 (d0 + d)).

Fixpoint blocks (n : nat) (bs : list Z) : list (list Z) :=
  match n with
  | O => []
  | Datatypes.S n' => firstn 64 bs :: blocks n' (skipn 64 bs)
  end.

Definition init : state := (1732584193, 4023233417, 2562383102, 271733878).

Definition digest (msg : list Z) : list Z :=
  let p := pad msg in
  let '(a, b, c, d) :=
    fold_left process_block (blocks (Nat.div (length p) 64) p) init in
  le_bytes 4 a ++ le_bytes 4 b ++ le_bytes 4 c ++ le_bytes 4 d.

Definition hex_byte (b : Z) : list ascii :=
  [Py.hex_digit (Z.shiftr b 4); Py.hex_digit (Z.land b 15)].

(** [hashlib.md5(msg).hexdigest()]. *)
Definition hexdigest (msg : list Z) : string :=
  string_of_list_ascii (flat_map hex_byte (digest msg)).

End Md5.

(** ** json.dumps and json.loads, with their default arguments *)

Module Json.

Definition hex2 (n : Z) : list ascii :=
  [Py.hex_digit (Z.shiftr n 4); Py.hex_digit (Z.land n 15)].

(** One character of a string literal ([ensure_ascii=True]). *)
Definition escape (c : ascii) : list ascii :=
  let n := Py.code c in
  if n =? 34 then list_ascii_of_string "\" ++ [c]
  else if n =? 92 then list_ascii_of_string "\\"
  else if n =? 10 then list_ascii_of_string "\n"
  else if n =? 13 then list_ascii_of_string "\r"
  else if n =? 9 then list_ascii_of_string "\t"
  else if n =? 8 then list_ascii_of_string "\b"
  else if n =? 12 then list_ascii_of_string "\f"
  else if (32 <=? n) && (n <=? 126) then [c]
  else list_ascii_of_string "\u00" ++ hex2 n.

Definition quote (s : string) : string :=
  string_of_list_ascii
    ([Py.chr 34] ++ flat_map escape (list_ascii_of_string s) ++ [Py.chr 34]).

(** The nesting that is left to the encoder and to the decoder. Each of
    them enters one level of the interpreter's recursion limit (1000 by
    default) for every [list] or [dict] it is inside, and the frames of
    its callers count against the same limit. The value here is what is
    left when a method of the cache is called from module level; a
    caller deeper in the stack leaves that much less. The properties
    of values that are written and read back are stated for a nesting
    of at most 100 (see [plain]), which every caller with less than
    some 890 frames of its own leaves room for. *)
Definition nesting_limit : nat := 994.

(** [json.dumps(v)] with [depth] levels of nesting left. An [int] whose
    decimal text exceeds [int_max_str_digits] is refused with a
    [ValueError]. *)
Fixpoint dumps_in (depth : nat) (v : pyval) {struct v} : result string :=
  match v with
  | PyNone => Ok "null"
  | PyBool b => Ok (if b then "true" else "false")
  | PyInt z =>
      if Py.int_max_str_digits <? Py.len (Py.str_int (Z.abs z))
      then Raise ValueError
      else Ok (Py.str_int z)
  | PyFloat literal => Ok literal
  | PyStr s => Ok (quote s)
  | PyList items =>
      match depth with
      | O => Raise RecursionError
      | S depth' =>
          let fix each (l : list pyval) : result (list string) :=
            match l with
            | [] => Ok []
            | x :: l' =>
                match dumps_in depth' x, each l' with
                | Ok s, Ok ss => Ok (s :: ss)
                | Raise e, _ => Raise e
                | _, Raise e => Raise e
                end
            end in
          match each items with
          | Ok ss => Ok ("[" +:+ Py.join ", " ss +:+ "]")
          | Raise e => Raise e
          end
      end
  | PyDict items =>
      match depth with
      | O => Raise RecursionError
      | S depth' =>
          let fix each (l : list (string * pyval)) : result (list string) :=
            match l with
            | [] => Ok []
            | (k, x) :: l' =>
                match dumps_in depth' x, each l' with
                | Ok s, Ok ss => Ok ((quote k +:+ ": " +:+ s) :: ss)
                | Raise e, _ => Raise e
                | _, Raise e => Raise e
                end
            end in
          match each items with
          | Ok ss => Ok ("{" +:+ Py.join ", " ss +:+ "}")
          | Raise e => Raise e
          end
      end
  | PyObject _ => Raise TypeError
  end.

Definition dumps (v : pyval) : result string := dumps_in nesting_limit v.

(** *** Decoding *)

Definition is_ws (c : ascii) : bool :=
  let n := Py.code c in (n =? 32) || (n =? 9) || (n =? 10) || (n =? 13).

Fixpoint skip_ws (s : list ascii) : list ascii :=
  match s with
  | c :: s' => if is_ws c then skip_ws s' else s
  | [] => []
  end.

Definition hex_value (c : ascii) : option Z :=
  let n := Py.code c in
  if (48 <=? n) && (n <=? 57) then Some (n - 48)
  else if (97 <=? n) && (n <=? 102) then Some (n - 87)
  else if (65 <=? n) && (n <=? 70) then Some (n - 55)
  else None.

(** The body of a string literal, after the opening quote. An escape
    above U+00FF has no character in this model and is refused. *)
Fixpoint string_body (s : list ascii) (acc : list ascii)
  : option (string * list ascii) :=
  match s with
  | [] => None
  | c :: s' =>
      let n := Py.code c in
      if n =? 34 then Some (string_of_list_ascii (rev acc), s')
      else if n <? 32 then None
      else if n =? 92 then
        match s' with
        | e :: s'' =>
            let m := Py.code e in
            if m =? 117 then
              match s'' with
              | h1 :: h2 :: h3 :: h4 :: s3 =>
                  match hex_value h1, hex_value h2,
                        hex_value h3, hex_value h4 with
                  | Some 0, Some 0, Some a, Some b =>
                      string_body s3 (Py.chr (16 * a + b) :: acc)
                  | _, _, _, _ => None
                  end
              | _ => None
              end
            else
              match
                (if m =? 34 then Some 34 else if m =? 92 then Some 92
                 else if m =? 47 then Some 47 else if m =? 98 then Some 8
                 else if m =? 102 then Some 12 else if m =? 110 then Some 10
                 else if m =? 114 then Some 13 else if m =? 116 then Some 9
                 else None)
              with
              | Some k => string_body s'' (Py.chr k :: acc)
              | None => None
              end
        | [] => None
        end
      else string_body s' (c :: acc)
  end.

Fixpoint digits (s : list ascii) : list ascii * list ascii :=
  match s with
  | c :: s' =>
      if Py.is_digit c then let '(d, r) := digits s' in (c :: d, r)
      else ([], s)
  | [] => ([], [])
  end.

(** A number literal: an optional minus sign, an integer part without
    leading zeros, an optional fraction, an optional exponent. Without
    fraction and exponent it is an [int], otherwise a [float]. *)
Definition number (s : list ascii) : option (pyval * list ascii) :=
  let '(sign, s1) :=
    match s with
    | c :: r => if Py.code c =? 45 then ([c], r) else ([], s)
    | [] => ([], s)
    end in
  let '(int_part, s2) :=
    match s1 with
    | c :: r =>
        if Py.code c =? 48 then ([c], r) else digits s1
    | [] => ([], s1)
    end in
  match int_part with
  | [] => None
  | _ :: _ =>
      let '(frac, s3) :=
        match s2 with
        | c :: r =>
            if Py.code c =? 46 then
              match digits r with
              | ([], _) => ([], s2)
              | (d, r') => (c :: d, r')
              end
            else ([], s2)
        | [] => ([], s2)
        end in
      let '(exp, s4) :=
        match s3 with
        | c :: r =>
            if (Py.code c =? 101) || (Py.code c =? 69) then
              let '(sg, r1) :=
                match r with
                | g :: r' =>
                    if (Py.code g =? 43) || (Py.code g =? 45)
                    then ([g], r') else ([], r)
                | [] => ([], r)
                end in
              match digits r1 with
              | ([], _) => ([], s3)
              | (d, r') => (c :: sg ++ d, r')
              end
            else ([], s3)
        | [] => ([], s3)
        end in
      match frac, exp with
      | [], [] =>
          match Py.int (string_of_list_ascii (sign ++ int_part)) with
          | Ok z => Some (PyInt z, s4)
          | Raise _ => None
          end
      | _, _ =>
          Some (PyFloat (string_of_list_ascii
                           (sign ++ int_part ++ frac ++ exp)), s4)
      end
  end.

Definition lit (text : string) (v : pyval) (s : list ascii)
  : option (pyval * list ascii) :=
  match Py.after (list_ascii_of_string text) s with
  | Some r => Some (v, r)
  | None => None
  end.

Definition first_of {A} (a b : option A) : option A :=
  match a with Some _ => a | None => b end.

(** One value at the head of [s], with [depth] levels of nesting left;
    [items] and [members] read what follows the opening bracket of an
    array or of an object. A text that is not a document is a
    [JSONDecodeError], a subclass of [ValueError]. *)
Fixpoint value (fuel depth : nat) (s : list ascii)
  : result (pyval * list ascii) :=
  match fuel with
  | O => Raise ValueError
  | S fuel' =>
      match s with
      | [] => Raise ValueError
      | c :: r =>
          let n := Py.code c in
          if n =? 34 then
            match string_body r [] with
            | Some (t, r') => Ok (PyStr t, r')
            | None => Raise ValueError
            end
          else if n =? 91 then
            match depth with
            | O => Raise RecursionError
            | S depth' =>
                match skip_ws r with
                | d :: r' =>
                    if Py.code d =? 93 then Ok (PyList [], r')
                    else items fuel' depth' (d :: r') []
                | [] => Raise ValueError
                end
            end
          else if n =? 123 then
            match depth with
            | O => Raise RecursionError
            | S depth' =>
                match skip_ws r with
                | d :: r' =>
                    if Py.code d =? 125 then Ok (PyDict [], r')
                    else members fuel' depth' (d :: r') []
                | [] => Raise ValueError
                end
            end
          else
            match
              first_of (lit "null" PyNone s)
             (first_of (lit "true" (PyBool true) s)
             (first_of (lit "false" (PyBool false) s)
             (first_of (lit "NaN" (PyFloat "NaN") s)
             (first_of (lit "Infinity" (PyFloat "Infinity") s)
             (first_of (lit "-Infinity" (PyFloat "-Infinity") s)
                       (number s))))))
            with
            | Some found => Ok found
            | None => Raise ValueError
            end
      end
  end
with items (fuel depth : nat) (s : list ascii) (acc : list pyval)
  : result (pyval * list ascii) :=
  match fuel with
  | O => Raise ValueError
  | S fuel' =>
      match value fuel' depth s with
      | Ok (v, r) =>
          match skip_ws r with
          | d :: r' =>
              if Py.code d =? 44
              then items fuel' depth (skip_ws r') (v :: acc)
              else if Py.code d =? 93
                   then Ok (PyList (rev (v :: acc)), r')
                   else Raise ValueError
          | [] => Raise ValueError
          end
      | Raise e => Raise e
      end
  end
with members (fuel depth : nat) (s : list ascii)
    (acc : list (string * pyval)) : result (pyval * list ascii) :=
  match fuel with
  | O => Raise ValueError
  | S fuel' =>
      match s with
      | q :: r0 =>
          if Py.code q =? 34 then
            match string_body r0 [] with
            | Some (k, r1) =>
                match skip_ws r1 with
                | c :: r2 =>
                    if Py.code c =? 58 then
                      match value fuel' depth (skip_ws r2) with
                      | Ok (v, r3) =>
                          match skip_ws r3 with
                          | d :: r4 =>
                              if Py.code d =? 44
                              then members fuel' depth (skip_ws r4)
                                           (Py.dict_set acc k v)
                              else if Py.code d =? 125
                                   then Ok (PyDict (Py.dict_set acc k v),
                                            r4)
                                   else Raise ValueError
                          | [] => Raise ValueError
                          end
                      | Raise e => Raise e
                      end
                    else Raise ValueError
                | [] => Raise ValueError
                end
            | None => Raise ValueError
            end
          else Raise ValueError
      | [] => Raise ValueError
      end
  end.

(** [json.loads(text)]. *)
Definition loads (text : string) : result pyval :=
  let s := skip_ws (list_ascii_of_string text) in
  match value (2 * length s + 2) nesting_limit s with
  | Ok (v, r) =>
      match skip_ws r with
      | [] => Ok v
      | _ :: _ => Raise ValueError
      end
  | Raise e => Raise e
  end.

End Json.

(** ** The Redis server behind [redis.Redis]

    The commands the cache layer issues, over a keyspace of text values
    with optional expiry. [clock] is the server's time in seconds; a key
    whose expiry time has been reached is gone for every command. Each
    command is one round trip, and a round trip can fail: [faults] lists,
    for the coming round trips in order, whether the transport raises. *)

Module Redis.

Record entry := Entry { value : string; expire_at : option Z }.

Record server := Server {
  db : gmap string entry;
  clock : Z;
  faults : list bool
}.

Definition expired (srv : server) (e : entry) : bool :=
  match expire_at e with
  | Some t => t <=? clock srv
  | None => false
  end.

Definition lookup (srv : server) (key : string) : option entry :=
  match db srv !! key with
  | Some e => if expired srv e then None else Some e
  | None => None
  end.

Definition with_db (srv : server) (d : gmap string entry) : server :=
  Server d (clock srv) (faults srv).

(** Time passing on the server. *)
Definition advance (dt : Z) (srv : server) : server :=
  Server (db srv) (clock srv + dt) (faults srv).

Definition command {A} (run : server -> result A * server) (srv : server)
  : result A * server :=
  match faults srv with
  | true :: rest => (Raise ConnectionError, Server (db srv) (clock srv) rest)
  | false :: rest => run (Server (db srv) (clock srv) rest)
  | [] => run srv
  end.

(** The coming round trip goes through. *)
Definition reachable (srv : server) : bool :=
  match faults srv with
  | true :: _ => false
  | _ => true
  end.

Definition ping : server -> result bool * server :=
  command (fun srv => (Ok true, srv)).

(** GET, with [decode_responses=True]. *)
Definition get (key : string) : server -> result (option string) * server :=
  command (fun srv =>
    (Ok (match lookup srv key with
         | Some e => Some (value e)
         | None => None
         end), srv)).

(** SET: the key loses any expiry it had. *)
Definition set (key val : string) : server -> result bool * server :=
  command (fun srv =>
    (Ok true, with_db srv (<[key := Entry val None]> (db srv)))).

(** SETEX: the seconds must be positive. *)
Definition setex (key : string) (seconds : Z) (val : string)
  : server -> result bool * server :=
  command (fun srv =>
    if seconds <=? 0 then (Raise ResponseError, srv)
    else (Ok true,
          with_db srv
            (<[key := Entry val (Some (clock srv + seconds))]> (db srv)))).

(** DEL: the number of keys that were removed. *)
Fixpoint del (names : list string) (srv : server) : Z * server :=
  match names with
  | [] => (0, srv)
  | k :: ks =>
      let hit := match lookup srv k with Some _ => 1 | None => 0 end in
      let '(n, srv') := del ks (with_db srv (base.delete k (db srv))) in
      (hit + n, srv')
  end.

Definition delete (names : list string) : server -> result Z * server :=
  command (fun srv => let '(n, srv') := del names srv in (Ok n, srv')).

(** *** Glob patterns of KEYS *)

(** The body of a bracket expression, matched against [c]; returns the
    pattern after the closing bracket. A bracket that is never closed
    ends the pattern. *)
Fixpoint class (p : list ascii) (c : ascii) (m : bool)
  : bool * list ascii :=
  match p with
  | [] => (m, [])
  | a :: p1 =>
      match p1 with
      | e :: p2 =>
          if Py.code a =? 92 then class p2 c (m || Ascii.eqb e c)
          else if Py.code a =? 93 then (m, p1)
          else
            match p2 with
            | b :: p3 =>
                if Py.code e =? 45 then
                  let lo := Z.min (Py.code a) (Py.code b) in
                  let hi := Z.max (Py.code a) (Py.code b) in
                  class p3 c (m || ((lo <=? Py.code c) && (Py.code c <=? hi)))
                else class p1 c (m || Ascii.eqb a c)
            | [] => class p1 c (m || Ascii.eqb a c)
            end
      | [] =>
          if Py.code a =? 93 then (m, []) else (m || Ascii.eqb a c, [])
      end
  end.

Fixpoint skip_stars (p : list ascii) : list ascii :=
  match p with
  | c :: p' => if Py.code c =? 42 then skip_stars p' else p
  | [] => []
  end.

Fixpoint stringmatch (fuel : nat) (p s : list ascii) : bool :=
  match fuel with
  | O => false
  | S fuel' =>
      match p with
      | [] => match s with [] => true | _ :: _ => false end
      | c :: p1 =>
          if Py.code c =? 42 then
            match skip_stars p1 with
            | [] => true
            | p2 =>
                (fix try (t : list ascii) : bool :=
                   stringmatch fuel' p2 t
                   || match t with [] => false | _ :: t' => try t' end) s
            end
          else
            match s with
            | [] => false
            | d :: s1 =>
                if Py.code c =? 63 then stringmatch fuel' p1 s1
                else if Py.code c =? 91 then
                  let '(neg, p2) :=
                    match p1 with
                    | n :: r => if Py.code n =? 94 then (true, r)
                                else (false, p1)
                    | [] => (false, [])
                    end in
                  let '(m, p3) := class p2 d false in
                  if xorb neg m then stringmatch fuel' p3 s1 else false
                else if Py.code c =? 92 then
                  match p1 with
                  | e :: p2 =>
                      if Ascii.eqb e d then stringmatch fuel' p2 s1
                      else false
                  | [] =>
                      if Ascii.eqb c d then stringmatch fuel' [] s1
                      else false
                  end
                else if Ascii.eqb c d then stringmatch fuel' p1 s1
                else false
            end
      end
  end.

Definition glob (pattern key : string) : bool :=
  let p := list_ascii_of_string pattern in
  stringmatch (S (length p)) p (list_ascii_of_string key).

(** KEYS: the names of the keys that match the pattern. *)
Definition keys (pattern : string)
  : server -> result (list string) * server :=
  command (fun srv =>
    (Ok (List.filter
           (fun k => match lookup srv k with
                     | Some _ => glob pattern k
                     | None => false
                     end)
           (List.map fst (map_to_list (db srv)))), srv)).

(** The text of a 64-bit signed integer in the form INCR accepts: no
    sign but a leading minus, no leading zero, no white space. *)
Definition string2ll (s : string) : option Z :=
  let cs := list_ascii_of_string s in
  let '(neg, ds) :=
    match cs with
    | c :: r => if Py.code c =? 45 then (true, r) else (false, cs)
    | [] => (false, [])
    end in
  match ds with
  | [] => None
  | d :: r =>
      if forallb Py.is_digit ds
         && (negb (Py.code d =? 48) || (match r with [] => negb neg
                                                 | _ :: _ => false end))
      then
        match Py.int_digits ds 0 false with
        | Some n =>
            let z := if neg then - n else n in
            if (- 2 ^ 63 <=? z) && (z <? 2 ^ 63) then Some z else None
        | None => None
        end
      else None
  end.

(** INCR: a missing key counts from zero; the expiry is kept. *)
Definition incr (key : string) : server -> result Z * server :=
  command (fun srv =>
    match lookup srv key with
    | None =>
        (Ok 1, with_db srv (<[key := Entry (Py.str_int 1) None]> (db srv)))
    | Some e =>
        match string2ll (value e) with
        | Some n =>
            if n + 1 <? 2 ^ 63 then
              (Ok (n + 1),
               with_db srv
                 (<[key := Entry (Py.str_int (n + 1)) (expire_at e)]>
                    (db srv)))
            else (Raise ResponseError, srv)
        | None => (Raise ResponseError, srv)
        end
    end).

(** FLUSHDB. *)
Definition flushdb : server -> result bool * server :=
  command (fun srv => (Ok true, with_db srv ∅)).

End Redis.

(** ** server/redis_manager.py *)

(** *** class RedisCache *)

Module RedisCache.

(** The object: [self.redis_client] is the connection, identified with
    the server it reaches, or [None]; [self.connected] is the flag the
    constructor sets. *)
Record t := Make {
  redis_client : option Redis.server;
  connected : bool
}.

(** A method body: it sees the object, may update it, and returns or
    raises. *)
Definition M (A : Type) : Type := t -> result A * t.

Definition ret {A} (a : A) : M A := fun self => (Ok a, self).

Definition raise {A} (e : exn) : M A := fun self => (Raise e, self).

Definition bind {A B} (m : M A) (k : A -> M B) : M B :=
  fun self =>
    match m self with
    | (Ok a, self') => k a self'
    | (Raise e, self') => (Raise e, self')
    end.

(** A pure computation that may raise. *)
Definition lift {A} (r : result A) : M A := fun self => (r, self).

(** [try: body except Exception as e: handler]. *)
Definition try_except {A} (body : M A) (handler : exn -> M A) : M A :=
  fun self =>
    match body self with
    | (Ok a, self') => (Ok a, self')
    | (Raise e, self') => handler e self'
    end.

(** [self.redis_client.<command>(...)]. *)
Definition client {A} (cmd : Redis.server -> result A * Redis.server)
  : M A :=
  fun self =>
    match redis_client self with
    | None => (Raise AttributeError, self)
    | Some srv =>
        let '(r, srv') := cmd srv in
        (r, Make (Some srv') (connected self))
    end.

Declare Scope py_scope.
Delimit Scope py_scope with py.
Notation "x <- m ;; k" := (bind m (fun x => k))
  (at level 100, m at next level, k at level 200, right associativity)
  : py_scope.
Notation "m ;; k" := (bind m (fun _ => k))
  (at level 100, k at level 200, right associativity) : py_scope.
Open Scope py_scope.

(** [__init__]: [redis.from_url] followed by [ping]; any failure leaves
    the cache disabled, without a client. *)
Definition __init__ (srv : Redis.server) : t :=
  match Redis.ping srv with
  | (Ok _, srv') => Make (Some srv') true
  | (Raise _, _) => Make None false
  end.

(** [if kwargs:] / [sorted(kwargs.items())]: the items in ascending
    order. Two items of one [dict] differ in their keys, so the keys
    alone decide the order; equal elements keep their order. *)
Fixpoint insert_item {B} (x : string * B) (l : list (string * B))
  : list (string * B) :=
  match l with
  | [] => [x]
  | y :: l' =>
      if Py.str_le (fst x) (fst y) then x :: l else y :: insert_item x l'
  end.

Definition sorted {B} (items : list (string * B)) : list (string * B) :=
  foldr insert_item [] items.

(** [":".join(key_parts)], the key before the length test. *)
Definition joined_key {A B} `{Str A} `{Str B}
    (prefix : string) (args : list A) (kwargs : list (string * B))
  : string :=
  let key_parts := ([prefix] ++ List.map str args)%list in
  let key_parts :=
    match kwargs with
    | [] => key_parts
    | _ :: _ =>
        let sorted_kwargs := sorted kwargs in
        (key_parts
           ++ List.map (fun kv => fst kv +:+ ":" +:+ str (snd kv))
                       sorted_kwargs)%list
    end in
  Py.join ":" key_parts.

Definition _generate_key {A B} `{Str A} `{Str B}
    (prefix : string) (args : list A) (kwargs : list (string * B))
  : string :=
  let key := joined_key prefix args kwargs in
  if 256 <? Py.len key
  then prefix +:+ ":" +:+ Md5.hexdigest (Py.encode key)
  else key.

Definition get (key : string) : M pyval :=
  fun self =>
    if negb (connected self) then (Ok PyNone, self)
    else
      try_except
        (value <- client (Redis.get key) ;;
         match value with
         | Some (String _ _ as text) => lift (Json.loads text)
         | Some EmptyString | None => ret PyNone
         end)
        (fun e => ret PyNone) self.

(** [ttl] is [None] or an [int]; [if ttl:] holds for a non-zero [int]. *)
Definition set (key : string) (value : pyval) (ttl : option Z) : M bool :=
  fun self =>
    if negb (connected self) then (Ok false, self)
    else
      try_except
        (serialized <- lift (Json.dumps value) ;;
         match ttl with
         | Some seconds =>
             if seconds =? 0 then client (Redis.set key serialized)
             else client (Redis.setex key seconds serialized)
         | None => client (Redis.set key serialized)
         end ;;
         ret true)
        (fun e => ret false) self.

Definition delete (key : string) : M bool :=
  fun self =>
    if negb (connected self) then (Ok false, self)
    else
      try_except
        (client (Redis.delete [key]) ;; ret true)
        (fun e => ret false) self.

Definition clear_pattern (pattern : string) : M Z :=
  fun self =>
    if negb (connected self) then (Ok 0, self)
    else
      try_except
        (keys <- client (Redis.keys pattern) ;;
         match keys with
         | _ :: _ => client (Redis.delete keys)
         | [] => ret 0
         end)
        (fun e => ret 0) self.

Definition clear_all : M bool :=
  fun self =>
    if negb (connected self) then (Ok false, self)
    else
      try_except
        (client Redis.flushdb ;; ret true)
        (fun e => ret false) self.

(** Whether a keyword argument has the name of a parameter that
    [_generate_key] is given by position: [self] or [prefix]. *)
Definition rebinds {B} (kwargs : list (string * B)) : bool :=
  existsb (fun kv => String.eqb (fst kv) "self"
                     || String.eqb (fst kv) "prefix") kwargs.

(** [cache_result(prefix, ttl)(func)] applied to [*args] and [**kwargs]:
    the body of [wrapper]. [func] may raise, and may use the cache. The
    call [self._generate_key(prefix, *args, **kwargs)] gives the
    parameters [self] and [prefix] by position, so a keyword argument of
    one of these names is a [TypeError], raised before anything else. *)
Definition cache_result {A B} `{Str A} `{Str B} (prefix : string) (ttl : Z)
    (func : list A -> list (string * B) -> M pyval)
    (args : list A) (kwargs : list (string * B)) : M pyval :=
  if rebinds kwargs
  then raise TypeError
  else
    (let key := _generate_key prefix args kwargs in
     cached <- get key ;;
     if Py.is_not_None cached then ret cached
     else
       (result <- func args kwargs ;;
        set key result (Some ttl) ;;
        ret result)).

End RedisCache.

Import RedisCache.

(** *** class SessionManager *)

Module SessionManager.

Definition session_ttl : Z := 86400 * 7.

Definition create_session (user_id : string) (data : pyval) : M string :=
  let session_key := "session:" +:+ user_id in
  RedisCache.set session_key data (Some session_ttl) ;;
  ret session_key.

Definition get_session (user_id : string) : M pyval :=
  let session_key := "session:" +:+ user_id in
  RedisCache.get session_key.

Definition update_session (user_id : string) (data : pyval) : M bool :=
  session_key <- create_session user_id data ;;
  ret (Py.is_not_None (PyStr session_key)).

Definition delete_session (user_id : string) : M bool :=
  let session_key := "session:" +:+ user_id in
  RedisCache.delete session_key.

(** [get_active_sessions]: the listing goes to the client directly,
    inside the method's own [try]. *)
Definition get_active_sessions : M (list string) :=
  fun cache =>
    if negb (connected cache) then (Ok [], cache)
    else
      try_except
        (keys <- client (Redis.keys "session:*") ;;
         ret (List.map (fun key => Py.replace "session:" EmptyString key)
                       keys))
        (fun e => ret []) cache.

End SessionManager.

(** *** class RateLimiter *)

Module RateLimiter.

Definition is_allowed (identifier : string) (max_requests window : Z)
  : M bool :=
  fun cache =>
    if negb (connected cache) then (Ok true, cache)
    else
      (let key := "ratelimit:" +:+ identifier in
       current <- client (Redis.get key) ;;
       match current with
       | None =>
           RedisCache.set key (PyInt 1) (Some window) ;;
           ret true
       | Some text =>
           current_count <- lift (Py.int text) ;;
           if max_requests <=? current_count then ret false
           else (client (Redis.incr key) ;; ret true)
       end) cache.

Definition get_remaining (identifier : string) (max_requests : Z) : M Z :=
  fun cache =>
    if negb (connected cache) then (Ok max_requests, cache)
    else
      (let key := "ratelimit:" +:+ identifier in
       current <- client (Redis.get key) ;;
       match current with
       | None => ret max_requests
       | Some text =>
           n <- lift (Py.int text) ;;
           ret (Z.max 0 (max_requests - n))
       end) cache.

End RateLimiter.

(** *** class MemoryCache *)

Module MemoryCache.

Definition search_ttl : Z := 3600.
Definition memory_ttl : Z := 86400.
Definition stats_ttl : Z := 300.

Definition cache_search (query : string) (results : pyval)
    (user_id : string) : M bool :=
  let key := _generate_key (B := string) "search" [user_id; query] [] in
  RedisCache.set key results (Some search_ttl).

Definition get_cached_search (query : string) (user_id : string)
  : M pyval :=
  let key := _generate_key (B := string) "search" [user_id; query] [] in
  RedisCache.get key.

Definition invalidate_searches (user_id : string) : M Z :=
  let pattern :=
    if negb (String.eqb user_id "*") then "search:" +:+ user_id +:+ ":*"
    else "search:*" in
  RedisCache.clear_pattern pattern.

Definition cache_memory (memory_id : string) (memory_data : pyval)
  : M bool :=
  let key := "memory:" +:+ memory_id in
  RedisCache.set key memory_data (Some memory_ttl).

Definition get_cached_memory (memory_id : string) : M pyval :=
  let key := "memory:" +:+ memory_id in
  RedisCache.get key.

Definition invalidate_memory (memory_id : string) : M bool :=
  let key := "memory:" +:+ memory_id in
  RedisCache.delete key.

Definition cache_stats (stats_key : string) (stats_data : pyval) : M bool :=
  let key := "stats:" +:+ stats_key in
  RedisCache.set key stats_data (Some stats_ttl).

Definition get_cached_stats (stats_key : string) : M pyval :=
  let key := "stats:" +:+ stats_key in
  RedisCache.get key.

Definition invalidate_stats (stats_key : string) : M Z :=
  let pattern :=
    if negb (String.eqb stats_key "*") then "stats:" +:+ stats_key
    else "stats:*" in
  RedisCache.clear_pattern pattern.

End MemoryCache.

(** ** server/timesync_app.py *)

(** *** datetime and float arithmetic

    A naive [datetime] is its distance from [datetime.fromtimestamp(0)]
    in microseconds, a [timedelta] a number of microseconds. [float] is
    IEEE 754 binary64 with round-to-nearest-even, as in Python. *)

Module Time.

Definition datetime : Type := Z.
Definition timedelta : Type := Z.

(** [datetime.fromtimestamp(0)]. *)
Definition epoch : datetime := 0.

(** [float(n)] for an [int] below [2^63] in absolute value. *)
Definition float_of_int (n : Z) : float :=
  if n <? 0 then PrimFloat.opp (PrimFloat.of_uint63 (Uint63.of_Z (- n)))
  else PrimFloat.of_uint63 (Uint63.of_Z n).

(** [a / b] for two [int]: the quotient as a [float]. The integers of
    this development are below [2^53] in absolute value, where both
    conversions are exact and the quotient is rounded once. *)
Definition true_div (a b : Z) : float :=
  PrimFloat.div (float_of_int a) (float_of_int b).

(** [td.total_seconds()]. *)
Definition total_seconds (td : timedelta) : float := true_div td 1000000.

(** [int(x)]: truncation toward zero; an infinity or a NaN raises. *)
Definition int_of_float (x : float) : result Z :=
  match Prim2SF x with
  | S754_zero _ => Ok 0
  | S754_finite s m e =>
      let magnitude :=
        if 0 <=? e then Z.pos m * 2 ^ e else Z.pos m / 2 ^ (- e) in
      Ok (if s then - magnitude else magnitude)
  | S754_infinity _ | S754_nan => Raise ValueError
  end.

(** [x > n] for a [float] and an [int]: Python compares the two exact
    values. *)
Definition float_gt_int (x : float) (n : Z) : bool :=
  match Prim2SF x with
  | S754_zero _ => n <? 0
  | S754_finite s m e =>
      let v := if s then Z.neg m else Z.pos m in
      if 0 <=? e then n <? v * 2 ^ e else n * 2 ^ (- e) <? v
  | S754_infinity s => negb s
  | S754_nan => false
  end.

(** The wall clock: [readings k] is what the [k]-th call of
    [datetime.now()] returns, [reads] counts the calls made so far. *)
Record Clock := { readings : nat -> datetime; reads : nat }.

Definition now (clk : Clock) : datetime * Clock :=
  (readings clk (reads clk),
   {| readings := readings clk; reads := S (reads clk) |}).

(** No reading is earlier than the one before it. *)
Definition monotone (clk : Clock) : Prop :=
  forall k : nat, readings clk k <= readings clk (S k).

End Time.

Import Time.

Inductive ServiceStatus := ACTIVE | STALE | DISCONNECTED.

Definition ServiceStatus_eqb (a b : ServiceStatus) : bool :=
  match a, b with
  | ACTIVE, ACTIVE | STALE, STALE | DISCONNECTED, DISCONNECTED => true
  | _, _ => false
  end.

Module SyncRecord.
Record t := Make {
  service : string;
  last_sync : datetime;
  last_memory_update : datetime;
  status : ServiceStatus
}.
End SyncRecord.

Module CompareResponse.
Record t := Make {
  service : string;
  client_timestamp : datetime;
  server_timestamp : datetime;
  is_client_newer : bool;
  diff_ms : Z;
  diff_seconds : float;
  needs_sync : bool
}.
End CompareResponse.

(** *** class TimeSyncManager *)

Module TimeSyncManager.

Record t := Make {
  sync_records : gmap string SyncRecord.t;
  stale_threshold_ms : Z
}.

Definition __init__ (stale_threshold_ms : Z) : t := Make ∅ stale_threshold_ms.

(** The default [stale_threshold_ms]. *)
Definition default_threshold : Z := 60000.

Definition with_records (self : t) (records : gmap string SyncRecord.t)
  : t :=
  Make records (stale_threshold_ms self).

Definition register_service (service : string) (self : t) (clk : Clock)
  : t * Clock :=
  let '(now, clk) := Time.now clk in
  (with_records self
     (<[service := SyncRecord.Make service now now ACTIVE]>
        (sync_records self)),
   clk).

Definition update_sync (service : string) (is_memory_update : bool)
    (self : t) (clk : Clock) : datetime * t * Clock :=
  let '(now, clk) := Time.now clk in
  match sync_records self !! service with
  | Some record =>
      let record :=
        SyncRecord.Make
          (SyncRecord.service record)
          now
          (if is_memory_update then now
           else SyncRecord.last_memory_update record)
          ACTIVE in
      (now, with_records self (<[service := record]> (sync_records self)),
       clk)
  | None =>
      let '(self, clk) := register_service service self clk in
      (now, self, clk)
  end.

(** [(now - record.last_sync).total_seconds() * 1000]. *)
Definition elapsed_ms (now last_sync : datetime) : float :=
  PrimFloat.mul (total_seconds (now - last_sync)) 1000%float.

Definition check_stale (service : string) (self : t) (clk : Clock)
  : bool * t * Clock :=
  match sync_records self !! service with
  | None => (true, self, clk)
  | Some record =>
      let '(now, clk) := Time.now clk in
      let diff_ms := elapsed_ms now (SyncRecord.last_sync record) in
      let is_stale := float_gt_int diff_ms (stale_threshold_ms self) in
      if is_stale && ServiceStatus_eqb (SyncRecord.status record) ACTIVE
      then
        (is_stale,
         with_records self
           (<[service :=
                SyncRecord.Make
                  (SyncRecord.service record)
                  (SyncRecord.last_sync record)
                  (SyncRecord.last_memory_update record)
                  STALE]> (sync_records self)),
         clk)
      else (is_stale, self, clk)
  end.

Definition get_service_status (service : string) (self : t)
  : option SyncRecord.t :=
  sync_records self !! service.

Definition compare_timestamps (service : string)
    (client_timestamp : datetime) (self : t) : result CompareResponse.t :=
  let record := sync_records self !! service in
  let server_timestamp :=
    match record with
    | Some r => SyncRecord.last_memory_update r
    | None => Time.epoch
    end in
  match
    int_of_float
      (PrimFloat.mul (total_seconds (client_timestamp - server_timestamp))
                     1000%float)
  with
  | Ok diff_ms =>
      Ok (CompareResponse.Make
            service
            client_timestamp
            server_timestamp
            (0 <? diff_ms)
            diff_ms
            (true_div diff_ms 1000)
            (1000 <? Z.abs diff_ms))
  | Raise e => Raise e
  end.

End TimeSyncManager.

(** A call of the tracker's interface, and a run of calls from left to
    right. *)
Inductive Call :=
| Register (service : string)
| UpdateSync (service : string) (is_memory_update : bool)
| CheckStale (service : string).

Definition step (c : Call) (st : TimeSyncManager.t * Clock)
  : TimeSyncManager.t * Clock :=
  let '(self, clk) := st in
  match c with
  | Register service => TimeSyncManager.register_service service self clk
  | UpdateSync service flag =>
      let '(_, self, clk) :=
        TimeSyncManager.update_sync service flag self clk in (self, clk)
  | CheckStale service =>
      let '(_, self, clk) :=
        TimeSyncManager.check_stale service self clk in (self, clk)
  end.

Definition run (calls : list Call) (st : TimeSyncManager.t * Clock)
  : TimeSyncManager.t * Clock :=
  fold_left (fun st c => step c st) calls st.

(** ** Scenarios

    The rate-limiting scenario of the specification: [n] requests of one
    identifier, with the remaining quota read after each request, or
    before it. *)

Fixpoint allow_then_remaining (n : nat) (identifier : string)
    (max_requests window : Z) (cache : RedisCache.t)
  : list (result bool * result Z) :=
  match n with
  | O => []
  | S n' =>
      let '(allowed, cache) :=
        RateLimiter.is_allowed identifier max_requests window cache in
      let '(remaining, cache) :=
        RateLimiter.get_remaining identifier max_requests cache in
      (allowed, remaining)
        :: allow_then_remaining n' identifier max_requests window cache
  end.

Fixpoint remaining_then_allow (n : nat) (identifier : string)
    (max_requests window : Z) (cache : RedisCache.t)
  : list (result Z * result bool) :=
  match n with
  | O => []
  | S n' =>
      let '(remaining, cache) :=
        RateLimiter.get_remaining identifier max_requests cache in
      let '(allowed, cache) :=
        RateLimiter.is_allowed identifier max_requests window cache in
      (remaining, allowed)
        :: remaining_then_allow n' identifier max_requests window cache
  end.

(** ** Notions used in the statements *)

(** A command on a reachable server runs its body, on the server with
    the consumed fault flag removed. *)
Definition settled (srv : Redis.server) : Redis.server :=
  Redis.Server (Redis.db srv) (Redis.clock srv) (tl (Redis.faults srv)).

(** A connected cache over the server [srv]. *)
Definition warm (srv : Redis.server) : RedisCache.t :=
  RedisCache.Make (Some srv) true.

(** The server after a write of [text] under [key]. *)
Definition put srv key text (expiry : option Z) : Redis.server :=
  Redis.with_db srv (<[key := Redis.Entry text expiry]> (Redis.db srv)).

(** A query of 300 characters. *)
Definition long_query : string := string_of_list_ascii (repeat "q"%char 300).

(** A clock that reads [t0] and then advances by [dt] between two
    readings. *)
Definition ticking (t0 dt : Z) : Clock :=
  {| readings := fun k => t0 + Z.of_nat k * dt; reads := 0 |}.

(** The record of [record] with another status. *)
Definition with_status (record : SyncRecord.t) (s : ServiceStatus)
  : SyncRecord.t :=
  SyncRecord.Make (SyncRecord.service record) (SyncRecord.last_sync record)
                  (SyncRecord.last_memory_update record) s.

(** What [check_stale] compares: the elapsed time of [record] at the
    reading [now], in milliseconds as the code converts it, against the
    threshold. *)
Definition stale_at self (record : SyncRecord.t) (now : datetime) : bool :=
  float_gt_int (TimeSyncManager.elapsed_ms now (SyncRecord.last_sync record))
               (TimeSyncManager.stale_threshold_ms self).

(** Every record's timestamps are ordered, and none is later than the
    coming clock reading. *)
Definition ordered (st : TimeSyncManager.t * Clock) : Prop :=
  forall service (record : SyncRecord.t),
    TimeSyncManager.sync_records (fst st) !! service = Some record ->
    SyncRecord.last_memory_update record <= SyncRecord.last_sync record
    /\ SyncRecord.last_sync record <= readings (snd st) (reads (snd st)).

(** A prefix of 300 characters. *)
Definition long_prefix : string := string_of_list_ascii (repeat "a"%char 300).

(** ** Notions used in the further properties *)

(** The value of a decimal numeral read after [acc], and its
    characters. *)
Fixpoint uint_acc (d : Decimal.uint) (acc : Z) : Z :=
  match d with
  | Decimal.Nil => acc
  | Decimal.D0 d => uint_acc d (10 * acc)
  | Decimal.D1 d => uint_acc d (10 * acc + 1)
  | Decimal.D2 d => uint_acc d (10 * acc + 2)
  | Decimal.D3 d => uint_acc d (10 * acc + 3)
  | Decimal.D4 d => uint_acc d (10 * acc + 4)
  | Decimal.D5 d => uint_acc d (10 * acc + 5)
  | Decimal.D6 d => uint_acc d (10 * acc + 6)
  | Decimal.D7 d => uint_acc d (10 * acc + 7)
  | Decimal.D8 d => uint_acc d (10 * acc + 8)
  | Decimal.D9 d => uint_acc d (10 * acc + 9)
  end.

Definition digits_of (d : Decimal.uint) : list ascii :=
  list_ascii_of_string (NilEmpty.string_of_uint d).

(** The server of [srv] once the counter of [identifier] holds [count]
    and expires at [expiry]. *)
Definition counter_at (srv : Redis.server) (identifier : string) (count : Z)
    (expiry : option Z) : Redis.server :=
  Redis.Server
    (<["ratelimit:" +:+ identifier := Redis.Entry (Py.str_int count) expiry]>
       (Redis.db srv))
    (Redis.clock srv) [].

(** What the [i]-th request of a window (counted from 0) returns, and
    what [get_remaining] reports after it. *)
Definition expected_request (max_requests : Z) (i : nat)
  : result bool * result Z :=
  (Ok (Nat.eqb i 0 || (Z.of_nat i <? max_requests)),
   Ok (Z.max 0 (max_requests
                - Z.min (Z.of_nat (S i)) (Z.max 1 max_requests)))).

(** The limiter's cache after [n] calls of [is_allowed]. *)
Fixpoint after_requests (n : nat) (identifier : string)
    (max_requests window : Z) (cache : RedisCache.t) : RedisCache.t :=
  match n with
  | O => cache
  | S n' =>
      after_requests n' identifier max_requests window
        (snd (RateLimiter.is_allowed identifier max_requests window cache))
  end.

(** [dt] seconds pass on the server behind the cache. *)
Definition elapse (dt : Z) (cache : RedisCache.t) : RedisCache.t :=
  RedisCache.Make (option_map (Redis.advance dt) (redis_client cache))
                  (connected cache).

(** The limiter's cache after one call of [is_allowed] for every entry
    of [gaps], each made that many seconds after the call before it. *)
Fixpoint requests_after (gaps : list Z) (identifier : string)
    (max_requests window : Z) (cache : RedisCache.t) : RedisCache.t :=
  match gaps with
  | [] => cache
  | gap :: gaps' =>
      requests_after gaps' identifier max_requests window
        (snd (RateLimiter.is_allowed identifier max_requests window
                (elapse gap cache)))
  end.

(** The seconds that pass over a list of gaps. *)
Definition seconds (gaps : list Z) : Z := fold_right Z.add 0 gaps.

(** What may follow a value inside a document: nothing, a comma, or a
    closing bracket. *)
Definition closes (rest : list ascii) : bool :=
  match rest with
  | [] => true
  | c :: _ => (Py.code c =? 44) || (Py.code c =? 93) || (Py.code c =? 125)
  end.

(** No key occurs twice. *)
Fixpoint distinct (keys : list string) : bool :=
  match keys with
  | [] => true
  | k :: ks => negb (existsb (String.eqb k) ks) && distinct ks
  end.

(** The values [json] can write and read back: [None], [bool], [int]
    within the digit limit, [str], and the [list] and [dict] of such
    values. The keys of a [dict] are distinct. *)
Fixpoint writable (v : pyval) : bool :=
  match v with
  | PyNone | PyBool _ | PyStr _ => true
  | PyInt z => Py.len (Py.str_int (Z.abs z)) <=? Py.int_max_str_digits
  | PyFloat _ | PyObject _ => false
  | PyList items => forallb writable items
  | PyDict items =>
      forallb (fun kv => writable (snd kv)) items
      && distinct (List.map fst items)
  end.

(** How deep the lists and dicts of a value are nested. *)
Fixpoint nesting (v : pyval) : nat :=
  match v with
  | PyList items => S (list_max (List.map nesting items))
  | PyDict items => S (list_max (List.map (fun kv => nesting (snd kv)) items))
  | _ => O
  end.

(** The values that [json] writes and reads back unchanged wherever the
    cache is called from with at least a hundred levels of the recursion
    limit to spare: writable, and nested at most a hundred deep. *)
Definition plain (v : pyval) : bool :=
  writable v && (nesting v <=? 100)%nat.

(** The recursion depth the decoder needs for a value. *)
Fixpoint cost (v : pyval) : nat :=
  match v with
  | PyList items => S (list_sum (List.map (fun x => S (cost x)) items))
  | PyDict items =>
      S (list_sum (List.map (fun kv => S (cost (snd kv))) items))
  | _ => 1
  end.

(** The first character of a document: not white space, not a closing
    bracket. *)
Definition opens (s : list ascii) : bool :=
  match s with
  | [] => false
  | c :: _ =>
      negb (Json.is_ws c) && negb (Py.code c =? 93)
      && negb (Py.code c =? 125)
  end.

(** The live keys of the store that match [pattern], as KEYS lists
    them. *)
Definition matching (pattern : string) (srv : Redis.server) : list string :=
  List.filter
    (fun k => match Redis.lookup srv k with
              | Some _ => Redis.glob pattern k
              | None => false
              end)
    (List.map fst (map_to_list (Redis.db srv))).

(** A text without the characters that a Redis pattern reads specially:
    the star, the question mark, the opening bracket, the backslash. *)
Definition literal (s : string) : bool :=
  forallb
    (fun c => negb ((Py.code c =? 42) || (Py.code c =? 63)
                    || (Py.code c =? 91) || (Py.code c =? 92)))
    (list_ascii_of_string s).

(** *** The module's tracker and its endpoints *)

Module StatusResponse.
Record t := Make {
  service : string;
  is_stale : bool;
  status : option SyncRecord.t
}.
End StatusResponse.

Definition SERVICES : list string :=
  ["flask-ui"; "fastapi-rest"; "fastapi-mcp"; "sse-server"; "pgvector";
   "neo4j"].

(** [sync_manager = TimeSyncManager()] followed by the registration of
    the known services, at import time. *)
Definition sync_manager (clk : Clock) : TimeSyncManager.t * Clock :=
  fold_left
    (fun st service =>
       TimeSyncManager.register_service service (fst st) (snd st))
    SERVICES
    (TimeSyncManager.__init__ TimeSyncManager.default_threshold, clk).

Module HealthResponse.
Record t := Make {
  status : string;
  service : string;
  registered_services : Z
}.
End HealthResponse.

(** [GET /health]. *)
Definition health_check (self : TimeSyncManager.t) : HealthResponse.t :=
  HealthResponse.Make "ok" "wolf-logic-timesync"
    (Z.of_nat (size (TimeSyncManager.sync_records self))).

(** [GET /sync/status/{service}]. *)
Definition check_sync_status (service : string) (self : TimeSyncManager.t)
    (clk : Clock) : StatusResponse.t * TimeSyncManager.t * Clock :=
  let '(is_stale, self, clk) :=
    TimeSyncManager.check_stale service self clk in
  let status := TimeSyncManager.get_service_status service self in
  (StatusResponse.Make service is_stale status, self, clk).

(** The service a call is about. *)
Definition subject (c : Call) : string :=
  match c with
  | Register service | UpdateSync service _ | CheckStale service => service
  end.

(** Every record is filed under its own service name, and none is
    [DISCONNECTED]. *)
Definition well_formed (self : TimeSyncManager.t) : Prop :=
  forall service (record : SyncRecord.t),
    TimeSyncManager.sync_records self !! service = Some record ->
    SyncRecord.service record = service
    /\ SyncRecord.status record <> DISCONNECTED.

(** A text without a colon. *)
Definition colon_free (s : string) : bool :=
  forallb (fun c => negb (Py.code c =? 58)) (list_ascii_of_string s).

(* ===================================================================== *)
(** * Part II. Properties                                                 *)
(* ===================================================================== *)

(** ** The cache layer *)

Section CacheFacts.

Implicit Types (cache : RedisCache.t) (srv : Redis.server).
Implicit Types (key pattern identifier user_id : string).


Lemma command_reachable {A} (body : Redis.server -> result A * Redis.server)
    srv :
  Redis.reachable srv = true ->
  Redis.command body srv = body (settled srv).
Proof.
  unfold Redis.reachable, Redis.command, settled.
  destruct srv as [d c [|[] fs]]; simpl; try discriminate; reflexivity.
Qed.

Lemma command_quiet {A} (body : Redis.server -> result A * Redis.server)
    srv :
  Redis.faults srv = [] -> Redis.command body srv = body srv.
Proof.
  unfold Redis.command. intros ->. reflexivity.
Qed.

(** The fail-soft methods return, whatever the store does. *)
Lemma set_returns key (value : pyval) (ttl : option Z) cache :
  exists b, fst (RedisCache.set key value ttl cache) = Ok b.
Proof.
  unfold RedisCache.set, try_except, bind, lift, ret.
  destruct (connected cache); simpl; [|eauto].
  destruct (Json.dumps value); simpl; [|eauto].
  destruct (match ttl with
            | Some seconds =>
                if seconds =? 0 then client (Redis.set key a)
                else client (Redis.setex key seconds a)
            | None => client (Redis.set key a)
            end cache) as [[]]; simpl; eauto.
Qed.

Lemma disabled_get key cache :
  connected cache = false -> RedisCache.get key cache = (Ok PyNone, cache).
Proof. unfold RedisCache.get. intros ->. reflexivity. Qed.

Lemma disabled_set key (value : pyval) (ttl : option Z) cache :
  connected cache = false ->
  RedisCache.set key value ttl cache = (Ok false, cache).
Proof. unfold RedisCache.set. intros ->. reflexivity. Qed.

Lemma disabled_delete key cache :
  connected cache = false -> RedisCache.delete key cache = (Ok false, cache).
Proof. unfold RedisCache.delete. intros ->. reflexivity. Qed.

Lemma disabled_clear_pattern pattern cache :
  connected cache = false ->
  RedisCache.clear_pattern pattern cache = (Ok 0, cache).
Proof. unfold RedisCache.clear_pattern. intros ->. reflexivity. Qed.

Lemma disabled_clear_all cache :
  connected cache = false -> RedisCache.clear_all cache = (Ok false, cache).
Proof. unfold RedisCache.clear_all. intros ->. reflexivity. Qed.

(** A constructor whose ping fails leaves a disabled cache. *)
Lemma init_failed srv :
  is_ok (fst (Redis.ping srv)) = false ->
  RedisCache.__init__ srv = RedisCache.Make None false.
Proof.
  unfold RedisCache.__init__.
  destruct (Redis.ping srv) as [[] ]; simpl; [discriminate | reflexivity].
Qed.

End CacheFacts.

(** C2. A cache whose connection failed at construction is disabled, and
    in that state every operation returns its safe default and leaves the
    object as it is: [get] returns [None], [set] and [delete] return
    [False], [clear_pattern] returns [0], [clear_all] returns [False].
    Each result is an [Ok]: nothing is raised. *)
Theorem disabled_cache_safe_defaults :
  forall (srv : Redis.server),
    is_ok (fst (Redis.ping srv)) = false ->
    let cache := RedisCache.__init__ srv in
    connected cache = false
    /\ (forall key, RedisCache.get key cache = (Ok PyNone, cache))
    /\ (forall key value ttl,
          RedisCache.set key value ttl cache = (Ok false, cache))
    /\ (forall key, RedisCache.delete key cache = (Ok false, cache))
    /\ (forall pattern,
          RedisCache.clear_pattern pattern cache = (Ok 0, cache))
    /\ RedisCache.clear_all cache = (Ok false, cache).
Proof.
  intros srv Hping cache. subst cache. rewrite (init_failed srv Hping).
  split; [reflexivity|].
  split; [intros; apply disabled_get; reflexivity|].
  split; [intros; apply disabled_set; reflexivity|].
  split; [intros; apply disabled_delete; reflexivity|].
  split; [intros; apply disabled_clear_pattern; reflexivity|].
  apply disabled_clear_all; reflexivity.
Qed.

(** A server that cannot be reached when the cache is constructed. *)
Lemma disabled_cache_safe_defaults_witness :
  let srv := Redis.Server ∅ 0 [true] in
  is_ok (fst (Redis.ping srv)) = false
  /\ RedisCache.get "k" (RedisCache.__init__ srv)
     = (Ok PyNone, RedisCache.__init__ srv).
Proof.
  split; [reflexivity|].
  apply (disabled_cache_safe_defaults (Redis.Server ∅ 0 [true])).
  reflexivity.
Defined.

(** C10. [update_session] returns [True] for every user id, every session
    data and every state of the cache, the disabled state and every
    failure of the underlying [set] included: [create_session] returns
    the key, a [str], whatever [set] returned, and [update_session] only
    tests that value against [None]. The cache is left as [set] left
    it. *)
Theorem update_session_always_true :
  forall (cache : RedisCache.t) (user_id : string) (data : pyval),
    SessionManager.update_session user_id data cache
    = (Ok true,
       snd (RedisCache.set ("session:" +:+ user_id) data
              (Some SessionManager.session_ttl) cache)).
Proof.
  intros cache user_id data.
  unfold SessionManager.update_session, SessionManager.create_session.
  destruct (set_returns ("session:" +:+ user_id) data
              (Some SessionManager.session_ttl) cache) as [b Hb].
  unfold bind, ret.
  destruct (RedisCache.set _ _ _ cache) as [r cache'].
  simpl in Hb. subst r. reflexivity.
Qed.

(** ** The rate limiter *)

Section RateLimiterFacts.

Implicit Types (srv : Redis.server) (key identifier text : string).



Lemma lookup_settled srv key :
  Redis.lookup (settled srv) key = Redis.lookup srv key.
Proof. reflexivity. Qed.

Lemma lookup_put srv key text (expiry : option Z) :
  Redis.expired srv (Redis.Entry text expiry) = false ->
  Redis.lookup (put srv key text expiry) key
  = Some (Redis.Entry text expiry).
Proof.
  intros Hlive. unfold Redis.lookup, put, Redis.with_db; simpl.
  rewrite lookup_insert_eq.
  unfold Redis.expired in *; simpl in *. rewrite Hlive. reflexivity.
Qed.

Lemma client_get_reachable srv key :
  Redis.reachable srv = true ->
  client (Redis.get key) (warm srv)
  = (Ok (match Redis.lookup srv key with
         | Some e => Some (Redis.value e)
         | None => None
         end), warm (settled srv)).
Proof.
  intros Hup. unfold client, warm, Redis.get; simpl.
  rewrite (command_reachable _ srv Hup). reflexivity.
Qed.

Lemma client_get_quiet srv key :
  Redis.faults srv = [] ->
  client (Redis.get key) (warm srv)
  = (Ok (match Redis.lookup srv key with
         | Some e => Some (Redis.value e)
         | None => None
         end), warm srv).
Proof.
  intros Hq. unfold client, warm, Redis.get; simpl.
  rewrite (command_quiet _ srv Hq). reflexivity.
Qed.

(** A write with a positive time to live, on a quiet server. *)
Lemma set_setex_quiet srv key (value : pyval) text (ttl : Z) :
  Redis.faults srv = [] ->
  Json.dumps value = Ok text ->
  0 < ttl ->
  RedisCache.set key value (Some ttl) (warm srv)
  = (Ok true, warm (put srv key text (Some (Redis.clock srv + ttl)))).
Proof.
  intros Hq Hdumps Httl.
  unfold RedisCache.set, warm; simpl.
  unfold try_except, bind at 1, bind at 1, lift. rewrite Hdumps.
  destruct (Z.eqb_spec ttl 0); [lia|].
  unfold bind, client, ret, Redis.setex; simpl.
  rewrite (command_quiet _ srv Hq).
  destruct (Z.leb_spec ttl 0); [lia|]. reflexivity.
Qed.

(** The first request of a window creates the counter. *)
Lemma is_allowed_first srv identifier (max_requests window : Z) :
  Redis.faults srv = [] ->
  Redis.lookup srv ("ratelimit:" +:+ identifier) = None ->
  0 < window ->
  RateLimiter.is_allowed identifier max_requests window (warm srv)
  = (Ok true,
     warm (put srv ("ratelimit:" +:+ identifier) "1"
               (Some (Redis.clock srv + window)))).
Proof.
  intros Hq Hnone Hw. unfold RateLimiter.is_allowed; simpl.
  unfold bind at 1. rewrite (client_get_quiet _ _ Hq), Hnone.
  unfold bind.
  rewrite (set_setex_quiet srv _ (PyInt 1) "1" window Hq eq_refl Hw).
  reflexivity.
Qed.

(** A request below the limit increments the counter. *)
Lemma is_allowed_below srv identifier (max_requests window n : Z)
    text (expiry : option Z) :
  Redis.faults srv = [] ->
  Redis.lookup srv ("ratelimit:" +:+ identifier)
  = Some (Redis.Entry text expiry) ->
  Py.int text = Ok n -> Redis.string2ll text = Some n ->
  n < max_requests -> n + 1 < 2 ^ 63 ->
  RateLimiter.is_allowed identifier max_requests window (warm srv)
  = (Ok true,
     warm (put srv ("ratelimit:" +:+ identifier) (Py.str_int (n + 1))
               expiry)).
Proof.
  intros Hq Hsome Hint Hll Hlt Hmax. unfold RateLimiter.is_allowed; simpl.
  unfold bind at 1. rewrite (client_get_quiet _ _ Hq), Hsome; simpl.
  unfold bind at 1, lift. rewrite Hint.
  destruct (Z.leb_spec max_requests n); [lia|].
  unfold bind, ret, client, Redis.incr; simpl.
  rewrite (command_quiet _ srv Hq), Hsome; simpl. rewrite Hll.
  destruct (Z.ltb_spec (n + 1) (2 ^ 63)); [|lia]. reflexivity.
Qed.

(** A request at or above the limit is denied and writes nothing. *)
Lemma is_allowed_denied srv identifier (max_requests window n : Z)
    text (expiry : option Z) :
  Redis.faults srv = [] ->
  Redis.lookup srv ("ratelimit:" +:+ identifier)
  = Some (Redis.Entry text expiry) ->
  Py.int text = Ok n -> max_requests <= n ->
  RateLimiter.is_allowed identifier max_requests window (warm srv)
  = (Ok false, warm srv).
Proof.
  intros Hq Hsome Hint Hge. unfold RateLimiter.is_allowed; simpl.
  unfold bind at 1. rewrite (client_get_quiet _ _ Hq), Hsome; simpl.
  unfold bind at 1, lift. rewrite Hint.
  destruct (Z.leb_spec max_requests n); [|lia]. reflexivity.
Qed.

Lemma get_remaining_none srv identifier (max_requests : Z) :
  Redis.reachable srv = true ->
  Redis.lookup srv ("ratelimit:" +:+ identifier) = None ->
  RateLimiter.get_remaining identifier max_requests (warm srv)
  = (Ok max_requests, warm (settled srv)).
Proof.
  intros Hup Hnone. unfold RateLimiter.get_remaining; simpl.
  unfold bind. rewrite (client_get_reachable _ _ Hup), Hnone. reflexivity.
Qed.

Lemma get_remaining_some srv identifier (max_requests n : Z)
    (e : Redis.entry) :
  Redis.reachable srv = true ->
  Redis.lookup srv ("ratelimit:" +:+ identifier) = Some e ->
  Py.int (Redis.value e) = Ok n ->
  RateLimiter.get_remaining identifier max_requests (warm srv)
  = (Ok (Z.max 0 (max_requests - n)), warm (settled srv)).
Proof.
  intros Hup Hsome Hint. unfold RateLimiter.get_remaining; simpl.
  unfold bind at 1. rewrite (client_get_reachable _ _ Hup), Hsome.
  unfold bind, lift, ret. rewrite Hint. reflexivity.
Qed.

Lemma quiet_reachable srv : Redis.faults srv = [] -> Redis.reachable srv = true.
Proof. unfold Redis.reachable. intros ->. reflexivity. Qed.

Lemma quiet_settled srv : Redis.faults srv = [] -> settled srv = srv.
Proof. destruct srv as [d c f]; unfold settled; simpl. intros ->. reflexivity. Qed.

End RateLimiterFacts.

(** C8. With the store disabled the rate limiter fails open: [is_allowed]
    returns [True] for every identifier, limit and window, and
    [get_remaining] returns [max_requests]. With the store connected and
    reachable, [get_remaining] returns [max_requests] when the identifier
    has no counter, and [max(0, max_requests - current)] when the counter
    holds [current]. *)
Theorem rate_limiter_fails_open :
  forall (cache : RedisCache.t) (identifier : string)
         (max_requests window : Z),
    (connected cache = false ->
       RateLimiter.is_allowed identifier max_requests window cache
       = (Ok true, cache)
       /\ RateLimiter.get_remaining identifier max_requests cache
          = (Ok max_requests, cache))
    /\ (forall srv,
          cache = warm srv -> Redis.reachable srv = true ->
          (Redis.lookup srv ("ratelimit:" +:+ identifier) = None ->
             fst (RateLimiter.get_remaining identifier max_requests cache)
             = Ok max_requests)
          /\ (forall e current,
                Redis.lookup srv ("ratelimit:" +:+ identifier) = Some e ->
                Py.int (Redis.value e) = Ok current ->
                fst (RateLimiter.get_remaining identifier max_requests cache)
                = Ok (Z.max 0 (max_requests - current)))).
Proof.
  intros cache identifier max_requests window. split.
  - intros Hoff.
    unfold RateLimiter.is_allowed, RateLimiter.get_remaining.
    rewrite Hoff. split; reflexivity.
  - intros srv -> Hup. split.
    + intros Hnone. rewrite (get_remaining_none _ _ _ Hup Hnone). reflexivity.
    + intros e current Hsome Hint.
      rewrite (get_remaining_some _ _ _ _ _ Hup Hsome Hint). reflexivity.
Qed.

(** A disabled cache, and a connected one whose counter holds 2 against
    a limit of 5. *)
Lemma rate_limiter_fails_open_witness :
  let off := RedisCache.Make None false in
  let srv :=
    Redis.Server {[ "ratelimit:u" := Redis.Entry "2" (Some 60) ]} 0 [] in
  RateLimiter.is_allowed "u" 5 60 off = (Ok true, off)
  /\ fst (RateLimiter.get_remaining "u" 5 (warm srv)) = Ok 3.
Proof.
  split.
  - apply (rate_limiter_fails_open (RedisCache.Make None false) "u" 5 60).
    reflexivity.
  - apply (proj2 (proj2 (rate_limiter_fails_open
                           (warm (Redis.Server
                                    {[ "ratelimit:u" := Redis.Entry "2" (Some 60) ]}
                                    0 [])) "u" 5 60)
                        _ eq_refl eq_refl)
                 (Redis.Entry "2" (Some 60)) 2);
      reflexivity.
Defined.

Section RateLimitScenario.

Variables (srv : Redis.server) (identifier : string).
Hypothesis quiet : Redis.faults srv = [].
Hypothesis fresh : Redis.lookup srv ("ratelimit:" +:+ identifier) = None.

Let key := "ratelimit:" +:+ identifier.
Let expiry := Some (Redis.clock srv + 60).

(** The server once the counter holds [text]. *)
Let counting (text : string) : Redis.server :=
  Redis.Server (<[key := Redis.Entry text expiry]> (Redis.db srv))
               (Redis.clock srv) [].

Lemma counting_first : put srv key "1" expiry = counting "1".
Proof.
  unfold put, counting, Redis.with_db. rewrite quiet. reflexivity.
Qed.

Lemma counting_next (text text' : string) :
  put (counting text) key text' expiry = counting text'.
Proof.
  unfold put, counting, Redis.with_db; simpl.
  rewrite insert_insert_eq. reflexivity.
Qed.

Lemma counting_lookup (text : string) :
  Redis.lookup (counting text) key = Some (Redis.Entry text expiry).
Proof.
  unfold Redis.lookup, counting; simpl. rewrite lookup_insert_eq.
  unfold Redis.expired; simpl.
  destruct (Z.leb_spec (Redis.clock srv + 60) (Redis.clock srv)); [lia|].
  reflexivity.
Qed.

Lemma counting_quiet (text : string) : Redis.faults (counting text) = [].
Proof. reflexivity. Qed.

(** The request that finds no counter. *)
Lemma request_1 :
  RateLimiter.is_allowed identifier 3 60 (warm srv)
  = (Ok true, warm (counting "1")).
Proof.
  rewrite (is_allowed_first srv identifier 3 60 quiet fresh); [|lia].
  fold key expiry. rewrite counting_first. reflexivity.
Qed.

(** The request that finds the counter at [n], below the limit. *)
Lemma request_below (n : Z) (text : string) :
  Py.int text = Ok n -> Redis.string2ll text = Some n -> 0 <= n < 3 ->
  RateLimiter.is_allowed identifier 3 60 (warm (counting text))
  = (Ok true, warm (counting (Py.str_int (n + 1)))).
Proof.
  intros Hint Hll Hn.
  rewrite (is_allowed_below (counting text) identifier 3 60 n text expiry
             (counting_quiet text) (counting_lookup text) Hint Hll);
    [|lia|lia].
  fold key. rewrite counting_next. reflexivity.
Qed.

(** The request that finds the counter at the limit. *)
Lemma request_denied :
  RateLimiter.is_allowed identifier 3 60 (warm (counting "3"))
  = (Ok false, warm (counting "3")).
Proof.
  apply (is_allowed_denied (counting "3") identifier 3 60 3 "3" expiry
           (counting_quiet "3") (counting_lookup "3") eq_refl).
  lia.
Qed.

Lemma remaining_fresh :
  RateLimiter.get_remaining identifier 3 (warm srv) = (Ok 3, warm srv).
Proof.
  rewrite (get_remaining_none srv identifier 3 (quiet_reachable _ quiet) fresh).
  rewrite (quiet_settled _ quiet). reflexivity.
Qed.

Lemma remaining_counting (n : Z) (text : string) :
  Py.int text = Ok n ->
  RateLimiter.get_remaining identifier 3 (warm (counting text))
  = (Ok (Z.max 0 (3 - n)), warm (counting text)).
Proof.
  intros Hint.
  rewrite (get_remaining_some (counting text) identifier 3 n
             (Redis.Entry text expiry) eq_refl (counting_lookup text) Hint).
  reflexivity.
Qed.

Lemma scenario_remaining_before :
  remaining_then_allow 4 identifier 3 60 (warm srv)
  = [(Ok 3, Ok true); (Ok 2, Ok true); (Ok 1, Ok true); (Ok 0, Ok false)].
Proof.
  cbn [remaining_then_allow].
  rewrite remaining_fresh, request_1.
  rewrite (remaining_counting 1 "1" eq_refl).
  rewrite (request_below 1 "1" eq_refl eq_refl) by lia.
  change (Py.str_int (1 + 1)) with "2".
  rewrite (remaining_counting 2 "2" eq_refl).
  rewrite (request_below 2 "2" eq_refl eq_refl) by lia.
  change (Py.str_int (2 + 1)) with "3".
  rewrite (remaining_counting 3 "3" eq_refl), request_denied.
  reflexivity.
Qed.

Lemma scenario_remaining_after :
  allow_then_remaining 4 identifier 3 60 (warm srv)
  = [(Ok true, Ok 2); (Ok true, Ok 1); (Ok true, Ok 0); (Ok false, Ok 0)].
Proof.
  cbn [allow_then_remaining].
  rewrite request_1, (remaining_counting 1 "1" eq_refl).
  rewrite (request_below 1 "1" eq_refl eq_refl) by lia.
  change (Py.str_int (1 + 1)) with "2".
  rewrite (remaining_counting 2 "2" eq_refl).
  rewrite (request_below 2 "2" eq_refl eq_refl) by lia.
  change (Py.str_int (2 + 1)) with "3".
  rewrite (remaining_counting 3 "3" eq_refl), request_denied.
  rewrite (remaining_counting 3 "3" eq_refl).
  reflexivity.
Qed.

End RateLimitScenario.

(** C1, as the code has it. With [max_requests = 3] and [window = 60],
    on a connected store that answers and holds no counter for the
    identifier, the first three calls of [is_allowed] return [True] and
    the fourth returns [False]; [get_remaining] reports 3, 2, 1, 0 when
    it is read before each of the four calls, and 2, 1, 0, 0 when it is
    read after each of them. *)
Theorem rate_limit_three_per_window :
  forall (srv : Redis.server) (identifier : string),
    Redis.faults srv = [] ->
    Redis.lookup srv ("ratelimit:" +:+ identifier) = None ->
    remaining_then_allow 4 identifier 3 60 (warm srv)
    = [(Ok 3, Ok true); (Ok 2, Ok true); (Ok 1, Ok true); (Ok 0, Ok false)]
    /\ allow_then_remaining 4 identifier 3 60 (warm srv)
       = [(Ok true, Ok 2); (Ok true, Ok 1); (Ok true, Ok 0);
          (Ok false, Ok 0)].
Proof.
  intros srv identifier quiet fresh. split.
  - apply scenario_remaining_before; assumption.
  - apply scenario_remaining_after; assumption.
Qed.

(** An empty store that answers every round trip. *)
Lemma rate_limit_three_per_window_witness :
  let srv := Redis.Server ∅ 0 [] in
  Redis.lookup srv ("ratelimit:" +:+ "client-1") = None
  /\ allow_then_remaining 4 "client-1" 3 60 (warm srv)
     = [(Ok true, Ok 2); (Ok true, Ok 1); (Ok true, Ok 0); (Ok false, Ok 0)].
Proof.
  split; [reflexivity|].
  apply (rate_limit_three_per_window (Redis.Server ∅ 0 []) "client-1");
    reflexivity.
Defined.

(** C1 as stated fails: read after each of the four calls,
    [get_remaining] reports 2, 1, 0, 0 and not 3, 2, 1, 0; after the
    first allowed request one of the three is already used. *)
Lemma rate_limit_remaining_after_counterexample :
  let cache := RedisCache.__init__ (Redis.Server ∅ 0 []) in
  List.map snd (allow_then_remaining 4 "client-1" 3 60 cache)
  = [Ok 2; Ok 1; Ok 0; Ok 0]
  /\ List.map snd (allow_then_remaining 4 "client-1" 3 60 cache)
     <> [Ok 3; Ok 2; Ok 1; Ok 0].
Proof.
  split; [vm_compute; reflexivity | vm_compute; discriminate].
Qed.


(** ** Search entries and their invalidation *)


(** C7, at a failing input. For user ["u"] and a query of 300 characters
    the joined key exceeds 256 characters, so [cache_search] writes the
    entry under the hashed key [search:<md5>], which carries no user id.
    [invalidate_searches "u"] clears the pattern [search:u:*], which
    that key does not match: nothing is removed, and
    [get_cached_search] still returns the cached results. *)
Theorem hashed_search_key_survives_invalidation :
  let cache := RedisCache.__init__ (Redis.Server ∅ 0 []) in
  let results := PyList [PyInt 1; PyInt 2] in
  let '(stored, cache) :=
    MemoryCache.cache_search long_query results "u" cache in
  let '(removed, cache) := MemoryCache.invalidate_searches "u" cache in
  let '(found, _) := MemoryCache.get_cached_search long_query "u" cache in
  _generate_key (B := string) "search" ["u"; long_query] []
  = "search:94d64b6feda7bbf73dfd3d112d4a74d1"
  /\ Redis.glob "search:u:*" "search:94d64b6feda7bbf73dfd3d112d4a74d1"
     = false
  /\ stored = Ok true
  /\ removed = Ok 0
  /\ found = Ok results.
Proof.
  vm_compute. repeat split; reflexivity.
Qed.

(** For a short query the key has the form [search:<user_id>:<query>]
    and the invalidation removes the entry. *)
Lemma short_search_key_is_invalidated :
  let cache := RedisCache.__init__ (Redis.Server ∅ 0 []) in
  let '(stored, cache) :=
    MemoryCache.cache_search "wolves" (PyList [PyInt 1]) "u" cache in
  let '(removed, cache) := MemoryCache.invalidate_searches "u" cache in
  let '(found, _) := MemoryCache.get_cached_search "wolves" "u" cache in
  stored = Ok true /\ removed = Ok 1 /\ found = Ok PyNone.
Proof.
  vm_compute. repeat split; reflexivity.
Qed.

(** ** The time-sync tracker *)


(** C5, at a failing input. A service registered at [t0] and a client
    timestamp 1001 milliseconds later: [total_seconds()] is the double
    nearest to 1.001, its product with 1000 is 1000.9999999999999, and
    [int] truncates it to 1000. The response reports [diff_ms = 1000]
    and [needs_sync = False] for two timestamps that are 1001
    milliseconds apart. *)
Theorem compare_timestamps_1001_ms :
  forall (t0 : datetime) (threshold : Z),
    let '(self, _) :=
      TimeSyncManager.register_service "svc"
        (TimeSyncManager.__init__ threshold) (ticking t0 0) in
    TimeSyncManager.elapsed_ms (t0 + 1001000) t0 = 1000.9999999999999%float
    /\ TimeSyncManager.compare_timestamps "svc" (t0 + 1001000) self
       = Ok (CompareResponse.Make "svc" (t0 + 1001000) t0
               true 1000 1%float false).
Proof.
  intros t0 threshold. cbn [TimeSyncManager.register_service Time.now].
  unfold TimeSyncManager.compare_timestamps, TimeSyncManager.elapsed_ms.
  cbn [TimeSyncManager.sync_records TimeSyncManager.with_records
       TimeSyncManager.__init__ ticking readings reads].
  rewrite lookup_insert_eq.
  cbn [SyncRecord.last_memory_update].
  replace (t0 + Z.of_nat 0 * 0) with t0 by lia.
  replace (t0 + 1001000 - t0) with 1001000 by lia.
  split; vm_compute; reflexivity.
Qed.

(** The two comparisons of the specification come out as it says:
    5 seconds later gives [is_client_newer], [diff_ms = 5000] and
    [needs_sync]; 200 milliseconds later gives no [needs_sync]. *)
Lemma compare_timestamps_examples :
  forall (t0 : datetime) (threshold : Z),
    let '(self, _) :=
      TimeSyncManager.register_service "svc"
        (TimeSyncManager.__init__ threshold) (ticking t0 0) in
    TimeSyncManager.compare_timestamps "svc" (t0 + 5000000) self
    = Ok (CompareResponse.Make "svc" (t0 + 5000000) t0
            true 5000 5%float true)
    /\ TimeSyncManager.compare_timestamps "svc" (t0 + 200000) self
       = Ok (CompareResponse.Make "svc" (t0 + 200000) t0
               true 200 0.2%float false).
Proof.
  intros t0 threshold. cbn [TimeSyncManager.register_service Time.now].
  unfold TimeSyncManager.compare_timestamps.
  cbn [TimeSyncManager.sync_records TimeSyncManager.with_records
       TimeSyncManager.__init__ ticking readings reads].
  rewrite lookup_insert_eq.
  cbn [SyncRecord.last_memory_update].
  replace (t0 + Z.of_nat 0 * 0) with t0 by lia.
  replace (t0 + 5000000 - t0) with 5000000 by lia.
  replace (t0 + 200000 - t0) with 200000 by lia.
  split; vm_compute; reflexivity.
Qed.

(** C4, at a failing input. A tracker with [stale_threshold_ms = 2007]
    and a service whose last sync is exactly 2007 milliseconds old: the
    elapsed time is not greater than the threshold, but its conversion
    [total_seconds() * 1000] is the double 2007.0000000000002, so
    [check_stale] returns [True] and marks the record stale. *)
Theorem check_stale_at_threshold_2007 :
  forall (t0 : datetime),
    let '(self, clk) :=
      TimeSyncManager.register_service "svc"
        (TimeSyncManager.__init__ 2007) (ticking t0 2007000) in
    let '(is_stale, self', _) :=
      TimeSyncManager.check_stale "svc" self clk in
    fst (Time.now clk) - t0 = 2007 * 1000
    /\ TimeSyncManager.elapsed_ms (fst (Time.now clk)) t0
       = 2007.0000000000002%float
    /\ is_stale = true
    /\ TimeSyncManager.sync_records self' !! "svc"
       = Some (SyncRecord.Make "svc" t0 t0 STALE).
Proof.
  intros t0. cbn [TimeSyncManager.register_service Time.now].
  unfold TimeSyncManager.check_stale, TimeSyncManager.elapsed_ms.
  cbn [TimeSyncManager.sync_records TimeSyncManager.with_records
       TimeSyncManager.__init__ ticking readings reads Time.now fst
       TimeSyncManager.stale_threshold_ms].
  rewrite lookup_insert_eq.
  cbn [SyncRecord.last_sync SyncRecord.status SyncRecord.service
       SyncRecord.last_memory_update].
  replace (t0 + Z.of_nat 0 * 2007000) with t0 by lia.
  replace (t0 + Z.of_nat 1 * 2007000 - t0) with 2007000 by lia.
  change (float_gt_int
            (PrimFloat.mul (total_seconds 2007000) 1000%float) 2007)
    with true.
  cbn [andb ServiceStatus_eqb TimeSyncManager.sync_records
       TimeSyncManager.with_records].
  rewrite lookup_insert_eq.
  repeat split; reflexivity || lia.
Qed.

Section TrackerFacts.

Implicit Types (self : TimeSyncManager.t) (clk : Clock) (service : string).



Lemma check_stale_unknown service self clk :
  TimeSyncManager.sync_records self !! service = None ->
  TimeSyncManager.check_stale service self clk = (true, self, clk).
Proof.
  unfold TimeSyncManager.check_stale. intros ->. reflexivity.
Qed.

Lemma check_stale_known service self clk (record : SyncRecord.t) :
  TimeSyncManager.sync_records self !! service = Some record ->
  TimeSyncManager.check_stale service self clk
  = (stale_at self record (fst (Time.now clk)),
     if stale_at self record (fst (Time.now clk))
        && ServiceStatus_eqb (SyncRecord.status record) ACTIVE
     then TimeSyncManager.with_records self
            (<[service := with_status record STALE]>
               (TimeSyncManager.sync_records self))
     else self,
     snd (Time.now clk)).
Proof.
  unfold TimeSyncManager.check_stale, stale_at. intros ->.
  cbn [Time.now fst snd].
  destruct (float_gt_int _ _ && _); reflexivity.
Qed.

(** The transition happens once: a call that finds the service stale
    leaves a tracker on which a later call, while the service is still
    stale, changes nothing and returns [True] again. *)
Lemma check_stale_again service self clk (record : SyncRecord.t) :
  TimeSyncManager.sync_records self !! service = Some record ->
  stale_at self record (fst (Time.now clk)) = true ->
  let '(_, self1, clk1) := TimeSyncManager.check_stale service self clk in
  stale_at self record (fst (Time.now clk1)) = true ->
  TimeSyncManager.check_stale service self1 clk1
  = (true, self1, snd (Time.now clk1)).
Proof.
  intros Hrec Hstale. rewrite (check_stale_known _ _ _ _ Hrec), Hstale.
  cbn [andb]. intros Hstill.
  destruct (ServiceStatus_eqb (SyncRecord.status record) ACTIVE) eqn:Hact.
  - erewrite check_stale_known
      by (cbn [TimeSyncManager.sync_records TimeSyncManager.with_records];
          apply lookup_insert_eq).
    unfold stale_at in *. cbn [with_status SyncRecord.last_sync
      SyncRecord.status TimeSyncManager.stale_threshold_ms
      TimeSyncManager.with_records] in *.
    rewrite Hstill. reflexivity.
  - rewrite (check_stale_known _ _ _ _ Hrec), Hstill, Hact. reflexivity.
Qed.

Lemma monotone_le clk (i j : nat) :
  monotone clk -> (i <= j)%nat -> readings clk i <= readings clk j.
Proof.
  intros Hmono Hij. induction Hij as [|j Hij IH]; [lia|].
  specialize (Hmono j). lia.
Qed.


Lemma step_readings (c : Call) (st : TimeSyncManager.t * Clock) :
  readings (snd (step c st)) = readings (snd st)
  /\ (reads (snd st) <= reads (snd (step c st)))%nat.
Proof.
  destruct st as [self clk], c as [service | service flag | service];
    unfold step, TimeSyncManager.register_service,
           TimeSyncManager.update_sync, TimeSyncManager.check_stale;
    cbn [Time.now]; simpl.
  - split; [reflexivity | lia].
  - destruct (_ !! service); simpl; split; reflexivity || lia.
  - destruct (_ !! service); simpl; [|split; reflexivity || lia].
    destruct (float_gt_int _ _ && _); simpl; split; reflexivity || lia.
Qed.

Lemma step_ordered (c : Call) (st : TimeSyncManager.t * Clock) :
  monotone (snd st) -> ordered st -> ordered (step c st).
Proof.
  destruct st as [self clk]. intros Hmono Hord. simpl in Hmono.
  pose proof (Hmono (reads clk)) as H1.
  pose proof (Hmono (S (reads clk))) as H2.
  destruct c as [service | service flag | service]; unfold step.
  - unfold TimeSyncManager.register_service; cbn [Time.now].
    intros s r; simpl. intros Hs.
    destruct (decide (s = service)) as [->|Hne].
    + rewrite lookup_insert_eq in Hs. injection Hs as <-. simpl. lia.
    + rewrite lookup_insert_ne in Hs by congruence.
      destruct (Hord s r Hs) as [Ha Hb]; simpl in Hb. lia.
  - unfold TimeSyncManager.update_sync,
           TimeSyncManager.register_service; cbn [Time.now].
    destruct (TimeSyncManager.sync_records self !! service) as [old|] eqn:Hold;
      intros s r; simpl; intros Hs.
    + destruct (decide (s = service)) as [->|Hne].
      * rewrite lookup_insert_eq in Hs. injection Hs as <-. simpl.
        destruct (Hord service old Hold) as [Ha Hb]; simpl in Hb.
        destruct flag; lia.
      * rewrite lookup_insert_ne in Hs by congruence.
        destruct (Hord s r Hs) as [Ha Hb]; simpl in Hb. lia.
    + destruct (decide (s = service)) as [->|Hne].
      * rewrite lookup_insert_eq in Hs. injection Hs as <-. simpl. lia.
      * rewrite lookup_insert_ne in Hs by congruence.
        destruct (Hord s r Hs) as [Ha Hb]; simpl in Hb. lia.
  - destruct (TimeSyncManager.sync_records self !! service) as [old|] eqn:Hold.
    + rewrite (check_stale_known _ _ _ _ Hold).
      destruct (stale_at self old (fst (Time.now clk))
                && ServiceStatus_eqb (SyncRecord.status old) ACTIVE);
        intros s r; simpl; intros Hs.
      * destruct (decide (s = service)) as [->|Hne].
        -- rewrite lookup_insert_eq in Hs. injection Hs as <-. simpl.
           destruct (Hord service old Hold) as [Ha Hb]; simpl in Hb. lia.
        -- rewrite lookup_insert_ne in Hs by congruence.
           destruct (Hord s r Hs) as [Ha Hb]; simpl in Hb. lia.
      * destruct (Hord s r Hs) as [Ha Hb]; simpl in Hb. lia.
    + rewrite (check_stale_unknown _ _ _ Hold). exact Hord.
Qed.

Lemma run_ordered (calls : list Call) (st : TimeSyncManager.t * Clock) :
  monotone (snd st) -> ordered st -> ordered (run calls st).
Proof.
  revert st. induction calls as [|c calls IH]; intros st Hmono Hord.
  - exact Hord.
  - unfold run; cbn [fold_left]. apply IH.
    + intros k. destruct (step_readings c st) as [-> _]. apply Hmono.
    + apply step_ordered; assumption.
Qed.

(** A step rewrites the [last_memory_update] of a record it finds only
    when it is a registration of that service or a sync update of it
    that signals a memory update. *)
Lemma step_last_memory_update (c : Call) (st : TimeSyncManager.t * Clock)
    service (before after : SyncRecord.t) :
  TimeSyncManager.sync_records (fst st) !! service = Some before ->
  TimeSyncManager.sync_records (fst (step c st)) !! service = Some after ->
  SyncRecord.last_memory_update after
  <> SyncRecord.last_memory_update before ->
  c = Register service \/ c = UpdateSync service true.
Proof.
  destruct st as [self clk]. cbn [fst]. intros Hb Ha Hne.
  destruct c as [s | s flag | s]; unfold step in Ha.
  - destruct (decide (s = service)) as [->|Hs]; [left; reflexivity|].
    unfold TimeSyncManager.register_service in Ha; simpl in Ha.
    rewrite lookup_insert_ne in Ha by congruence. congruence.
  - unfold TimeSyncManager.update_sync,
           TimeSyncManager.register_service in Ha; cbn [Time.now] in Ha.
    destruct (decide (s = service)) as [->|Hs].
    + rewrite Hb in Ha. simpl in Ha. rewrite lookup_insert_eq in Ha.
      injection Ha as <-. destruct flag; [right; reflexivity|].
      simpl in Hne. congruence.
    + destruct (TimeSyncManager.sync_records self !! s); simpl in Ha;
        rewrite lookup_insert_ne in Ha by congruence; congruence.
  - destruct (TimeSyncManager.sync_records self !! s) as [old|] eqn:Hold.
    + rewrite (check_stale_known _ _ _ _ Hold) in Ha.
      destruct (stale_at self old (fst (Time.now clk))
                && ServiceStatus_eqb (SyncRecord.status old) ACTIVE);
        simpl in Ha; [|congruence].
      destruct (decide (s = service)) as [->|Hs].
      * rewrite lookup_insert_eq in Ha. injection Ha as <-.
        rewrite Hb in Hold. injection Hold as <-. simpl in Hne. congruence.
      * rewrite lookup_insert_ne in Ha by congruence. congruence.
    + rewrite (check_stale_unknown _ _ _ Hold) in Ha. simpl in Ha. congruence.
Qed.

(** A step leaves a record where there was none only when it is a
    registration of that service or a sync update of it, with or
    without the signal; both timestamps of the new record are the
    reading of the registration. *)
Lemma step_first_record (c : Call) (st : TimeSyncManager.t * Clock)
    service (after : SyncRecord.t) :
  TimeSyncManager.sync_records (fst st) !! service = None ->
  TimeSyncManager.sync_records (fst (step c st)) !! service = Some after ->
  (c = Register service \/ exists flag, c = UpdateSync service flag)
  /\ SyncRecord.last_memory_update after = SyncRecord.last_sync after.
Proof.
  destruct st as [self clk]. cbn [fst]. intros Hb Ha.
  destruct c as [s | s flag | s]; unfold step in Ha.
  - unfold TimeSyncManager.register_service in Ha; simpl in Ha.
    destruct (decide (s = service)) as [->|Hs].
    + rewrite lookup_insert_eq in Ha. injection Ha as <-.
      split; [left; reflexivity | reflexivity].
    + rewrite lookup_insert_ne in Ha by congruence. congruence.
  - unfold TimeSyncManager.update_sync,
           TimeSyncManager.register_service in Ha; cbn [Time.now] in Ha.
    destruct (decide (s = service)) as [->|Hs].
    + rewrite Hb in Ha. simpl in Ha. rewrite lookup_insert_eq in Ha.
      injection Ha as <-.
      split; [right; exists flag; reflexivity | reflexivity].
    + destruct (TimeSyncManager.sync_records self !! s); simpl in Ha;
        rewrite lookup_insert_ne in Ha by congruence; congruence.
  - destruct (TimeSyncManager.sync_records self !! s) as [old|] eqn:Hold.
    + rewrite (check_stale_known _ _ _ _ Hold) in Ha.
      destruct (stale_at self old (fst (Time.now clk))
                && ServiceStatus_eqb (SyncRecord.status old) ACTIVE);
        simpl in Ha; [|congruence].
      destruct (decide (s = service)) as [->|Hs]; [congruence|].
      rewrite lookup_insert_ne in Ha by congruence. congruence.
    + rewrite (check_stale_unknown _ _ _ Hold) in Ha. simpl in Ha. congruence.
Qed.

End TrackerFacts.

(** C9, as the code has it. Under a monotone clock, in every state
    reached from an empty tracker by a sequence of [register_service],
    [update_sync] and [check_stale] calls, each record has
    [last_memory_update <= last_sync]. The signal of a memory update is
    not the only thing that writes [last_memory_update]: a call changes
    the [last_memory_update] of a record it finds only when it is an
    [update_sync] of that service that signals a memory update or a
    [register_service] of that service; and a call leaves a record
    where there was none only when it is a [register_service] or an
    [update_sync] of that service, whatever the flag, and that record
    has [last_memory_update = last_sync]. *)
Theorem last_memory_update_le_last_sync :
  forall (calls : list Call) (threshold : Z) (clk : Clock),
    monotone clk ->
    (forall service record,
        TimeSyncManager.sync_records
          (fst (run calls (TimeSyncManager.__init__ threshold, clk)))
          !! service = Some record ->
        SyncRecord.last_memory_update record <= SyncRecord.last_sync record)
    /\ (forall c st service before after,
          TimeSyncManager.sync_records (fst st) !! service = Some before ->
          TimeSyncManager.sync_records (fst (step c st)) !! service
          = Some after ->
          SyncRecord.last_memory_update after
          <> SyncRecord.last_memory_update before ->
          c = Register service \/ c = UpdateSync service true)
    /\ (forall c st service after,
          TimeSyncManager.sync_records (fst st) !! service = None ->
          TimeSyncManager.sync_records (fst (step c st)) !! service
          = Some after ->
          (c = Register service \/ exists flag, c = UpdateSync service flag)
          /\ SyncRecord.last_memory_update after
             = SyncRecord.last_sync after).
Proof.
  intros calls threshold clk Hmono. split; [|split].
  - intros service record Hrec.
    apply (run_ordered calls (TimeSyncManager.__init__ threshold, clk) Hmono)
      in Hrec; [tauto|].
    intros s r Hs. simpl in Hs. rewrite lookup_empty in Hs. discriminate.
  - intros c st service before after. apply step_last_memory_update.
  - intros c st service after. apply step_first_record.
Qed.

(** A clock that advances by 30 seconds between readings, and a run
    that registers, updates with and without a memory update, and
    checks. *)
Lemma last_memory_update_le_last_sync_witness :
  let calls :=
    [Register "a"; UpdateSync "a" false; UpdateSync "b" true;
     CheckStale "a"; UpdateSync "a" true; CheckStale "zz"] in
  monotone (ticking 0 30000000)
  /\ forall service record,
       TimeSyncManager.sync_records
         (fst (run calls (TimeSyncManager.__init__ 60000,
                          ticking 0 30000000)))
         !! service = Some record ->
       SyncRecord.last_memory_update record <= SyncRecord.last_sync record.
Proof.
  assert (Hmono : monotone (ticking 0 30000000)).
  { intros k. unfold ticking; simpl. lia. }
  split; [exact Hmono|].
  exact (proj1 (last_memory_update_le_last_sync
                  [Register "a"; UpdateSync "a" false; UpdateSync "b" true;
                   CheckStale "a"; UpdateSync "a" true; CheckStale "zz"]
                  60000 (ticking 0 30000000) Hmono)).
Defined.

(** C9 as stated fails: [last_memory_update] is written without a
    memory update being signalled. With a clock that reads 10, 15, 20,
    ... microseconds, a service registered at 10 and registered again
    has its [last_memory_update] moved from 10 to 15; and an
    [update_sync] with the flag false of a service that is unknown
    leaves a record whose [last_memory_update] is 20. So it is not true
    that a call that changes a [last_memory_update] is an [update_sync]
    signalling a memory update. *)
Lemma last_memory_update_without_signal_counterexample :
  let st := run [Register "svc"] (TimeSyncManager.__init__ 60000, ticking 10 5) in
  TimeSyncManager.sync_records (fst st) !! "svc"
  = Some (SyncRecord.Make "svc" 10 10 ACTIVE)
  /\ TimeSyncManager.sync_records (fst (step (Register "svc") st)) !! "svc"
     = Some (SyncRecord.Make "svc" 15 15 ACTIVE)
  /\ TimeSyncManager.sync_records (fst (step (UpdateSync "new" false) st))
       !! "new"
     = Some (SyncRecord.Make "new" 20 20 ACTIVE)
  /\ ~ (forall c st service before after,
          TimeSyncManager.sync_records (fst st) !! service = Some before ->
          TimeSyncManager.sync_records (fst (step c st)) !! service
          = Some after ->
          SyncRecord.last_memory_update after
          <> SyncRecord.last_memory_update before ->
          exists s, c = UpdateSync s true).
Proof.
  split; [reflexivity|]. split; [reflexivity|]. split; [reflexivity|].
  intros H.
  destruct (H (Register "svc")
              (run [Register "svc"]
                   (TimeSyncManager.__init__ 60000, ticking 10 5))
              "svc"
              (SyncRecord.Make "svc" 10 10 ACTIVE)
              (SyncRecord.Make "svc" 15 15 ACTIVE)
              eq_refl eq_refl ltac:(discriminate)) as [s Hs].
  discriminate Hs.
Qed.

(** What [update_sync] does. It returns its own clock reading
    [now]. For a service that is registered it stores [last_sync = now]
    and [status = active], stores [last_memory_update = now] when the
    flag is true and leaves it as it was when the flag is false; so the
    returned timestamp is the stored [last_sync]. A service that is
    unknown is registered through [register_service], which reads the
    clock again: both [last_sync] and [last_memory_update] are that
    second reading, whatever the flag, the status is active, and under
    a monotone clock the returned timestamp is not later than the stored
    [last_sync]. No other service is touched. *)
Lemma update_sync_known_and_unknown :
  forall (service : string) (is_memory_update : bool)
         (self : TimeSyncManager.t) (clk : Clock),
    let out := TimeSyncManager.update_sync service is_memory_update self clk in
    let returned := fst (fst out) in
    let records := TimeSyncManager.sync_records (snd (fst out)) in
    let now := readings clk (reads clk) in
    let again := readings clk (S (reads clk)) in
    returned = now
    /\ (forall record,
          TimeSyncManager.sync_records self !! service = Some record ->
          records !! service
          = Some (SyncRecord.Make
                    (SyncRecord.service record) returned
                    (if is_memory_update then returned
                     else SyncRecord.last_memory_update record)
                    ACTIVE))
    /\ (TimeSyncManager.sync_records self !! service = None ->
          records !! service
          = Some (SyncRecord.Make service again again ACTIVE)
          /\ (monotone clk -> returned <= again))
    /\ (forall other, other <> service ->
          records !! other = TimeSyncManager.sync_records self !! other).
Proof.
  intros service flag self clk.
  unfold TimeSyncManager.update_sync, TimeSyncManager.register_service.
  cbn [Time.now].
  destruct (TimeSyncManager.sync_records self !! service) as [old|] eqn:Hold;
    cbn [fst snd TimeSyncManager.sync_records TimeSyncManager.with_records
         readings reads].
  - split; [reflexivity|]. split; [|split].
    + intros record [= <-]. apply lookup_insert_eq.
    + discriminate.
    + intros other Hne. apply lookup_insert_ne. congruence.
  - split; [reflexivity|]. split; [|split].
    + discriminate.
    + intros _. split; [apply lookup_insert_eq|].
      intros Hmono. apply (Hmono (reads clk)).
    + intros other Hne. apply lookup_insert_ne. congruence.
Qed.

(** A registered service that reports a plain sync, and an unknown one. *)
Example update_sync_known_and_unknown_at_5_seconds :
  let clk := ticking 5000000 1000000 in
  let self :=
    TimeSyncManager.Make
      {[ "svc" := SyncRecord.Make "svc" 2000000 1000000 STALE ]} 60000 in
  TimeSyncManager.sync_records
    (snd (fst (TimeSyncManager.update_sync "svc" false self clk))) !! "svc"
  = Some (SyncRecord.Make "svc" 5000000 1000000 ACTIVE)
  /\ TimeSyncManager.sync_records
       (snd (fst (TimeSyncManager.update_sync "new" false self clk))) !! "new"
     = Some (SyncRecord.Make "new" 6000000 6000000 ACTIVE).
Proof.
  split.
  - exact (proj1 (proj2 (update_sync_known_and_unknown "svc" false
             (TimeSyncManager.Make
                {[ "svc" := SyncRecord.Make "svc" 2000000 1000000 STALE ]}
                60000)
             (ticking 5000000 1000000)))
             (SyncRecord.Make "svc" 2000000 1000000 STALE) eq_refl).
  - exact (proj1 (proj1 (proj2 (proj2 (update_sync_known_and_unknown
             "new" false
             (TimeSyncManager.Make
                {[ "svc" := SyncRecord.Make "svc" 2000000 1000000 STALE ]}
                60000)
             (ticking 5000000 1000000)))) eq_refl)).
Defined.

(** C6, at a failing input. A tracker without records and a clock that
    reads 10 and then 11 microseconds: [update_sync] of a service that
    is not yet registered returns 10, the reading it took itself and
    writes to the log as the time of the sync, while the record it
    leaves has [last_sync = 11], the reading [register_service] took
    after it. The returned timestamp is not the stored [last_sync]. *)
Theorem update_sync_unknown_returns_earlier_reading :
  let out :=
    TimeSyncManager.update_sync "svc" false
      (TimeSyncManager.__init__ 60000) (ticking 10 1) in
  fst (fst out) = 10
  /\ TimeSyncManager.sync_records (snd (fst out)) !! "svc"
     = Some (SyncRecord.Make "svc" 11 11 ACTIVE)
  /\ ~ (forall record,
          TimeSyncManager.sync_records (snd (fst out)) !! "svc"
          = Some record ->
          SyncRecord.last_sync record = fst (fst out)).
Proof.
  split; [reflexivity|]. split; [reflexivity|].
  intros H. specialize (H (SyncRecord.Make "svc" 11 11 ACTIVE) eq_refl).
  discriminate H.
Qed.

(** ** Cache keys *)

Section KeyFacts.

(** [str_le] is a total order on [str]. *)
Lemma compare_not_gt_trans (a b c : string) :
  String.compare a b <> Gt -> String.compare b c <> Gt ->
  String.compare a c <> Gt.
Proof.
  revert b c. induction a as [|x a IH]; intros [|y b] [|z c]; simpl;
    try congruence.
  unfold Ascii.compare.
  destruct (N.compare_spec (N_of_ascii x) (N_of_ascii y)),
           (N.compare_spec (N_of_ascii y) (N_of_ascii z)),
           (N.compare_spec (N_of_ascii x) (N_of_ascii z));
    try congruence; try lia.
  apply IH.
Qed.

Lemma str_le_trans (a b c : string) :
  Py.str_le a b = true -> Py.str_le b c = true -> Py.str_le a c = true.
Proof.
  unfold Py.str_le, String.leb. intros Hab Hbc.
  pose proof (compare_not_gt_trans a b c) as H.
  destruct (String.compare a b), (String.compare b c),
           (String.compare a c); try reflexivity; try discriminate;
    exfalso; apply H; congruence.
Qed.

Lemma str_le_false (a b : string) :
  Py.str_le a b = false -> Py.str_le b a = true.
Proof.
  intros H. destruct (String.leb_total a b) as [H'|H']; [|exact H'].
  unfold Py.str_le in H. congruence.
Qed.

Lemma str_le_both (a b : string) :
  Py.str_le a b = true -> Py.str_le b a = true -> a = b.
Proof. apply String.leb_antisym. Qed.

Context {B : Type}.
Implicit Types (x y : string * B) (l : list (string * B)).

(** Two items with different keys can be inserted in either order. *)
Lemma insert_item_comm x y l :
  fst x <> fst y ->
  insert_item x (insert_item y l) = insert_item y (insert_item x l).
Proof.
  intros Hne. induction l as [|z l IH]; simpl.
  - destruct (Py.str_le (fst x) (fst y)) eqn:Hxy,
             (Py.str_le (fst y) (fst x)) eqn:Hyx; try reflexivity.
    + exfalso. apply Hne. apply str_le_both; assumption.
    + apply str_le_false in Hxy. congruence.
  - destruct (Py.str_le (fst y) (fst z)) eqn:Hyz,
             (Py.str_le (fst x) (fst z)) eqn:Hxz; simpl;
      rewrite ?Hyz, ?Hxz.
    + destruct (Py.str_le (fst x) (fst y)) eqn:Hxy,
               (Py.str_le (fst y) (fst x)) eqn:Hyx; simpl;
        rewrite ?Hyz, ?Hxz; try reflexivity.
      * exfalso. apply Hne. apply str_le_both; assumption.
      * apply str_le_false in Hxy. congruence.
    + destruct (Py.str_le (fst x) (fst y)) eqn:Hxy; [|reflexivity].
      rewrite (str_le_trans _ _ _ Hxy Hyz) in Hxz. discriminate.
    + destruct (Py.str_le (fst y) (fst x)) eqn:Hyx; [|reflexivity].
      rewrite (str_le_trans _ _ _ Hyx Hxz) in Hyz. discriminate.
    + rewrite IH. reflexivity.
Qed.

(** [sorted] does not depend on the order in which a [dict] lists its
    items. *)
Lemma sorted_permutation l l' :
  NoDup (List.map fst l) -> l ≡ₚ l' -> sorted l = sorted l'.
Proof.
  intros Hnd Hperm. induction Hperm as [|x l l' Hperm IH|x y l|l l' l'' H1 IH1 H2 IH2].
  - reflexivity.
  - simpl in *. inversion Hnd; subst. rewrite IH by assumption. reflexivity.
  - simpl in *. apply insert_item_comm.
    inversion Hnd as [|? ? Hin _]; subst. intros Heq. apply Hin.
    rewrite Heq. left.
  - rewrite IH1 by assumption. apply IH2.
    rewrite <- H1. exact Hnd.
Qed.

Lemma length_app_string (a b : string) :
  String.length (a +:+ b) = (String.length a + String.length b)%nat.
Proof. induction a as [|c a IH]; simpl; [reflexivity | rewrite IH; reflexivity]. Qed.

Lemma length_string_of_list (l : list ascii) :
  String.length (string_of_list_ascii l) = length l.
Proof. induction l as [|c l IH]; simpl; [reflexivity | rewrite IH; reflexivity]. Qed.

(** An MD5 digest in hexadecimal has 32 characters. *)
Lemma hexdigest_length (msg : list Z) :
  String.length (Md5.hexdigest msg) = 32%nat.
Proof.
  unfold Md5.hexdigest, Md5.digest.
  destruct (fold_left Md5.process_block _ Md5.init) as [[[a b] c] d].
  rewrite length_string_of_list. reflexivity.
Qed.

Lemma hashed_key_length (prefix : string) (msg : list Z) :
  Py.len (prefix +:+ ":" +:+ Md5.hexdigest msg) = Py.len prefix + 33.
Proof.
  unfold Py.len. rewrite !length_app_string, hexdigest_length. simpl. lia.
Qed.

End KeyFacts.





(** * Part III. Further properties *)

(** ** Decimal texts *)

Section DecimalTexts.

Lemma int_digits_uint (d : Decimal.uint) (acc : Z) (b : bool) :
  d <> Decimal.Nil \/ b = true ->
  Py.int_digits (digits_of d) acc b = Some (uint_acc d acc).
Proof.
  revert acc b. unfold digits_of.
  induction d as [|d IH|d IH|d IH|d IH|d IH|d IH|d IH|d IH|d IH|d IH];
    intros acc b Hd.
  1: { destruct Hd as [Hd| ->]; [congruence | reflexivity]. }
  all: cbn [NilEmpty.string_of_uint list_ascii_of_string Py.int_digits
            uint_acc];
    match goal with
    | |- context [Py.is_digit ?c] => change (Py.is_digit c) with true
    end;
    cbv iota; rewrite IH by (right; reflexivity);
    match goal with
    | |- context [Py.code ?c] =>
        let v := eval vm_compute in (Py.code c) in
        change (Py.code c) with v
    end; do 2 f_equal; lia.
Qed.

Lemma uint_acc_revapp (d a : Decimal.uint) :
  uint_acc d (Z.of_N (DecimalPos.Unsigned.of_lu a))
  = Z.of_N (DecimalPos.Unsigned.of_lu (Decimal.revapp d a)).
Proof.
  revert a. induction d; intros a; cbn [uint_acc Decimal.revapp];
    [reflexivity|..]; rewrite <- IHd; f_equal;
    cbn [DecimalPos.Unsigned.of_lu]; lia.
Qed.

Lemma uint_acc_to_uint (p : positive) :
  uint_acc (Pos.to_uint p) 0 = Z.pos p.
Proof.
  change 0 with (Z.of_N (DecimalPos.Unsigned.of_lu Decimal.Nil)).
  rewrite uint_acc_revapp.
  change (Decimal.revapp (Pos.to_uint p) Decimal.Nil)
    with (Decimal.rev (Pos.to_uint p)).
  rewrite <- DecimalPos.Unsigned.of_uint_alt, DecimalPos.Unsigned.of_to. reflexivity.
Qed.

Lemma digit_not_space (c : ascii) : Py.is_digit c = true -> Py.is_space c = false.
Proof.
  unfold Py.is_digit, Py.is_space. intros H.
  apply andb_true_iff in H as [H1 H2].
  apply Z.leb_le in H1, H2.
  repeat (apply orb_false_iff; split);
    try (apply andb_false_iff; lia); try (apply Z.eqb_neq; lia).
  all: rewrite ?andb_false_iff, ?Z.leb_gt; lia.
Qed.

Lemma digits_of_all (d : Decimal.uint) :
  forallb Py.is_digit (digits_of d) = true.
Proof.
  unfold digits_of. induction d; cbn [NilEmpty.string_of_uint list_ascii_of_string forallb];
    [reflexivity|..]; rewrite IHd; reflexivity.
Qed.

Lemma lstrip_head (c : ascii) (s : list ascii) :
  Py.is_space c = false -> Py.lstrip (c :: s) = c :: s.
Proof. intros H. cbn [Py.lstrip]. rewrite H. reflexivity. Qed.

Lemma strip_clean (s : list ascii) :
  forallb (fun c => negb (Py.is_space c)) s = true -> Py.strip s = s.
Proof.
  intros H. unfold Py.strip.
  assert (Hl : forall t, forallb (fun c => negb (Py.is_space c)) t = true ->
                         Py.lstrip t = t).
  { intros [|c t] Ht; [reflexivity|]. cbn [forallb] in Ht.
    apply andb_true_iff in Ht as [Hc _]. apply negb_true_iff in Hc.
    apply lstrip_head; assumption. }
  rewrite (Hl s H), Hl, rev_involutive; [reflexivity|].
  rewrite forallb_forall in *. intros x Hx. apply H. apply in_rev. exact Hx.
Qed.

Lemma digits_clean (s : list ascii) :
  forallb Py.is_digit s = true ->
  forallb (fun c => negb (Py.is_space c)) s = true.
Proof.
  rewrite !forallb_forall. intros H x Hx.
  rewrite (digit_not_space x (H x Hx)). reflexivity.
Qed.

Lemma str_int_pos (p : positive) :
  list_ascii_of_string (Py.str_int (Z.pos p)) = digits_of (Pos.to_uint p).
Proof.
  unfold Py.str_int, digits_of. cbn [Z.to_int NilZero.string_of_int].
  unfold NilZero.string_of_uint.
  pose proof (DecimalPos.Unsigned.to_uint_nonnil p) as Hn.
  destruct (Pos.to_uint p); [congruence|..]; reflexivity.
Qed.

Lemma str_int_neg (p : positive) :
  list_ascii_of_string (Py.str_int (Z.neg p))
  = "-"%char :: digits_of (Pos.to_uint p).
Proof.
  unfold Py.str_int, digits_of. cbn [Z.to_int NilZero.string_of_int].
  unfold NilZero.string_of_uint.
  pose proof (DecimalPos.Unsigned.to_uint_nonnil p) as Hn.
  destruct (Pos.to_uint p); [congruence|..]; reflexivity.
Qed.

Lemma digits_of_head (d : Decimal.uint) :
  d <> Decimal.Nil ->
  exists c r, digits_of d = c :: r /\ Py.is_digit c = true.
Proof.
  intros Hd. pose proof (digits_of_all d) as Hall.
  destruct d; [congruence|..]; unfold digits_of in *;
    cbn [NilEmpty.string_of_uint list_ascii_of_string forallb] in *;
    eexists _, _; (split; [reflexivity|]); reflexivity.
Qed.

Lemma filter_digits (d : Decimal.uint) :
  List.filter Py.is_digit (digits_of d) = digits_of d.
Proof.
  pose proof (digits_of_all d) as Hall.
  induction (digits_of d) as [|c l IH]; [reflexivity|].
  cbn [forallb] in Hall. apply andb_true_iff in Hall as [Hc Hl].
  cbn [List.filter]. rewrite Hc, (IH Hl). reflexivity.
Qed.

Lemma length_chars (s : string) :
  length (list_ascii_of_string s) = String.length s.
Proof.
  induction s as [|c s IH]; [reflexivity|]. cbn. rewrite IH. reflexivity.
Qed.

Lemma len_str_int_pos (p : positive) :
  Py.len (Py.str_int (Z.pos p))
  = Z.of_nat (length (digits_of (Pos.to_uint p))).
Proof.
  unfold Py.len. rewrite <- length_chars, str_int_pos. reflexivity.
Qed.

(** [int(str(z)) == z], within the digit limit. *)
Lemma int_str_int (z : Z) :
  Py.len (Py.str_int (Z.abs z)) <= Py.int_max_str_digits ->
  Py.int (Py.str_int z) = Ok z.
Proof.
  intros Hlen. destruct z as [|p|p].
  - reflexivity.
  - change (Z.abs (Z.pos p)) with (Z.pos p) in Hlen.
    rewrite len_str_int_pos in Hlen.
    unfold Py.int. rewrite str_int_pos.
    rewrite strip_clean by (apply digits_clean, digits_of_all).
    destruct (digits_of_head (Pos.to_uint p) (DecimalPos.Unsigned.to_uint_nonnil p))
      as (c & r & Heq & Hc).
    rewrite Heq.
    assert (Hcode : 48 <= Py.code c <= 57).
    { unfold Py.is_digit in Hc. apply andb_true_iff in Hc as [H1 H2].
      apply Z.leb_le in H1, H2. lia. }
    destruct (Z.eqb_spec (Py.code c) 45); [lia|].
    destruct (Z.eqb_spec (Py.code c) 43); [lia|].
    rewrite <- Heq, int_digits_uint by (left; apply DecimalPos.Unsigned.to_uint_nonnil).
    rewrite uint_acc_to_uint, filter_digits.
    destruct (Z.ltb_spec Py.int_max_str_digits
                (Z.of_nat (length (digits_of (Pos.to_uint p)))));
      [lia | reflexivity].
  - change (Z.abs (Z.neg p)) with (Z.pos p) in Hlen.
    rewrite len_str_int_pos in Hlen.
    unfold Py.int. rewrite str_int_neg.
    rewrite strip_clean.
    + change (Py.code "-"%char =? 45) with true. cbv iota.
      rewrite int_digits_uint by (left; apply DecimalPos.Unsigned.to_uint_nonnil).
      rewrite uint_acc_to_uint, filter_digits.
      destruct (Z.ltb_spec Py.int_max_str_digits
                  (Z.of_nat (length (digits_of (Pos.to_uint p)))));
        [lia | reflexivity].
    + cbn [forallb]. change (negb (Py.is_space "-"%char)) with true.
      apply digits_clean, digits_of_all.
Qed.

Lemma to_uint_head_nonzero (p : positive) (d : Decimal.uint) :
  Pos.to_uint p <> Decimal.D0 d.
Proof.
  intros Heq.
  assert (Hnorm : Decimal.unorm (Pos.to_uint p) = Pos.to_uint p).
  { rewrite <- (DecimalPos.Unsigned.to_of (Pos.to_uint p)), DecimalPos.Unsigned.of_to. reflexivity. }
  rewrite Heq, DecimalFacts.unorm_D0 in Hnorm.
  destruct (Decimal.uint_eq_dec d Decimal.Nil) as [->|Hd].
  - apply (DecimalPos.Unsigned.to_uint_nonzero p). exact Heq.
  - pose proof (DecimalFacts.nb_digits_unorm d Hd) as Hle. rewrite Hnorm in Hle.
    cbn [Decimal.nb_digits] in Hle. lia.
Qed.

(** The decimal text of a 64-bit integer is what INCR reads back. *)
Lemma string2ll_str_int (z : Z) :
  - 2 ^ 63 <= z < 2 ^ 63 -> Redis.string2ll (Py.str_int z) = Some z.
Proof.
  intros Hz. destruct z as [|p|p].
  - reflexivity.
  - unfold Redis.string2ll. rewrite str_int_pos.
    pose proof (to_uint_head_nonzero p) as Hnz.
    pose proof (digits_of_all (Pos.to_uint p)) as Hall.
    pose proof (int_digits_uint (Pos.to_uint p) 0 false
                  (or_introl (DecimalPos.Unsigned.to_uint_nonnil p))) as Hval.
    rewrite uint_acc_to_uint in Hval.
    destruct (Pos.to_uint p) as [|d|d|d|d|d|d|d|d|d|d] eqn:Hd;
      [exfalso; apply (DecimalPos.Unsigned.to_uint_nonnil p); assumption
      | exfalso; apply (Hnz d); reflexivity | ..].
    all: unfold digits_of in *;
      cbn [NilEmpty.string_of_uint list_ascii_of_string] in *;
      match goal with
      | |- context [Py.code ?c =? 45] =>
          change (Py.code c =? 45) with false;
          change (Py.code c =? 48) with false
      end; cbv iota; cbn [negb orb];
      rewrite Hall, Hval; cbn [andb];
      destruct (Z.leb_spec (- 2 ^ 63) (Z.pos p)); [|lia];
      destruct (Z.ltb_spec (Z.pos p) (2 ^ 63)); [|lia]; reflexivity.
  - unfold Redis.string2ll. rewrite str_int_neg.
    pose proof (to_uint_head_nonzero p) as Hnz.
    pose proof (digits_of_all (Pos.to_uint p)) as Hall.
    pose proof (int_digits_uint (Pos.to_uint p) 0 false
                  (or_introl (DecimalPos.Unsigned.to_uint_nonnil p))) as Hval.
    rewrite uint_acc_to_uint in Hval.
    change (Py.code "-"%char =? 45) with true. cbv iota.
    destruct (Pos.to_uint p) as [|d|d|d|d|d|d|d|d|d|d] eqn:Hd;
      [exfalso; apply (DecimalPos.Unsigned.to_uint_nonnil p); assumption
      | exfalso; apply (Hnz d); reflexivity | ..].
    all: unfold digits_of in *;
      cbn [NilEmpty.string_of_uint list_ascii_of_string] in *;
      match goal with
      | |- context [Py.code ?c =? 48] =>
          change (Py.code c =? 48) with false
      end; cbv iota; cbn [negb orb];
      rewrite Hall, Hval; cbn [andb];
      destruct (Z.leb_spec (- 2 ^ 63) (- Z.pos p)); [|lia];
      destruct (Z.ltb_spec (- Z.pos p) (2 ^ 63)); [|lia]; reflexivity.
Qed.

Lemma uint_acc_lower (d : Decimal.uint) (acc : Z) :
  0 <= acc ->
  acc * 10 ^ Z.of_nat (Decimal.nb_digits d) <= uint_acc d acc.
Proof.
  revert acc. induction d as [|d IH|d IH|d IH|d IH|d IH|d IH|d IH|d IH|d IH|d IH];
    intros acc Hacc; cbn [uint_acc Decimal.nb_digits];
    [rewrite Z.pow_0_r; lia|..];
    (etransitivity; [|apply IH; lia]);
    rewrite Nat2Z.inj_succ, Z.pow_succ_r by lia;
    pose proof (Z.pow_nonneg 10 (Z.of_nat (Decimal.nb_digits d)) ltac:(lia));
    nia.
Qed.

Lemma length_digits_of (d : Decimal.uint) :
  length (digits_of d) = Decimal.nb_digits d.
Proof.
  unfold digits_of.
  induction d; cbn [NilEmpty.string_of_uint list_ascii_of_string length
                    Decimal.nb_digits]; congruence.
Qed.

(** A positive number below [10^n] has at most [n] digits. *)
Lemma digits_below (p : positive) (n : nat) :
  Z.pos p < 10 ^ Z.of_nat n ->
  (length (digits_of (Pos.to_uint p)) <= n)%nat.
Proof.
  intros Hp. rewrite length_digits_of.
  pose proof (uint_acc_to_uint p) as Hval.
  pose proof (to_uint_head_nonzero p) as Hnz.
  pose proof (DecimalPos.Unsigned.to_uint_nonnil p) as Hnil.
  destruct (Pos.to_uint p) as [|d|d|d|d|d|d|d|d|d|d];
    [congruence | exfalso; apply (Hnz d); reflexivity | ..];
    cbn [uint_acc Decimal.nb_digits] in *;
    match type of Hval with
    | uint_acc d ?k = _ =>
        pose proof (uint_acc_lower d k ltac:(lia)) as Hlow
    end;
    destruct (Nat.le_gt_cases (S (Decimal.nb_digits d)) n) as [|Hgt];
      try assumption;
    exfalso;
    assert (Hpow : 10 ^ Z.of_nat n <= 10 ^ Z.of_nat (Decimal.nb_digits d))
      by (apply Z.pow_le_mono_r; lia);
    pose proof (Z.pow_pos_nonneg 10 (Z.of_nat n) ltac:(lia) ltac:(lia));
    nia.
Qed.

(** A 64-bit integer is within the digit limit. *)
Lemma small_int_digits (z : Z) :
  - 2 ^ 63 <= z <= 2 ^ 63 ->
  Py.len (Py.str_int (Z.abs z)) <= Py.int_max_str_digits.
Proof.
  intros Hz. destruct z as [|p|p].
  - vm_compute. discriminate.
  - change (Z.abs (Z.pos p)) with (Z.pos p). rewrite len_str_int_pos.
    pose proof (digits_below p 20 ltac:(lia)) as Hlen.
    unfold Py.int_max_str_digits. lia.
  - change (Z.abs (Z.neg p)) with (Z.pos p). rewrite len_str_int_pos.
    pose proof (digits_below p 20 ltac:(lia)) as Hlen.
    unfold Py.int_max_str_digits. lia.
Qed.

Lemma uint_acc_upper (d : Decimal.uint) (acc : Z) :
  0 <= acc ->
  uint_acc d acc < (acc + 1) * 10 ^ Z.of_nat (Decimal.nb_digits d).
Proof.
  revert acc. induction d as [|d IH|d IH|d IH|d IH|d IH|d IH|d IH|d IH|d IH|d IH];
    intros acc Hacc; cbn [uint_acc Decimal.nb_digits];
    [rewrite Z.pow_0_r; lia|..];
    (eapply Z.lt_le_trans; [apply IH; lia|]);
    rewrite Nat2Z.inj_succ, Z.pow_succ_r by lia;
    pose proof (Z.pow_nonneg 10 (Z.of_nat (Decimal.nb_digits d)) ltac:(lia));
    nia.
Qed.

(** A positive number from [10^n] on has more than [n] digits. *)
Lemma digits_from (p : positive) (n : nat) :
  10 ^ Z.of_nat n <= Z.pos p ->
  (n < length (digits_of (Pos.to_uint p)))%nat.
Proof.
  intros Hp. rewrite length_digits_of.
  pose proof (uint_acc_to_uint p) as Hval.
  pose proof (uint_acc_upper (Pos.to_uint p) 0 ltac:(lia)) as Hup.
  rewrite Hval, Z.mul_1_l in Hup.
  destruct (Nat.le_gt_cases (Decimal.nb_digits (Pos.to_uint p)) n) as [Hle|];
    [|assumption].
  exfalso.
  assert (Hpow : 10 ^ Z.of_nat (Decimal.nb_digits (Pos.to_uint p))
                 <= 10 ^ Z.of_nat n)
    by (apply Z.pow_le_mono_r; lia).
  lia.
Qed.

(** An integer of more than 4300 digits is beyond the digit limit. *)
Lemma long_int_digits (z : Z) :
  10 ^ Z.of_nat 4300 <= Z.abs z ->
  Py.int_max_str_digits < Py.len (Py.str_int (Z.abs z)).
Proof.
  intros Hz. destruct z as [|p|p].
  - exfalso. change (Z.abs 0) with 0 in Hz.
    pose proof (Z.pow_pos_nonneg 10 (Z.of_nat 4300) ltac:(lia) ltac:(lia)).
    lia.
  - change (Z.abs (Z.pos p)) with (Z.pos p) in *. rewrite len_str_int_pos.
    pose proof (digits_from p 4300 Hz) as Hlen.
    unfold Py.int_max_str_digits. lia.
  - change (Z.abs (Z.neg p)) with (Z.pos p) in *. rewrite len_str_int_pos.
    pose proof (digits_from p 4300 Hz) as Hlen.
    unfold Py.int_max_str_digits. lia.
Qed.

End DecimalTexts.

(** ** The rate limiter, for every limit and window *)

Section RateLimitGeneral.

Variables (srv : Redis.server) (identifier : string).
Variables (max_requests window : Z) (expiry : option Z).
Hypothesis quiet : Redis.faults srv = [].
Hypothesis live : Redis.expired srv (Redis.Entry EmptyString expiry) = false.
Hypothesis small : max_requests < 2 ^ 63.

Lemma counter_at_lookup (count : Z) :
  Redis.lookup (counter_at srv identifier count expiry)
               ("ratelimit:" +:+ identifier)
  = Some (Redis.Entry (Py.str_int count) expiry).
Proof.
  unfold Redis.lookup, counter_at; cbn [Redis.db]. rewrite lookup_insert_eq.
  unfold Redis.expired in *; cbn [Redis.expire_at Redis.clock] in *.
  rewrite live. reflexivity.
Qed.

Lemma counter_at_put (count count' : Z) :
  put (counter_at srv identifier count expiry) ("ratelimit:" +:+ identifier)
      (Py.str_int count') expiry
  = counter_at srv identifier count' expiry.
Proof.
  unfold put, counter_at, Redis.with_db; cbn [Redis.db Redis.clock Redis.faults].
  rewrite insert_insert_eq. reflexivity.
Qed.

Lemma request_at (count : Z) :
  1 <= count < 2 ^ 63 ->
  RateLimiter.is_allowed identifier max_requests window
    (warm (counter_at srv identifier count expiry))
  = if max_requests <=? count
    then (Ok false, warm (counter_at srv identifier count expiry))
    else (Ok true, warm (counter_at srv identifier (count + 1) expiry)).
Proof.
  intros Hc. destruct (Z.leb_spec max_requests count) as [Hge|Hlt].
  - apply (is_allowed_denied (counter_at srv identifier count expiry)
             identifier max_requests window count
             (Py.str_int count) expiry eq_refl (counter_at_lookup count)
             (int_str_int count (small_int_digits count ltac:(lia))) Hge).
  - rewrite (is_allowed_below (counter_at srv identifier count expiry)
               identifier max_requests window count
               (Py.str_int count) expiry eq_refl (counter_at_lookup count)
               (int_str_int count (small_int_digits count ltac:(lia)))
               (string2ll_str_int count ltac:(lia)) Hlt ltac:(lia)).
    rewrite counter_at_put. reflexivity.
Qed.

Lemma remaining_at (count : Z) :
  - 2 ^ 63 <= count <= 2 ^ 63 ->
  RateLimiter.get_remaining identifier max_requests
    (warm (counter_at srv identifier count expiry))
  = (Ok (Z.max 0 (max_requests - count)),
     warm (counter_at srv identifier count expiry)).
Proof.
  intros Hc.
  rewrite (get_remaining_some (counter_at srv identifier count expiry)
             identifier max_requests count
             (Redis.Entry (Py.str_int count) expiry) eq_refl
             (counter_at_lookup count)
             (int_str_int count (small_int_digits count Hc))).
  reflexivity.
Qed.

(** From the [j]-th request on, [j >= 1]. *)
Lemma requests_from (n j : nat) :
  (1 <= j)%nat ->
  allow_then_remaining n identifier max_requests window
    (warm (counter_at srv identifier
             (Z.min (Z.of_nat j) (Z.max 1 max_requests)) expiry))
  = List.map (expected_request max_requests) (seq j n).
Proof.
  revert j. induction n as [|n IH]; intros j Hj; [reflexivity|].
  cbn [allow_then_remaining seq List.map].
  rewrite request_at by lia.
  destruct (Z.leb_spec max_requests
              (Z.min (Z.of_nat j) (Z.max 1 max_requests))) as [Hge|Hlt].
  - rewrite remaining_at by lia. f_equal.
    + unfold expected_request. destruct j; [lia|]. cbn [Nat.eqb orb].
      destruct (Z.ltb_spec (Z.of_nat (S j)) max_requests); [lia|].
      do 3 f_equal. lia.
    + replace (Z.min (Z.of_nat j) (Z.max 1 max_requests))
        with (Z.min (Z.of_nat (S j)) (Z.max 1 max_requests)) by lia.
      apply IH. lia.
  - rewrite remaining_at by lia.
    replace (Z.min (Z.of_nat j) (Z.max 1 max_requests) + 1)
      with (Z.min (Z.of_nat (S j)) (Z.max 1 max_requests)) by lia.
    f_equal.
    + unfold expected_request. destruct j; [lia|]. cbn [Nat.eqb orb].
      destruct (Z.ltb_spec (Z.of_nat (S j)) max_requests); [|lia].
      reflexivity.
    + apply IH. lia.
Qed.

End RateLimitGeneral.

Section RateLimitWindows.

Variables (srv : Redis.server) (identifier : string).
Variables (max_requests window : Z).
Hypothesis quiet : Redis.faults srv = [].
Hypothesis fresh : Redis.lookup srv ("ratelimit:" +:+ identifier) = None.
Hypothesis small : max_requests < 2 ^ 63.

Lemma put_counter_at (expiry : option Z) :
  put srv ("ratelimit:" +:+ identifier) "1" expiry
  = counter_at srv identifier 1 expiry.
Proof.
  unfold put, counter_at, Redis.with_db. rewrite quiet. reflexivity.
Qed.

Lemma live_within (dt : Z) :
  dt < window ->
  Redis.expired (Redis.advance dt srv)
    (Redis.Entry EmptyString (Some (Redis.clock srv + window))) = false.
Proof.
  intros Hdt. unfold Redis.expired, Redis.advance;
    cbn [Redis.expire_at Redis.clock]. apply Z.leb_gt. lia.
Qed.

Lemma window_requests (n : nat) :
  0 < window ->
  allow_then_remaining n identifier max_requests window (warm srv)
  = List.map (expected_request max_requests) (seq 0 n).
Proof.
  intros Hw. destruct n as [|n]; [reflexivity|].
  cbn [allow_then_remaining seq List.map].
  rewrite (is_allowed_first srv identifier max_requests window quiet fresh Hw).
  rewrite put_counter_at.
  assert (Hlive : Redis.expired srv
            (Redis.Entry EmptyString (Some (Redis.clock srv + window)))
          = false).
  { unfold Redis.expired; cbn [Redis.expire_at]. apply Z.leb_gt. lia. }
  rewrite (remaining_at srv identifier max_requests _ Hlive) by lia.
  replace 1 with (Z.min (Z.of_nat 1) (Z.max 1 max_requests)) at 2 by lia.
  rewrite (requests_from srv identifier max_requests window _ Hlive small
             n 1) by lia.
  unfold expected_request. cbn [Nat.eqb orb].
  replace (Z.min (Z.of_nat 1) (Z.max 1 max_requests)) with 1 by lia.
  reflexivity.
Qed.

Lemma after_requests_counter (m : nat) (expiry : option Z) :
  Redis.expired srv (Redis.Entry EmptyString expiry) = false ->
  (1 <= m)%nat ->
  forall j : nat, (1 <= j)%nat ->
  after_requests m identifier max_requests window
    (warm (counter_at srv identifier
             (Z.min (Z.of_nat j) (Z.max 1 max_requests)) expiry))
  = warm (counter_at srv identifier
            (Z.min (Z.of_nat (j + m)) (Z.max 1 max_requests)) expiry).
Proof.
  intros Hlive _. induction m as [|m IH]; intros j Hj.
  - cbn [after_requests]. do 3 f_equal. lia.
  - cbn [after_requests].
    rewrite (request_at srv identifier max_requests window expiry Hlive
               small) by lia.
    destruct (Z.leb_spec max_requests
                (Z.min (Z.of_nat j) (Z.max 1 max_requests))) as [Hge|Hlt];
      cbn [snd].
    + replace (Z.min (Z.of_nat j) (Z.max 1 max_requests))
        with (Z.min (Z.of_nat (S j)) (Z.max 1 max_requests)) by lia.
      rewrite (IH (S j)) by lia. do 3 f_equal. lia.
    + replace (Z.min (Z.of_nat j) (Z.max 1 max_requests) + 1)
        with (Z.min (Z.of_nat (S j)) (Z.max 1 max_requests)) by lia.
      rewrite (IH (S j)) by lia. do 3 f_equal. lia.
Qed.


Lemma after_requests_window (m : nat) :
  0 < window -> (1 <= m)%nat ->
  after_requests m identifier max_requests window (warm srv)
  = warm (counter_at srv identifier
            (Z.min (Z.of_nat m) (Z.max 1 max_requests))
            (Some (Redis.clock srv + window))).
Proof.
  intros Hw Hm. destruct m as [|m]; [lia|].
  cbn [after_requests].
  rewrite (is_allowed_first srv identifier max_requests window quiet fresh Hw).
  cbn [snd]. rewrite put_counter_at.
  assert (Hlive : Redis.expired srv
            (Redis.Entry EmptyString (Some (Redis.clock srv + window)))
          = false).
  { unfold Redis.expired; cbn [Redis.expire_at]. apply Z.leb_gt. lia. }
  destruct m as [|m]; [cbn [after_requests]; do 3 f_equal; lia|].
  replace 1 with (Z.min (Z.of_nat 1) (Z.max 1 max_requests)) at 1 by lia.
  rewrite (after_requests_counter (S m) _ Hlive) by lia.
  reflexivity.
Qed.

(** A [SET] without expiry, for a window of zero. *)
Lemma is_allowed_first_zero :
  RateLimiter.is_allowed identifier max_requests 0 (warm srv)
  = (Ok true, warm (counter_at srv identifier 1 None)).
Proof.
  unfold RateLimiter.is_allowed; simpl.
  unfold bind at 1. rewrite (client_get_quiet _ _ quiet), fresh.
  rewrite <- put_counter_at.
  unfold bind, RedisCache.set, try_except, lift, ret, client, warm,
    Redis.set, put; cbn -[Redis.command Redis.with_db].
  change (Py.int_max_str_digits <? Py.len (Py.str_int (Z.abs 1))) with false.
  cbv iota.
  unfold bind; cbn -[Redis.command Redis.with_db].
  rewrite (command_quiet _ srv quiet). reflexivity.
Qed.

(** A [SETEX] with a negative time is refused, and [set] swallows it. *)
Lemma is_allowed_first_negative :
  window < 0 ->
  RateLimiter.is_allowed identifier max_requests window (warm srv)
  = (Ok true, warm srv).
Proof.
  intros Hw. unfold RateLimiter.is_allowed; simpl.
  unfold bind at 1. rewrite (client_get_quiet _ _ quiet), fresh.
  unfold bind, RedisCache.set, try_except, lift, ret, client, warm,
    Redis.setex; cbn -[Redis.command Redis.with_db Z.eqb Z.leb].
  change (Py.int_max_str_digits <? Py.len (Py.str_int (Z.abs 1))) with false.
  cbv iota.
  destruct (Z.eqb_spec window 0); [lia|].
  unfold bind; cbn -[Redis.command Redis.with_db Z.eqb Z.leb].
  rewrite (command_quiet _ srv quiet).
  destruct (Z.leb_spec window 0); [|lia]. reflexivity.
Qed.

Lemma negative_window_requests (n : nat) :
  window < 0 ->
  allow_then_remaining n identifier max_requests window (warm srv)
  = repeat (Ok true, Ok max_requests) n
  /\ after_requests n identifier max_requests window (warm srv) = warm srv.
Proof.
  intros Hw. induction n as [|n [IH1 IH2]]; [split; reflexivity|].
  cbn [allow_then_remaining after_requests repeat].
  rewrite (is_allowed_first_negative Hw). cbn [snd].
  rewrite (get_remaining_none srv identifier max_requests
             (quiet_reachable _ quiet) fresh).
  rewrite (quiet_settled _ quiet), IH1, IH2. split; reflexivity.
Qed.

End RateLimitWindows.

Lemma after_requests_zero (srv : Redis.server) (identifier : string)
    (max_requests : Z) (m : nat) :
  Redis.faults srv = [] ->
  Redis.lookup srv ("ratelimit:" +:+ identifier) = None ->
  max_requests < 2 ^ 63 ->
  (1 <= m)%nat ->
  after_requests m identifier max_requests 0 (warm srv)
  = warm (counter_at srv identifier
            (Z.min (Z.of_nat m) (Z.max 1 max_requests)) None).
Proof.
  intros quiet fresh small Hm. destruct m as [|m]; [lia|].
  cbn [after_requests].
  rewrite (is_allowed_first_zero srv identifier max_requests quiet fresh).
  cbn [snd].
  destruct m as [|m].
  { cbn [after_requests].
    replace (Z.min (Z.of_nat 1) (Z.max 1 max_requests)) with 1 by lia.
    reflexivity. }
  replace 1 with (Z.min (Z.of_nat 1) (Z.max 1 max_requests)) at 1 by lia.
  rewrite (after_requests_counter srv identifier max_requests 0 small
             (S m) None eq_refl) by lia.
  reflexivity.
Qed.


(** X1. On a reachable store where the identifier has no counter, and
    for every limit below [2^63] and every positive window, the [i]-th
    request of the window (counted from 0) is allowed exactly when
    [i = 0] or [i < max_requests], and [get_remaining] after it returns
    [max(0, max_requests - min(i + 1, max(1, max_requests)))]. So the
    first request is allowed even for a limit of zero or less, and the
    counter stops at the limit. *)
Theorem rate_limit_any_limit :
  forall (srv : Redis.server) (identifier : string)
         (max_requests window : Z) (n : nat),
    Redis.faults srv = [] ->
    Redis.lookup srv ("ratelimit:" +:+ identifier) = None ->
    0 < window ->
    max_requests < 2 ^ 63 ->
    allow_then_remaining n identifier max_requests window (warm srv)
    = List.map (expected_request max_requests) (seq 0 n).
Proof.
  intros srv identifier max_requests window n quiet fresh Hw Hsmall.
  exact (window_requests srv identifier max_requests window quiet fresh
           Hsmall n Hw).
Qed.

(** A limit of zero: the first request is allowed, the next ones are
    not. *)
Lemma rate_limit_any_limit_witness :
  let srv := Redis.Server ∅ 0 [] in
  allow_then_remaining 3 "c" 0 60 (warm srv)
  = [(Ok true, Ok 0); (Ok false, Ok 0); (Ok false, Ok 0)].
Proof.
  exact (rate_limit_any_limit (Redis.Server ∅ 0 []) "c" 0 60 3
           eq_refl eq_refl ltac:(lia) ltac:(lia)).
Defined.

(** The counter of a window while requests arrive inside it: each one
    counts, none moves the expiry. *)
Lemma requests_after_counter (identifier : string) (max_requests window : Z)
    (deadline : Z) (gaps : list Z) :
  max_requests < 2 ^ 63 ->
  forall (srv : Redis.server) (j : nat),
    (1 <= j)%nat ->
    Forall (fun gap => 0 <= gap) gaps ->
    Redis.clock srv + seconds gaps < deadline ->
    requests_after gaps identifier max_requests window
      (warm (counter_at srv identifier
               (Z.min (Z.of_nat j) (Z.max 1 max_requests)) (Some deadline)))
    = warm (counter_at (Redis.advance (seconds gaps) srv) identifier
              (Z.min (Z.of_nat (j + length gaps)) (Z.max 1 max_requests))
              (Some deadline)).
Proof.
  intros Hsmall. induction gaps as [|gap gaps IH]; intros srv j Hj Hgaps Hin.
  - cbn [requests_after seconds fold_right length].
    unfold counter_at, Redis.advance; cbn [Redis.db Redis.clock].
    rewrite Z.add_0_r, Nat.add_0_r. reflexivity.
  - inversion Hgaps as [|g gs Hgap Hrest E]; subst.
    unfold seconds in Hin; cbn [fold_right] in Hin; fold (seconds gaps) in Hin.
    assert (Hnonneg : 0 <= seconds gaps).
    { clear - Hrest. induction Hrest as [|g gs Hg _ IHgs]; [cbn; lia|].
      unfold seconds in *; cbn [fold_right]. lia. }
    cbn [requests_after].
    change (elapse gap (warm (counter_at srv identifier ?c ?e)))
      with (warm (counter_at (Redis.advance gap srv) identifier c e)).
    assert (Hlive : Redis.expired (Redis.advance gap srv)
                      (Redis.Entry EmptyString (Some deadline)) = false).
    { unfold Redis.expired, Redis.advance; cbn [Redis.expire_at Redis.clock].
      apply Z.leb_gt. lia. }
    rewrite (request_at (Redis.advance gap srv) identifier max_requests window
               (Some deadline) Hlive Hsmall) by lia.
    assert (Hnext :
      snd (if max_requests <=? Z.min (Z.of_nat j) (Z.max 1 max_requests)
           then (Ok false,
                 warm (counter_at (Redis.advance gap srv) identifier
                         (Z.min (Z.of_nat j) (Z.max 1 max_requests))
                         (Some deadline)))
           else (Ok true,
                 warm (counter_at (Redis.advance gap srv) identifier
                         (Z.min (Z.of_nat j) (Z.max 1 max_requests) + 1)
                         (Some deadline))))
      = warm (counter_at (Redis.advance gap srv) identifier
                (Z.min (Z.of_nat (S j)) (Z.max 1 max_requests))
                (Some deadline))).
    { destruct (Z.leb_spec max_requests
                  (Z.min (Z.of_nat j) (Z.max 1 max_requests)));
        cbn [snd]; do 2 f_equal; lia. }
    rewrite Hnext, (IH (Redis.advance gap srv) (S j)); try assumption;
      try lia; [|unfold Redis.advance; cbn [Redis.clock]; lia].
    unfold seconds; cbn [fold_right length]; fold (seconds gaps).
    unfold counter_at, Redis.advance; cbn [Redis.db Redis.clock].
    replace (S j + length gaps)%nat with (j + S (length gaps))%nat by lia.
    replace (Redis.clock srv + gap + seconds gaps)
      with (Redis.clock srv + (gap + seconds gaps)) by lia.
    reflexivity.
Qed.

(** X2. The window is fixed, not sliding: its expiry is set by the
    first request alone. After a first request and one more request
    after each of the [gaps] (seconds between one request and the next,
    all of them inside the window), the requests made [dt] seconds
    later continue the same window as long as less than [window]
    seconds have passed since the first request, whatever time the
    requests in between came at; once [window] seconds have passed
    since the first request the counter has expired and the next
    request opens a new window, although the last request may be much
    more recent. *)
Theorem rate_limit_window_is_fixed :
  forall (srv : Redis.server) (identifier : string)
         (max_requests window : Z) (gaps : list Z) (n : nat) (dt : Z),
    Redis.faults srv = [] ->
    Redis.lookup srv ("ratelimit:" +:+ identifier) = None ->
    0 < window ->
    max_requests < 2 ^ 63 ->
    Forall (fun gap => 0 <= gap) gaps ->
    seconds gaps < window ->
    0 <= dt ->
    allow_then_remaining n identifier max_requests window
      (elapse dt
         (requests_after gaps identifier max_requests window
            (snd (RateLimiter.is_allowed identifier max_requests window
                    (warm srv)))))
    = List.map (expected_request max_requests)
               (seq (if seconds gaps + dt <? window
                     then S (length gaps) else O) n).
Proof.
  intros srv identifier max_requests window gaps n dt
         quiet fresh Hw Hsmall Hgaps Hin Hdt.
  rewrite (is_allowed_first srv identifier max_requests window quiet fresh Hw).
  cbn [snd]. rewrite (put_counter_at srv identifier quiet).
  replace 1 with (Z.min (Z.of_nat 1) (Z.max 1 max_requests)) at 1 by lia.
  rewrite (requests_after_counter identifier max_requests window
             (Redis.clock srv + window) gaps Hsmall srv 1)
    by (trivial; lia).
  change (elapse dt (warm (counter_at ?s identifier ?c ?e)))
    with (warm (counter_at (Redis.advance dt s) identifier c e)).
  destruct (Z.ltb_spec (seconds gaps + dt) window) as [Hlive|Hout].
  - apply (requests_from (Redis.advance dt (Redis.advance (seconds gaps) srv))
             identifier max_requests window (Some (Redis.clock srv + window)));
      [|assumption|lia].
    unfold Redis.expired, Redis.advance; cbn [Redis.expire_at Redis.clock].
    apply Z.leb_gt. lia.
  - apply window_requests; [reflexivity| |assumption|assumption].
    unfold Redis.lookup, counter_at, Redis.advance;
      cbn [Redis.db Redis.clock Redis.faults].
    rewrite lookup_insert_eq.
    unfold Redis.expired; cbn [Redis.expire_at Redis.clock].
    destruct (Z.leb_spec (Redis.clock srv + window)
                (Redis.clock srv + seconds gaps + dt));
      [reflexivity | lia].
Qed.

(** A limit of 3 in a window of 60 seconds, a second request 30 seconds
    after the first. 29 seconds later the window of the first request
    still counts; 30 seconds later it is over, 30 seconds after the
    last request. *)
Lemma rate_limit_window_is_fixed_witness :
  let srv := Redis.Server ∅ 100 [] in
  let two := requests_after [30] "c" 3 60
               (snd (RateLimiter.is_allowed "c" 3 60 (warm srv))) in
  allow_then_remaining 2 "c" 3 60 (elapse 29 two)
  = [(Ok true, Ok 0); (Ok false, Ok 0)]
  /\ allow_then_remaining 2 "c" 3 60 (elapse 30 two)
     = [(Ok true, Ok 2); (Ok true, Ok 1)].
Proof.
  assert (Hgaps : Forall (fun gap => 0 <= gap) [30])
    by (repeat constructor; lia).
  split.
  - exact (rate_limit_window_is_fixed (Redis.Server ∅ 100 []) "c" 3 60
             [30] 2 29 eq_refl eq_refl ltac:(lia) ltac:(lia)
             Hgaps eq_refl ltac:(lia)).
  - exact (rate_limit_window_is_fixed (Redis.Server ∅ 100 []) "c" 3 60
             [30] 2 30 eq_refl eq_refl ltac:(lia) ltac:(lia)
             Hgaps eq_refl ltac:(lia)).
Defined.

(** X3. With [window = 0] the counter is written without expiry
    ([if ttl:] is false for [0], so [set] issues a plain SET): whatever
    time passes after the first requests, the following ones continue
    the same count, and an identifier that reached its limit stays
    denied. *)
Theorem rate_limit_zero_window_never_expires :
  forall (srv : Redis.server) (identifier : string)
         (max_requests : Z) (m n : nat) (dt : Z),
    Redis.faults srv = [] ->
    Redis.lookup srv ("ratelimit:" +:+ identifier) = None ->
    max_requests < 2 ^ 63 ->
    (1 <= m)%nat ->
    allow_then_remaining n identifier max_requests 0
      (elapse dt (after_requests m identifier max_requests 0 (warm srv)))
    = List.map (expected_request max_requests) (seq m n).
Proof.
  intros srv identifier max_requests m n dt quiet fresh Hsmall Hm.
  rewrite (after_requests_zero srv identifier max_requests m
             quiet fresh Hsmall Hm).
  change (elapse dt (warm (counter_at srv identifier ?c ?e)))
    with (warm (counter_at (Redis.advance dt srv) identifier c e)).
  apply requests_from; [reflexivity|assumption|assumption].
Qed.

Lemma rate_limit_zero_window_never_expires_witness :
  let srv := Redis.Server ∅ 100 [] in
  allow_then_remaining 2 "c" 1 0
    (elapse 1000000 (after_requests 1 "c" 1 0 (warm srv)))
  = [(Ok false, Ok 0); (Ok false, Ok 0)].
Proof.
  exact (rate_limit_zero_window_never_expires (Redis.Server ∅ 100 []) "c" 1
           1 2 1000000 eq_refl eq_refl ltac:(lia) ltac:(lia)).
Defined.

(** X4. With a negative window the counter is never created: SETEX
    refuses the time to live, [set] swallows the error, and [is_allowed]
    returns [True] without looking at what [set] returned. Every request
    is allowed, [get_remaining] keeps returning [max_requests], and the
    store is left unchanged. *)
Theorem rate_limit_negative_window_never_counts :
  forall (srv : Redis.server) (identifier : string)
         (max_requests window : Z) (n : nat),
    Redis.faults srv = [] ->
    Redis.lookup srv ("ratelimit:" +:+ identifier) = None ->
    window < 0 ->
    allow_then_remaining n identifier max_requests window (warm srv)
    = repeat (Ok true, Ok max_requests) n
    /\ after_requests n identifier max_requests window (warm srv) = warm srv.
Proof.
  intros srv identifier max_requests window n quiet fresh Hw.
  exact (negative_window_requests srv identifier max_requests window
           quiet fresh n Hw).
Qed.

Lemma rate_limit_negative_window_never_counts_witness :
  let srv := Redis.Server ∅ 100 [] in
  allow_then_remaining 3 "c" 1 (-5) (warm srv)
  = [(Ok true, Ok 1); (Ok true, Ok 1); (Ok true, Ok 1)].
Proof.
  exact (proj1 (rate_limit_negative_window_never_counts
                  (Redis.Server ∅ 100 []) "c" 1 (-5) 3
                  eq_refl eq_refl ltac:(lia))).
Defined.

(** ** [json.loads] after [json.dumps] *)

Section JsonStrings.

Lemma string_body_escape (c : ascii) (r acc : list ascii) :
  Json.string_body (Json.escape c ++ r)%list acc
  = Json.string_body r (c :: acc).
Proof.
  destruct c as [[] [] [] [] [] [] [] []]; reflexivity.
Qed.

Lemma string_body_escaped (cs r acc : list ascii) :
  Json.string_body (flat_map Json.escape cs ++ Py.chr 34 :: r)%list acc
  = Some (string_of_list_ascii (rev acc ++ cs)%list, r).
Proof.
  revert acc. induction cs as [|c cs IH]; intros acc.
  - rewrite app_nil_r. reflexivity.
  - cbn [flat_map]. rewrite <- app_assoc, string_body_escape, IH.
    cbn [rev]. rewrite <- app_assoc. reflexivity.
Qed.

Lemma chars_append (a b : string) :
  list_ascii_of_string (a +:+ b)
  = (list_ascii_of_string a ++ list_ascii_of_string b)%list.
Proof.
  induction a as [|c a IH]; [reflexivity|].
  cbn. rewrite <- IH. reflexivity.
Qed.

Lemma chars_quote (s : string) :
  list_ascii_of_string (Json.quote s)
  = (Py.chr 34 :: flat_map Json.escape (list_ascii_of_string s)
       ++ [Py.chr 34])%list.
Proof.
  unfold Json.quote. rewrite list_ascii_of_string_of_list_ascii. reflexivity.
Qed.

Lemma string_body_quote (s : string) (r : list ascii) :
  Json.string_body
    (flat_map Json.escape (list_ascii_of_string s) ++ [Py.chr 34] ++ r)%list
    []
  = Some (s, r).
Proof.
  cbn [app]. rewrite string_body_escaped. cbn [rev app].
  rewrite string_of_list_ascii_of_string. reflexivity.
Qed.

End JsonStrings.

Section JsonNumbers.

Lemma closes_head (c : ascii) (r : list ascii) :
  closes (c :: r) = true ->
  Py.code c = 44 \/ Py.code c = 93 \/ Py.code c = 125.
Proof.
  cbn [closes]. rewrite !orb_true_iff, !Z.eqb_eq. tauto.
Qed.

Lemma digits_app (ds rest : list ascii) :
  forallb Py.is_digit ds = true ->
  closes rest = true ->
  Json.digits (ds ++ rest)%list = (ds, rest).
Proof.
  intros Hds Hrest. induction ds as [|d ds IH].
  - destruct rest as [|c r]; [reflexivity|].
    apply closes_head in Hrest. cbn [app Json.digits].
    unfold Py.is_digit.
    destruct (Z.leb_spec 48 (Py.code c)), (Z.leb_spec (Py.code c) 57);
      cbn [andb]; try reflexivity; lia.
  - cbn [forallb] in Hds. apply andb_true_iff in Hds as [Hd Hds].
    cbn [app Json.digits]. rewrite Hd, (IH Hds). reflexivity.
Qed.

Lemma value_digit_head (c : ascii) (r : list ascii) (fuel depth : nat) :
  Py.is_digit c = true ->
  Json.value (S fuel) depth (c :: r)
  = match Json.number (c :: r) with
    | Some found => Ok found
    | None => Raise ValueError
    end.
Proof.
  destruct c as [[] [] [] [] [] [] [] []]; intros H;
    try discriminate H; reflexivity.
Qed.

Lemma value_minus_head (c : ascii) (r : list ascii) (fuel depth : nat) :
  Py.is_digit c = true ->
  Json.value (S fuel) depth ("-"%char :: c :: r)
  = match Json.number ("-"%char :: c :: r) with
    | Some found => Ok found
    | None => Raise ValueError
    end.
Proof.
  destruct c as [[] [] [] [] [] [] [] []]; intros H;
    try discriminate H; reflexivity.
Qed.

(** The tail of a number: after the integer part, a closing character
    starts neither a fraction nor an exponent. *)
Lemma number_unsigned (d : ascii) (ds rest : list ascii) :
  forallb Py.is_digit (d :: ds) = true ->
  Py.code d <> 48 ->
  closes rest = true ->
  Json.number (d :: ds ++ rest)%list
  = match Py.int (string_of_list_ascii (d :: ds)) with
    | Ok z => Some (PyInt z, rest)
    | Raise _ => None
    end.
Proof.
  intros Hds Hnz Hrest. unfold Json.number.
  assert (Hd : 48 <= Py.code d <= 57).
  { cbn [forallb] in Hds. apply andb_true_iff in Hds as [Hd _].
    unfold Py.is_digit in Hd. apply andb_true_iff in Hd as [H1 H2].
    apply Z.leb_le in H1, H2. lia. }
  destruct (Z.eqb_spec (Py.code d) 45); [lia|].
  destruct (Z.eqb_spec (Py.code d) 48); [lia|].
  change (d :: ds ++ rest)%list with ((d :: ds) ++ rest)%list.
  rewrite (digits_app (d :: ds) rest Hds Hrest).
  destruct rest as [|c r]; [reflexivity|].
  apply closes_head in Hrest.
  destruct (Z.eqb_spec (Py.code c) 46); [lia|].
  destruct (Z.eqb_spec (Py.code c) 101); [lia|].
  destruct (Z.eqb_spec (Py.code c) 69); [lia|].
  cbn [orb app]. reflexivity.
Qed.

Lemma number_negative (d : ascii) (ds rest : list ascii) :
  forallb Py.is_digit (d :: ds) = true ->
  Py.code d <> 48 ->
  closes rest = true ->
  Json.number ("-"%char :: d :: ds ++ rest)%list
  = match Py.int (string_of_list_ascii ("-"%char :: d :: ds)) with
    | Ok z => Some (PyInt z, rest)
    | Raise _ => None
    end.
Proof.
  intros Hds Hnz Hrest. unfold Json.number.
  change (Py.code "-"%char =? 45) with true. cbv iota.
  destruct (Z.eqb_spec (Py.code d) 48); [lia|].
  change (d :: ds ++ rest)%list with ((d :: ds) ++ rest)%list.
  rewrite (digits_app (d :: ds) rest Hds Hrest).
  destruct rest as [|c r]; [reflexivity|].
  apply closes_head in Hrest.
  destruct (Z.eqb_spec (Py.code c) 46); [lia|].
  destruct (Z.eqb_spec (Py.code c) 101); [lia|].
  destruct (Z.eqb_spec (Py.code c) 69); [lia|].
  cbn [orb app]. reflexivity.
Qed.

Lemma digits_of_nonzero_head (p : positive) :
  exists d ds,
    digits_of (Pos.to_uint p) = d :: ds
    /\ forallb Py.is_digit (d :: ds) = true
    /\ Py.code d <> 48.
Proof.
  pose proof (digits_of_all (Pos.to_uint p)) as Hall.
  pose proof (to_uint_head_nonzero p) as Hnz.
  pose proof (DecimalPos.Unsigned.to_uint_nonnil p) as Hnil.
  destruct (Pos.to_uint p) as [|u|u|u|u|u|u|u|u|u|u];
    [congruence | exfalso; apply (Hnz u); reflexivity | ..];
    unfold digits_of in *;
    cbn [NilEmpty.string_of_uint list_ascii_of_string] in *;
    eexists _, _; (split; [reflexivity|]); (split; [exact Hall|]);
    vm_compute; discriminate.
Qed.

(** An [int] within the digit limit is read back from its text. *)
Lemma value_int (z : Z) (rest : list ascii) (fuel depth : nat) :
  Py.len (Py.str_int (Z.abs z)) <= Py.int_max_str_digits ->
  closes rest = true ->
  Json.value (S fuel) depth
    (list_ascii_of_string (Py.str_int z) ++ rest)%list
  = Ok (PyInt z, rest).
Proof.
  intros Hlen Hrest. pose proof (int_str_int z Hlen) as Hint.
  destruct z as [|p|p].
  - destruct rest as [|c r]; [reflexivity|].
    apply closes_head in Hrest.
    change (list_ascii_of_string (Py.str_int 0) ++ c :: r)%list
      with ("0"%char :: c :: r).
    rewrite value_digit_head by reflexivity.
    unfold Json.number. cbv beta iota zeta.
    change (Py.code "0"%char =? 45) with false. cbv beta iota zeta.
    change (Py.code "0"%char =? 48) with true. cbv beta iota zeta.
    destruct (Z.eqb_spec (Py.code c) 46); [lia|].
    destruct (Z.eqb_spec (Py.code c) 101); [lia|].
    destruct (Z.eqb_spec (Py.code c) 69); [lia|].
    reflexivity.
  - destruct (digits_of_nonzero_head p) as (d & ds & Heq & Hds & Hnz).
    rewrite <- (string_of_list_ascii_of_string (Py.str_int (Z.pos p))) in Hint.
    clear Hlen. rewrite str_int_pos, Heq in *.
    cbn [app]. rewrite value_digit_head
      by (cbn [forallb] in Hds; apply andb_true_iff in Hds; tauto).
    rewrite (number_unsigned d ds rest Hds Hnz Hrest), Hint. reflexivity.
  - destruct (digits_of_nonzero_head p) as (d & ds & Heq & Hds & Hnz).
    rewrite <- (string_of_list_ascii_of_string (Py.str_int (Z.neg p))) in Hint.
    clear Hlen. rewrite str_int_neg, Heq in *.
    cbn [app]. rewrite value_minus_head
      by (cbn [forallb] in Hds; apply andb_true_iff in Hds; tauto).
    rewrite (number_negative d ds rest Hds Hnz Hrest), Hint. reflexivity.
Qed.

Lemma value_null (rest : list ascii) (fuel depth : nat) :
  Json.value (S fuel) depth (list_ascii_of_string "null" ++ rest)%list
  = Ok (PyNone, rest).
Proof. reflexivity. Qed.

Lemma value_bool (b : bool) (rest : list ascii) (fuel depth : nat) :
  Json.value (S fuel) depth
    (list_ascii_of_string (if b then "true" else "false") ++ rest)%list
  = Ok (PyBool b, rest).
Proof. destruct b; reflexivity. Qed.

Lemma value_str (s : string) (rest : list ascii) (fuel depth : nat) :
  Json.value (S fuel) depth (list_ascii_of_string (Json.quote s) ++ rest)%list
  = Ok (PyStr s, rest).
Proof.
  rewrite chars_quote. cbn [app Json.value].
  change (Py.code (Py.chr 34) =? 34) with true. cbv iota.
  rewrite <- app_assoc, string_body_quote. reflexivity.
Qed.

End JsonNumbers.

Section JsonDocuments.

(** What the encoder accepts of an [int]. *)
Lemma dumps_int_ok (depth : nat) (z : Z) (text : string) :
  Json.dumps_in depth (PyInt z) = Ok text ->
  Py.len (Py.str_int (Z.abs z)) <= Py.int_max_str_digits
  /\ text = Py.str_int z.
Proof.
  cbn [Json.dumps_in].
  destruct (Z.ltb_spec Py.int_max_str_digits
              (Py.len (Py.str_int (Z.abs z)))) as [Hlt|Hle];
    [discriminate|].
  intros [= <-]. split; [exact Hle | reflexivity].
Qed.

(** What it refuses: an [int] of more than 4300 digits, and a nesting
    deeper than the recursion limit leaves. *)
Lemma dumps_long_int (depth : nat) (z : Z) :
  10 ^ Z.of_nat 4300 <= Z.abs z ->
  Json.dumps_in depth (PyInt z) = Raise ValueError.
Proof.
  intros Hz. cbn [Json.dumps_in].
  pose proof (long_int_digits z Hz) as Hlen.
  destruct (Z.ltb_spec Py.int_max_str_digits
              (Py.len (Py.str_int (Z.abs z)))); [reflexivity | lia].
Qed.

Lemma dumps_deep_list :
  Json.dumps (Nat.iter 995 (fun v => PyList [v]) PyNone)
  = Raise RecursionError
  /\ Py.is_ok (Json.dumps (Nat.iter 994 (fun v => PyList [v]) PyNone)) = true.
Proof. split; vm_compute; reflexivity. Qed.

Lemma dumps_list_ok (depth : nat) (items : list pyval) (text : string) :
  Json.dumps_in depth (PyList items) = Ok text ->
  exists depth' ss,
    depth = S depth'
    /\ Forall2 (fun v s => Json.dumps_in depth' v = Ok s) items ss
    /\ text = "[" +:+ Py.join ", " ss +:+ "]".
Proof.
  destruct depth as [|depth']; [cbn [Json.dumps_in]; discriminate|].
  cbn [Json.dumps_in].
  match goal with
  | |- match ?e items with _ => _ end = _ -> _ => set (each := e)
  end.
  assert (Heach : forall l ss, each l = Ok ss ->
            Forall2 (fun v s => Json.dumps_in depth' v = Ok s) l ss).
  { induction l as [|x l IH]; intros ss; cbn.
    - intros [= <-]. constructor.
    - destruct (Json.dumps_in depth' x) as [s|e] eqn:Hx;
        destruct (each l) as [ss'|e'] eqn:Hl; try discriminate.
      intros [= <-]. constructor; [exact Hx | apply IH; reflexivity]. }
  destruct (each items) as [ss|e] eqn:Hitems; [|discriminate].
  intros [= <-]. exists depth', ss.
  split; [reflexivity|]. split; [apply Heach; exact Hitems | reflexivity].
Qed.

Lemma dumps_dict_ok (depth : nat) (items : list (string * pyval))
    (text : string) :
  Json.dumps_in depth (PyDict items) = Ok text ->
  exists depth' ss,
    depth = S depth'
    /\ Forall2 (fun kv s => Json.dumps_in depth' (snd kv) = Ok s) items ss
    /\ text
       = "{" +:+ Py.join ", "
                   (List.map
                      (fun ks => Json.quote (fst (fst ks)) +:+ ": " +:+ snd ks)
                      (combine items ss))
             +:+ "}".
Proof.
  destruct depth as [|depth']; [cbn [Json.dumps_in]; discriminate|].
  cbn [Json.dumps_in].
  match goal with
  | |- match ?e items with _ => _ end = _ -> _ => set (each := e)
  end.
  assert (Heach : forall l ts, each l = Ok ts ->
            exists ss,
              Forall2 (fun kv s => Json.dumps_in depth' (snd kv) = Ok s) l ss
              /\ ts = List.map
                        (fun ks => Json.quote (fst (fst ks)) +:+ ": "
                                   +:+ snd ks)
                        (combine l ss)).
  { induction l as [|[k x] l IH]; intros ts; cbn.
    - intros [= <-]. exists []. split; [constructor | reflexivity].
    - destruct (Json.dumps_in depth' x) as [s|e] eqn:Hx;
        destruct (each l) as [ts'|e'] eqn:Hl; try discriminate.
      intros [= <-]. destruct (IH ts' eq_refl) as (ss & Hss & ->).
      exists (s :: ss). split; [constructor; assumption | reflexivity]. }
  destruct (each items) as [ts|e] eqn:Hitems; [|discriminate].
  intros [= <-]. destruct (Heach items ts Hitems) as (ss & Hss & ->).
  exists depth', ss. split; [reflexivity|].
  split; [exact Hss | reflexivity].
Qed.

Lemma distinct_NoDup (keys : list string) :
  distinct keys = true -> NoDup keys.
Proof.
  induction keys as [|k ks IHks]; cbn [distinct]; [constructor|].
  intros H. apply andb_true_iff in H as [Hk Hks].
  apply NoDup_cons. split; [|apply IHks; exact Hks].
  intros Hin. apply negb_true_iff in Hk.
  assert (Hex : existsb (String.eqb k) ks = true).
  { apply existsb_exists. exists k. split.
    - apply list_elem_of_In. exact Hin.
    - apply String.eqb_refl. }
  congruence.
Qed.

Lemma join_cons (sep s : string) (ss : list string) :
  list_ascii_of_string (Py.join sep (s :: ss))
  = (list_ascii_of_string s
       ++ match ss with
          | [] => []
          | _ :: _ =>
              list_ascii_of_string sep
                ++ list_ascii_of_string (Py.join sep ss)
          end)%list.
Proof.
  destruct ss as [|s' ss]; cbn [Py.join].
  - rewrite app_nil_r. reflexivity.
  - rewrite !chars_append. reflexivity.
Qed.

Lemma skip_ws_opens (s : list ascii) :
  opens s = true -> Json.skip_ws s = s.
Proof.
  destruct s as [|c s]; [reflexivity|]. cbn [opens Json.skip_ws].
  destruct (Json.is_ws c); [discriminate | reflexivity].
Qed.

Lemma opens_not_closing (c : ascii) (s : list ascii) :
  opens (c :: s) = true -> Py.code c <> 93 /\ Py.code c <> 125.
Proof.
  cbn [opens]. rewrite !andb_true_iff, !negb_true_iff, !Z.eqb_neq. tauto.
Qed.

Lemma dumps_opens (depth : nat) (v : pyval) (text : string)
    (rest : list ascii) :
  writable v = true ->
  Json.dumps_in depth v = Ok text ->
  opens (list_ascii_of_string text ++ rest)%list = true.
Proof.
  intros Hplain Hdumps. destruct v as [|b|z|lit|s|items|items|name];
    try discriminate Hplain.
  - injection Hdumps as <-. reflexivity.
  - injection Hdumps as <-. destruct b; reflexivity.
  - apply dumps_int_ok in Hdumps as [_ ->]. destruct z as [|p|p].
    + reflexivity.
    + destruct (digits_of_nonzero_head p) as (d & ds & Heq & Hds & _).
      rewrite str_int_pos, Heq. cbn [forallb] in Hds.
      apply andb_true_iff in Hds as [Hd _]. clear Heq.
      destruct d as [[] [] [] [] [] [] [] []]; try discriminate Hd;
        reflexivity.
    + rewrite str_int_neg. reflexivity.
  - injection Hdumps as <-. rewrite chars_quote. reflexivity.
  - apply dumps_list_ok in Hdumps as (depth' & ss & _ & _ & ->). reflexivity.
  - apply dumps_dict_ok in Hdumps as (depth' & ss & _ & _ & ->). reflexivity.
Qed.

End JsonDocuments.

Section JsonLoops.

Variable fuel : nat.
Hypothesis IH :
  forall (m depth : nat) (v : pyval) (text : string) (rest : list ascii),
    (m < fuel)%nat ->
    writable v = true ->
    Json.dumps_in depth v = Ok text ->
    closes rest = true ->
    (cost v <= m)%nat ->
    Json.value m depth (list_ascii_of_string text ++ rest)%list
    = Ok (v, rest).

Lemma items_loop (depth : nat) (vs : list pyval) :
  forall (ss : list string) (acc : list pyval) (f : nat) (rest : list ascii),
    (f < fuel)%nat ->
    vs <> [] ->
    Forall2 (fun v s => Json.dumps_in depth v = Ok s) vs ss ->
    forallb writable vs = true ->
    (list_sum (List.map (fun x => S (cost x)) vs) <= f)%nat ->
    Json.items f depth
      (list_ascii_of_string (Py.join ", " ss) ++ "]"%char :: rest)%list acc
    = Ok (PyList (rev acc ++ vs)%list, rest).
Proof.
  induction vs as [|v vs IHvs]; intros ss acc f rest Hf Hne Hss Hplain Hcost;
    [congruence|].
  inversion Hss as [|v' s vs' ss' Hs Hss' E1 E2]; subst.
  cbn [forallb] in Hplain. apply andb_true_iff in Hplain as [Hv Hvs].
  unfold list_sum in Hcost; cbn [List.map fold_right] in Hcost;
    fold (list_sum (List.map (fun x => S (cost x)) vs)) in Hcost.
  destruct f as [|f]; [lia|]. cbn [Json.items].
  rewrite join_cons, <- app_assoc.
  destruct vs as [|v2 vs].
  - inversion Hss'; subst. cbn [app].
    rewrite (IH f depth v s ("]"%char :: rest)) by (trivial; lia).
    cbn [Json.skip_ws].
    change (Json.is_ws "]"%char) with false. cbv iota.
    change (Py.code "]"%char =? 44) with false.
    change (Py.code "]"%char =? 93) with true. cbv iota.
    cbn [rev]. reflexivity.
  - inversion Hss' as [|v2' s2 vs' ss2 Hs2 Hss2 E1 E2]; subst.
    change (list_ascii_of_string ", ") with [","%char; " "%char].
    rewrite <- app_assoc. cbn [app].
    rewrite (IH f depth v s) by (trivial; lia).
    cbn [Json.skip_ws].
    change (Json.is_ws ","%char) with false. cbv iota.
    change (Py.code ","%char =? 44) with true. cbv iota.
    cbn [Json.skip_ws].
    change (Json.is_ws " "%char) with true. cbv iota.
    assert (Hopen : opens (list_ascii_of_string (Py.join ", " (s2 :: ss2))
                             ++ "]"%char :: rest)%list = true).
    { rewrite join_cons, <- app_assoc.
      cbn [forallb] in Hvs. apply andb_true_iff in Hvs as [Hv2 _].
      apply (dumps_opens depth v2); assumption. }
    rewrite (skip_ws_opens _ Hopen).
    rewrite (IHvs (s2 :: ss2) (v :: acc) f rest); try assumption;
      try lia; try congruence.
    cbn [rev]. rewrite <- app_assoc. reflexivity.
Qed.

Lemma dict_set_fresh {V} (d : list (string * V)) (k : string) (v : V) :
  k ∉ List.map fst d -> Py.dict_set d k v = (d ++ [(k, v)])%list.
Proof.
  induction d as [|[k' v'] d IHd]; intros Hk; [reflexivity|].
  cbn [Py.dict_set List.map fst] in *.
  apply not_elem_of_cons in Hk as [Hne Hk].
  destruct (String.eqb_spec k k'); [congruence|].
  rewrite (IHd Hk). reflexivity.
Qed.

Lemma members_loop (depth : nat) (kvs : list (string * pyval)) :
  forall (ss : list string) (acc : list (string * pyval)) (f : nat)
         (rest : list ascii),
    (f < fuel)%nat ->
    kvs <> [] ->
    Forall2 (fun kv s => Json.dumps_in depth (snd kv) = Ok s) kvs ss ->
    forallb (fun kv => writable (snd kv)) kvs = true ->
    NoDup (List.map fst acc ++ List.map fst kvs)%list ->
    (list_sum (List.map (fun kv => S (cost (snd kv))) kvs) <= f)%nat ->
    Json.members f depth
      (list_ascii_of_string
         (Py.join ", "
            (List.map
               (fun ks => Json.quote (fst (fst ks)) +:+ ": " +:+ snd ks)
               (combine kvs ss)))
         ++ "}"%char :: rest)%list acc
    = Ok (PyDict (acc ++ kvs)%list, rest).
Proof.
  induction kvs as [|[k v] kvs IHkvs];
    intros ss acc f rest Hf Hne Hss Hplain Hnodup Hcost; [congruence|].
  inversion Hss as [|kv' s kvs' ss' Hs Hss' E1 E2]; subst.
  cbn [snd fst] in *.
  cbn [forallb snd] in Hplain. apply andb_true_iff in Hplain as [Hv Hvs].
  unfold list_sum in Hcost; cbn [List.map fold_right snd] in Hcost;
    fold (list_sum (List.map (fun kv => S (cost (snd kv))) kvs)) in Hcost.
  assert (Hk : k ∉ List.map fst acc).
  { cbn [List.map fst] in Hnodup. apply NoDup_app in Hnodup as (_ & Hd & _).
    intros Hin. apply (Hd k Hin). left. }
  assert (Hnodup' : NoDup (List.map fst (acc ++ [(k, v)])
                             ++ List.map fst kvs)%list).
  { rewrite List.map_app, <- app_assoc. exact Hnodup. }
  destruct f as [|f]; [lia|]. cbn [Json.members combine List.map fst snd].
  rewrite join_cons, !chars_append, chars_quote, <- !app_assoc.
  change (list_ascii_of_string ": ") with [":"%char; " "%char].
  cbn [app].
  change (Py.code (Py.chr 34) =? 34) with true. cbv iota.
  rewrite <- (app_assoc (flat_map Json.escape (list_ascii_of_string k))).
  rewrite string_body_quote.
  cbn [Json.skip_ws].
  change (Json.is_ws ":"%char) with false. cbv iota.
  change (Py.code ":"%char =? 58) with true. cbv iota.
  cbn [Json.skip_ws].
  change (Json.is_ws " "%char) with true. cbv iota.
  rewrite (skip_ws_opens _ (dumps_opens depth v s _ Hv Hs)).
  destruct kvs as [|[k2 v2] kvs].
  - inversion Hss'; subst. cbn [combine List.map app].
    rewrite (IH f depth v s ("}"%char :: rest)) by (trivial; lia).
    cbn [Json.skip_ws].
    change (Json.is_ws "}"%char) with false. cbv iota.
    change (Py.code "}"%char =? 44) with false.
    change (Py.code "}"%char =? 125) with true. cbv iota.
    rewrite (dict_set_fresh acc k v Hk). reflexivity.
  - inversion Hss' as [|kv2' s2 kvs' ss2 Hs2 Hss2 E1 E2]; subst.
    cbn [combine List.map].
    change (list_ascii_of_string ", ") with [","%char; " "%char].
    rewrite <- app_assoc. cbn [app].
    rewrite (IH f depth v s) by (trivial; lia).
    cbn [Json.skip_ws].
    change (Json.is_ws ","%char) with false. cbv iota.
    change (Py.code ","%char =? 44) with true. cbv iota.
    cbn [Json.skip_ws].
    change (Json.is_ws " "%char) with true. cbv iota.
    rewrite (dict_set_fresh acc k v Hk).
    specialize (IHkvs (s2 :: ss2) (acc ++ [(k, v)])%list f rest).
    cbn [combine List.map] in IHkvs.
    assert (Hopen : forall tail,
              opens (list_ascii_of_string
                       (Py.join ", "
                          ((Json.quote (fst (fst ((k2, v2), s2))) +:+ ": "
                            +:+ snd ((k2, v2), s2))
                           :: List.map
                                (fun ks => Json.quote (fst (fst ks)) +:+ ": "
                                           +:+ snd ks)
                                (combine kvs ss2)))
                       ++ tail)%list = true).
    { intros tail. rewrite join_cons, !chars_append, chars_quote.
      reflexivity. }
    rewrite (skip_ws_opens _ (Hopen _)).
    rewrite IHkvs; try assumption; try congruence;
      try (cbn [List.map] in Hcost |- *; lia).
    rewrite <- app_assoc. reflexivity.
Qed.

End JsonLoops.

Section JsonRoundTrip.

(** The decoder, given the nesting the encoder had, reads a written
    value back. *)
Lemma value_dumps (fuel : nat) :
  forall (depth : nat) (v : pyval) (text : string) (rest : list ascii),
    writable v = true ->
    Json.dumps_in depth v = Ok text ->
    closes rest = true ->
    (cost v <= fuel)%nat ->
    Json.value fuel depth (list_ascii_of_string text ++ rest)%list
    = Ok (v, rest).
Proof.
  induction fuel as [fuel IH] using lt_wf_ind.
  assert (IH' : forall m depth v text rest, (m < fuel)%nat ->
            writable v = true ->
            Json.dumps_in depth v = Ok text -> closes rest = true ->
            (cost v <= m)%nat ->
            Json.value m depth (list_ascii_of_string text ++ rest)%list
            = Ok (v, rest)).
  { intros m depth v text rest Hm. apply (IH m Hm). }
  clear IH. intros depth v text rest Hplain Hdumps Hrest Hcost.
  destruct fuel as [|f]; [destruct v; cbn [cost] in Hcost; lia|].
  destruct v as [|b|z|lit|s|items|items|name]; try discriminate Hplain.
  - injection Hdumps as <-. apply value_null.
  - injection Hdumps as <-. apply value_bool.
  - apply dumps_int_ok in Hdumps as [Hlen ->]. apply value_int; assumption.
  - injection Hdumps as <-. apply value_str.
  - apply dumps_list_ok in Hdumps as (depth' & ss & -> & Hss & ->).
    cbn [writable] in Hplain. cbn [cost] in Hcost.
    rewrite !chars_append, <- !app_assoc.
    change (list_ascii_of_string "[") with ["["%char].
    change (list_ascii_of_string "]") with ["]"%char].
    cbn [app Json.value].
    change (Py.code "["%char =? 34) with false.
    change (Py.code "["%char =? 91) with true. cbv iota.
    destruct items as [|v vs].
    + inversion Hss; subst. reflexivity.
    + assert (Hopen : opens (list_ascii_of_string (Py.join ", " ss)
                               ++ "]"%char :: rest)%list = true).
      { inversion Hss as [|v' s vs' ss' Hs Hss' E1 E2]; subst.
        rewrite join_cons, <- app_assoc.
        cbn [forallb] in Hplain. apply andb_true_iff in Hplain as [Hv _].
        apply (dumps_opens depth' v); assumption. }
      rewrite (skip_ws_opens _ Hopen).
      pose proof (items_loop (S f) IH' depth' (v :: vs) ss [] f rest)
        as Hloop.
      destruct (list_ascii_of_string (Py.join ", " ss) ++ "]"%char :: rest)%list
        as [|d r'] eqn:Htext; [discriminate Hopen|].
      apply opens_not_closing in Hopen as [Hd _].
      destruct (Z.eqb_spec (Py.code d) 93); [contradiction|].
      apply Hloop; try assumption; try lia; congruence.
  - apply dumps_dict_ok in Hdumps as (depth' & ss & -> & Hss & ->).
    cbn [writable] in Hplain. apply andb_true_iff in Hplain as [Hplain Hkeys].
    cbn [cost] in Hcost.
    rewrite !chars_append, <- !app_assoc.
    change (list_ascii_of_string "{") with ["{"%char].
    change (list_ascii_of_string "}") with ["}"%char].
    cbn [app Json.value].
    change (Py.code "{"%char =? 34) with false.
    change (Py.code "{"%char =? 91) with false.
    change (Py.code "{"%char =? 123) with true. cbv iota.
    destruct items as [|[k v] kvs].
    + inversion Hss; subst. reflexivity.
    + pose proof (members_loop (S f) IH' depth' ((k, v) :: kvs) ss [] f rest)
        as Hloop.
      inversion Hss as [|kv' s kvs' ss' Hs Hss' E1 E2]; subst.
      cbn [combine List.map] in *.
      match goal with
      | |- context [Json.skip_ws ?t] =>
          assert (Hopen : opens t = true)
            by (rewrite join_cons, !chars_append, chars_quote; reflexivity);
          rewrite (skip_ws_opens _ Hopen);
          destruct t as [|d r'] eqn:Htext; [discriminate Hopen|]
      end.
      apply opens_not_closing in Hopen as [_ Hd].
      destruct (Z.eqb_spec (Py.code d) 125); [contradiction|].
      apply Hloop; try assumption; try lia; try congruence.
      apply distinct_NoDup. exact Hkeys.
Qed.

End JsonRoundTrip.

Section JsonFuel.

Lemma length_append (a b : string) :
  String.length (a +:+ b) = (String.length a + String.length b)%nat.
Proof. induction a as [|c a IH]; cbn; [reflexivity | rewrite <- IH; reflexivity]. Qed.

Lemma join_length (cs : list nat) (ss : list string) :
  Forall2 (fun c s => (c <= 2 * String.length s)%nat) cs ss ->
  (list_sum (List.map S cs) <= 2 * String.length (Py.join ", " ss) + 1)%nat.
Proof.
  induction 1 as [|c s cs ss Hc Hcs IH]; [cbn; lia|].
  unfold list_sum in *. cbn [List.map fold_right].
  destruct ss as [|s' ss].
  - inversion Hcs; subst. cbn [List.map fold_right Py.join]. lia.
  - cbn [Py.join] in *. rewrite !length_append.
    change (String.length ", ") with 2%nat. lia.
Qed.

Lemma dumps_nonempty (depth : nat) (v : pyval) (text : string) :
  writable v = true -> Json.dumps_in depth v = Ok text ->
  (1 <= String.length text)%nat.
Proof.
  intros Hplain Hdumps.
  pose proof (dumps_opens depth v text [] Hplain Hdumps) as Hopen.
  destruct text; [discriminate Hopen | cbn; lia].
Qed.

Lemma cost_length (n : nat) :
  forall (depth : nat) (v : pyval) (text : string),
    (cost v <= n)%nat ->
    writable v = true ->
    Json.dumps_in depth v = Ok text ->
    (cost v <= 2 * String.length text)%nat.
Proof.
  induction n as [|n IH]; intros depth v text Hn Hplain Hdumps;
    [destruct v; cbn [cost] in Hn; lia|].
  pose proof (dumps_nonempty depth v text Hplain Hdumps) as Hlen.
  destruct v as [|b|z|lit|s|items|items|name]; try (cbn [cost]; lia).
  - apply dumps_list_ok in Hdumps as (depth' & ss & -> & Hss & ->).
    cbn [writable] in Hplain. cbn [cost] in *.
    assert (Hall : Forall2 (fun c s => (c <= 2 * String.length s)%nat)
                     (List.map cost items) ss).
    { clear Hlen. revert Hplain Hn.
      induction Hss as [|v s vs ss' Hs Hss' IHss]; intros Hplain Hn;
        [constructor|].
      cbn [forallb] in Hplain. apply andb_true_iff in Hplain as [Hv Hvs].
      unfold list_sum in Hn; cbn [List.map fold_right] in Hn;
        fold (list_sum (List.map (fun x => S (cost x)) vs)) in Hn.
      cbn [List.map]. constructor.
      - apply (IH depth'); [lia | assumption | assumption].
      - apply IHss; [assumption | lia]. }
    apply join_length in Hall. rewrite List.map_map in Hall.
    rewrite !length_append. change (String.length "[") with 1%nat. lia.
  - apply dumps_dict_ok in Hdumps as (depth' & ss & -> & Hss & ->).
    cbn [writable] in Hplain. apply andb_true_iff in Hplain as [Hplain _].
    cbn [cost] in *.
    assert (Hall : Forall2 (fun c s => (c <= 2 * String.length s)%nat)
                     (List.map (fun kv => cost (snd kv)) items)
                     (List.map
                        (fun ks => Json.quote (fst (fst ks)) +:+ ": "
                                   +:+ snd ks)
                        (combine items ss))).
    { clear Hlen. revert Hplain Hn.
      induction Hss as [|kv s kvs ss' Hs Hss' IHss]; intros Hplain Hn;
        [constructor|].
      cbn [forallb] in Hplain. apply andb_true_iff in Hplain as [Hv Hvs].
      unfold list_sum in Hn; cbn [List.map fold_right] in Hn;
        fold (list_sum (List.map (fun kv => S (cost (snd kv))) kvs)) in Hn.
      cbn [List.map combine fst snd]. constructor.
      - rewrite !length_append.
        assert (cost (snd kv) <= 2 * String.length s)%nat
          by (apply (IH depth'); [lia | assumption | assumption]).
        lia.
      - apply IHss; [assumption | lia]. }
    apply join_length in Hall. rewrite List.map_map in Hall.
    rewrite !length_append. change (String.length "{") with 1%nat. lia.
Qed.

(** [json.loads(json.dumps(v)) == v], whenever [json.dumps] returns. *)
Lemma loads_dumps (v : pyval) (text : string) :
  writable v = true -> Json.dumps v = Ok text -> Json.loads text = Ok v.
Proof.
  intros Hplain Hdumps. unfold Json.loads. unfold Json.dumps in Hdumps.
  pose proof (dumps_opens _ v text [] Hplain Hdumps) as Hopen.
  rewrite app_nil_r in Hopen. rewrite (skip_ws_opens _ Hopen).
  pose proof (cost_length (cost v) _ v text (le_n _) Hplain Hdumps) as Hcost.
  pose proof (value_dumps (2 * length (list_ascii_of_string text) + 2)
                _ v text [] Hplain Hdumps eq_refl) as Hvalue.
  rewrite app_nil_r in Hvalue. rewrite Hvalue; [reflexivity|].
  rewrite length_chars. lia.
Qed.

Lemma list_max_bound (l : list nat) (n k : nat) :
  (list_max l <= n)%nat -> In k l -> (k <= n)%nat.
Proof.
  intros Hmax Hin. apply list_max_le in Hmax.
  rewrite List.Forall_forall in Hmax. apply Hmax. exact Hin.
Qed.

(** The encoder returns on a writable value that is not nested deeper
    than it may go. *)
Lemma dumps_bounded (n : nat) :
  forall (depth : nat) (v : pyval),
    (cost v <= n)%nat -> writable v = true -> (nesting v <= depth)%nat ->
    exists text, Json.dumps_in depth v = Ok text.
Proof.
  induction n as [|n IH]; intros depth v Hn Hplain Hdepth;
    [destruct v; cbn [cost] in Hn; lia|].
  destruct v as [|b|z|lit|s|items|items|name]; try discriminate Hplain;
    try (eexists; reflexivity).
  - cbn [writable] in Hplain. apply Z.leb_le in Hplain.
    cbn [Json.dumps_in].
    destruct (Z.ltb_spec Py.int_max_str_digits
                (Py.len (Py.str_int (Z.abs z)))); [lia|].
    eexists; reflexivity.
  - cbn [writable] in Hplain. cbn [cost] in Hn. cbn [nesting] in Hdepth.
    destruct depth as [|depth']; [lia|]. apply le_S_n in Hdepth.
    cbn [Json.dumps_in].
    match goal with
    | |- exists _, match ?e items with _ => _ end = _ => set (each := e)
    end.
    assert (Heach : exists ss, each items = Ok ss).
    { revert Hplain Hn Hdepth.
      induction items as [|x l IHl]; intros Hplain Hn Hdepth;
        [exists []; reflexivity|].
      cbn [forallb] in Hplain. apply andb_true_iff in Hplain as [Hx Hl].
      unfold list_sum in Hn; cbn [List.map fold_right] in Hn;
        fold (list_sum (List.map (fun x => S (cost x)) l)) in Hn.
      cbn [List.map list_max fold_right] in Hdepth.
      fold (list_max (List.map nesting l)) in Hdepth.
      destruct (IH depth' x) as [s Hs]; [lia | assumption | lia |].
      destruct IHl as [ss Hss]; [assumption | lia | lia |].
      exists (s :: ss). cbn. rewrite Hs. fold each. rewrite Hss.
      reflexivity. }
    destruct Heach as [ss ->]. eexists; reflexivity.
  - cbn [writable] in Hplain. apply andb_true_iff in Hplain as [Hplain _].
    cbn [cost] in Hn. cbn [nesting] in Hdepth.
    destruct depth as [|depth']; [lia|]. apply le_S_n in Hdepth.
    cbn [Json.dumps_in].
    match goal with
    | |- exists _, match ?e items with _ => _ end = _ => set (each := e)
    end.
    assert (Heach : exists ss, each items = Ok ss).
    { revert Hplain Hn Hdepth.
      induction items as [|[k x] l IHl]; intros Hplain Hn Hdepth;
        [exists []; reflexivity|].
      cbn [forallb snd] in Hplain. apply andb_true_iff in Hplain as [Hx Hl].
      unfold list_sum in Hn; cbn [List.map fold_right snd] in Hn;
        fold (list_sum (List.map (fun kv => S (cost (snd kv))) l)) in Hn.
      cbn [List.map list_max fold_right snd] in Hdepth.
      fold (list_max (List.map (fun kv => nesting (snd kv)) l)) in Hdepth.
      destruct (IH depth' x) as [s Hs]; [lia | assumption | lia |].
      destruct IHl as [ss Hss]; [assumption | lia | lia |].
      eexists. cbn. rewrite Hs. fold each. rewrite Hss.
      reflexivity. }
    destruct Heach as [ss ->]. eexists; reflexivity.
Qed.

(** A plain value is within what the encoder and the decoder take. *)
Lemma plain_writable (v : pyval) :
  plain v = true -> writable v = true /\ (nesting v <= Json.nesting_limit)%nat.
Proof.
  unfold plain. intros H. apply andb_true_iff in H as [Hw Hn].
  apply Nat.leb_le in Hn. split; [exact Hw|].
  apply (Nat.le_trans _ 100); [exact Hn|].
  unfold Json.nesting_limit. apply Nat.leb_le. vm_compute. reflexivity.
Qed.

(** A plain value is written, and read back as it was. *)
Lemma plain_round_trip (v : pyval) :
  plain v = true ->
  exists text, Json.dumps v = Ok text /\ Json.loads text = Ok v.
Proof.
  intros Hplain. apply plain_writable in Hplain as [Hw Hn].
  destruct (dumps_bounded (cost v) _ v (le_n _) Hw Hn) as [text Hdumps].
  exists text. split; [exact Hdumps|].
  apply (loads_dumps v text Hw Hdumps).
Qed.

End JsonFuel.

(** ** The cache: writing, reading, removing *)

Section CacheRoundTrip.

Implicit Types (srv : Redis.server) (key : string) (v : pyval).

Lemma get_quiet srv key :
  Redis.faults srv = [] ->
  RedisCache.get key (warm srv)
  = (Ok (match Redis.lookup srv key with
         | Some e =>
             match Redis.value e with
             | EmptyString => PyNone
             | text =>
                 match Json.loads text with
                 | Ok v => v
                 | Raise _ => PyNone
                 end
             end
         | None => PyNone
         end), warm srv).
Proof.
  intros Hq. unfold RedisCache.get; cbn [connected warm negb].
  unfold try_except, bind. rewrite (client_get_quiet _ _ Hq).
  destruct (Redis.lookup srv key) as [[text expiry]|]; [|reflexivity].
  cbn [Redis.value]. destruct text as [|c text]; [reflexivity|].
  unfold lift. destruct (Json.loads (String c text)); reflexivity.
Qed.

Lemma set_set_quiet srv key v text :
  Redis.faults srv = [] ->
  Json.dumps v = Ok text ->
  RedisCache.set key v None (warm srv) = (Ok true, warm (put srv key text None))
  /\ RedisCache.set key v (Some 0) (warm srv)
     = (Ok true, warm (put srv key text None)).
Proof.
  intros Hq Hdumps.
  unfold RedisCache.set, warm; cbn [connected negb].
  unfold try_except, bind, lift, ret, client, Redis.set.
  rewrite Hdumps. cbn [redis_client connected Z.eqb].
  rewrite (command_quiet _ srv Hq). split; reflexivity.
Qed.

Lemma set_refused srv key v (ttl : Z) :
  Redis.faults srv = [] ->
  ttl < 0 ->
  RedisCache.set key v (Some ttl) (warm srv) = (Ok false, warm srv).
Proof.
  intros Hq Httl.
  unfold RedisCache.set, warm; cbn [connected negb].
  unfold try_except, bind, lift, ret, client, Redis.setex.
  destruct (Json.dumps v) as [text|e]; [|reflexivity].
  destruct (Z.eqb_spec ttl 0); [lia|]. cbn [redis_client connected].
  rewrite (command_quiet _ srv Hq).
  destruct (Z.leb_spec ttl 0); [|lia]. reflexivity.
Qed.

Lemma set_unwritable srv key v (ttl : option Z) (e : exn) :
  Json.dumps v = Raise e ->
  RedisCache.set key v ttl (warm srv) = (Ok false, warm srv).
Proof.
  intros Hdumps.
  unfold RedisCache.set, warm; cbn [connected negb].
  unfold try_except, bind, lift, ret. rewrite Hdumps. reflexivity.
Qed.

Lemma lookup_put_other srv key key' text (expiry : option Z) :
  key' <> key ->
  Redis.lookup (put srv key text expiry) key' = Redis.lookup srv key'.
Proof.
  intros Hne. unfold Redis.lookup, put, Redis.with_db; cbn [Redis.db].
  rewrite lookup_insert_ne by congruence. reflexivity.
Qed.

Lemma lookup_advance_put srv key text (expiry : option Z) (dt : Z) :
  Redis.lookup (Redis.advance dt (put srv key text expiry)) key
  = if Redis.expired (Redis.advance dt srv) (Redis.Entry text expiry)
    then None else Some (Redis.Entry text expiry).
Proof.
  unfold Redis.lookup, put, Redis.with_db, Redis.advance; cbn [Redis.db].
  rewrite lookup_insert_eq. reflexivity.
Qed.

Lemma set_then_get srv key v text (expiry : option Z) (dt : Z) :
  Redis.faults srv = [] ->
  plain v = true ->
  Json.dumps v = Ok text ->
  RedisCache.get key (elapse dt (warm (put srv key text expiry)))
  = (Ok (if Redis.expired (Redis.advance dt srv) (Redis.Entry text expiry)
         then PyNone else v),
     elapse dt (warm (put srv key text expiry))).
Proof.
  intros Hq Hplain Hdumps.
  change (elapse dt (warm (put srv key text expiry)))
    with (warm (Redis.advance dt (put srv key text expiry))).
  rewrite get_quiet by exact Hq. rewrite lookup_advance_put.
  destruct (Redis.expired (Redis.advance dt srv) (Redis.Entry text expiry));
    [reflexivity|].
  cbn [Redis.value].
  destruct (plain_writable v Hplain) as [Hw _].
  pose proof (dumps_nonempty Json.nesting_limit v text Hw Hdumps) as Hlen.
  pose proof (loads_dumps v text Hw Hdumps) as Hloads.
  destruct text as [|c text]; [cbn in Hlen; lia|].
  rewrite Hloads. reflexivity.
Qed.

Lemma get_other srv key key' text (expiry : option Z) (dt : Z) :
  Redis.faults srv = [] ->
  key' <> key ->
  fst (RedisCache.get key' (elapse dt (warm (put srv key text expiry))))
  = fst (RedisCache.get key' (elapse dt (warm srv))).
Proof.
  intros Hq Hne.
  change (elapse dt (warm (put srv key text expiry)))
    with (warm (put (Redis.advance dt srv) key text expiry)).
  change (elapse dt (warm srv)) with (warm (Redis.advance dt srv)).
  rewrite !get_quiet by exact Hq.
  rewrite lookup_put_other by exact Hne. reflexivity.
Qed.

End CacheRoundTrip.

(** X5. [set] then [get]: a plain value, that is [None], a [bool], a
    [str], an [int] of at most 4300 digits, or a list or dict of such
    values with distinct keys, nested at most 100 deep, stored with a
    positive time to live on a reachable store, is what [get] returns
    for that key until [ttl] seconds have passed, and [None] from then
    on. The other keys read as before. (An [int] of more digits makes
    [json.dumps] raise, see [dumps_long_int], and [set] returns
    [False].) *)
Theorem cached_value_lives_for_ttl :
  forall (srv : Redis.server) (key : string) (v : pyval) (ttl dt : Z),
    Redis.faults srv = [] ->
    plain v = true ->
    0 < ttl ->
    let stored := RedisCache.set key v (Some ttl) (warm srv) in
    fst stored = Ok true
    /\ RedisCache.get key (elapse dt (snd stored))
       = (Ok (if dt <? ttl then v else PyNone), elapse dt (snd stored))
    /\ (forall key', key' <> key ->
          fst (RedisCache.get key' (elapse dt (snd stored)))
          = fst (RedisCache.get key' (elapse dt (warm srv)))).
Proof.
  intros srv key v ttl dt Hq Hplain Httl stored. subst stored.
  destruct (plain_round_trip v Hplain) as (text & Hdumps & _).
  rewrite (set_setex_quiet srv key v text ttl Hq Hdumps Httl).
  cbn [fst snd]. split; [reflexivity|]. split.
  - rewrite (set_then_get srv key v text _ dt Hq Hplain Hdumps).
    unfold Redis.expired, Redis.advance; cbn [Redis.expire_at Redis.clock].
    destruct (Z.leb_spec (Redis.clock srv + ttl) (Redis.clock srv + dt)),
             (Z.ltb_spec dt ttl); try lia; reflexivity.
  - intros key' Hne. apply get_other; assumption.
Qed.

Lemma cached_value_lives_for_ttl_witness :
  let srv := Redis.Server ∅ 1000 [] in
  let v := PyDict [("name", PyStr "wolf"); ("hits", PyList [PyInt 3; PyNone])] in
  RedisCache.get "k" (elapse 59 (snd (RedisCache.set "k" v (Some 60) (warm srv))))
  = (Ok v, elapse 59 (snd (RedisCache.set "k" v (Some 60) (warm srv))))
  /\ fst (RedisCache.get "k"
            (elapse 60 (snd (RedisCache.set "k" v (Some 60) (warm srv)))))
     = Ok PyNone.
Proof.
  split.
  - exact (proj1 (proj2 (cached_value_lives_for_ttl
             (Redis.Server ∅ 1000 []) "k"
             (PyDict [("name", PyStr "wolf");
                      ("hits", PyList [PyInt 3; PyNone])])
             60 59 eq_refl eq_refl ltac:(lia)))).
  - exact (f_equal fst (proj1 (proj2 (cached_value_lives_for_ttl
             (Redis.Server ∅ 1000 []) "k"
             (PyDict [("name", PyStr "wolf");
                      ("hits", PyList [PyInt 3; PyNone])])
             60 60 eq_refl eq_refl ltac:(lia))))).
Defined.

(** X6. Without a time to live ([ttl] is [None] or [0]) a plain value
    (as in X5: no [float], no foreign object, [int] of at most 4300
    digits, nested at most 100 deep) is stored with a plain SET and
    never expires: [get] returns it whatever time has passed. *)
Theorem cached_value_without_ttl_persists :
  forall (srv : Redis.server) (key : string) (v : pyval)
         (ttl : option Z) (dt : Z),
    Redis.faults srv = [] ->
    plain v = true ->
    ttl = None \/ ttl = Some 0 ->
    let stored := RedisCache.set key v ttl (warm srv) in
    fst stored = Ok true
    /\ RedisCache.get key (elapse dt (snd stored))
       = (Ok v, elapse dt (snd stored)).
Proof.
  intros srv key v ttl dt Hq Hplain Httl stored. subst stored.
  destruct (plain_round_trip v Hplain) as (text & Hdumps & _).
  destruct (set_set_quiet srv key v text Hq Hdumps) as [Hnone Hzero].
  destruct Httl as [-> | ->]; [rewrite Hnone | rewrite Hzero];
    cbn [fst snd]; (split; [reflexivity|]);
    rewrite (set_then_get srv key v text _ dt Hq Hplain Hdumps);
    reflexivity.
Qed.

Lemma cached_value_without_ttl_persists_witness :
  let srv := Redis.Server ∅ 1000 [] in
  fst (RedisCache.get "k"
         (elapse 1000000
            (snd (RedisCache.set "k" (PyStr "v") (Some 0) (warm srv)))))
  = Ok (PyStr "v").
Proof.
  exact (f_equal fst (proj2 (cached_value_without_ttl_persists
           (Redis.Server ∅ 1000 []) "k" (PyStr "v") (Some 0) 1000000
           eq_refl eq_refl (or_intror eq_refl)))).
Defined.

(** X7. A [set] that cannot be carried out returns [False] and leaves
    the store as it was, the previous value of the key included: when
    the time to live is negative (SETEX refuses it), and when the value
    is one that [json.dumps] cannot write. *)
Theorem failed_set_keeps_store :
  forall (srv : Redis.server) (key : string) (v : pyval) (ttl : option Z),
    Redis.faults srv = [] ->
    (exists seconds, ttl = Some seconds /\ seconds < 0)
    \/ Py.is_ok (Json.dumps v) = false ->
    RedisCache.set key v ttl (warm srv) = (Ok false, warm srv).
Proof.
  intros srv key v ttl Hq [(seconds & -> & Hneg) | Hdumps].
  - apply set_refused; assumption.
  - destruct (Json.dumps v) as [text|e] eqn:He; [discriminate Hdumps|].
    apply (set_unwritable srv key v ttl e He).
Qed.

Lemma failed_set_keeps_store_witness :
  let srv := Redis.Server {[ "k" := Redis.Entry "1" None ]} 0 [] in
  RedisCache.set "k" (PyList [PyInt 2; PyObject "datetime"]) (Some 60)
    (warm srv)
  = (Ok false, warm srv)
  /\ RedisCache.set "k" (PyInt 2) (Some (-1)) (warm srv)
     = (Ok false, warm srv).
Proof.
  split.
  - exact (failed_set_keeps_store
             (Redis.Server {[ "k" := Redis.Entry "1" None ]} 0 []) "k"
             (PyList [PyInt 2; PyObject "datetime"]) (Some 60)
             eq_refl (or_intror eq_refl)).
  - exact (failed_set_keeps_store
             (Redis.Server {[ "k" := Redis.Entry "1" None ]} 0 []) "k"
             (PyInt 2) (Some (-1)) eq_refl
             (or_introl (ex_intro _ (-1) (conj eq_refl eq_refl)))).
Defined.

Section CacheRemoval.

Implicit Types (srv : Redis.server) (key pattern : string).

Lemma lookup_deleted srv key key' :
  Redis.lookup (Redis.with_db srv (base.delete key (Redis.db srv))) key'
  = if String.eqb key' key then None else Redis.lookup srv key'.
Proof.
  unfold Redis.lookup, Redis.with_db; cbn [Redis.db].
  destruct (String.eqb_spec key' key) as [->|Hne].
  - rewrite lookup_delete_eq. reflexivity.
  - rewrite lookup_delete_ne by congruence. reflexivity.
Qed.

Lemma del_state (names : list string) srv :
  Redis.faults (snd (Redis.del names srv)) = Redis.faults srv
  /\ Redis.clock (snd (Redis.del names srv)) = Redis.clock srv.
Proof.
  revert srv. induction names as [|k ks IH]; intros srv; [split; reflexivity|].
  cbn [Redis.del].
  specialize (IH (Redis.with_db srv (base.delete k (Redis.db srv)))).
  destruct (Redis.del ks _) as [n srv']. exact IH.
Qed.

Lemma del_lookup (names : list string) srv key :
  Redis.lookup (snd (Redis.del names srv)) key
  = if existsb (String.eqb key) names then None else Redis.lookup srv key.
Proof.
  revert srv. induction names as [|k ks IH]; intros srv; [reflexivity|].
  cbn [Redis.del existsb].
  specialize (IH (Redis.with_db srv (base.delete k (Redis.db srv)))).
  destruct (Redis.del ks _) as [n srv']. cbn [snd] in *.
  rewrite IH, lookup_deleted.
  destruct (String.eqb key k), (existsb (String.eqb key) ks); reflexivity.
Qed.

Lemma delete_quiet srv key :
  Redis.faults srv = [] ->
  RedisCache.delete key (warm srv)
  = (Ok true, warm (Redis.with_db srv (base.delete key (Redis.db srv)))).
Proof.
  intros Hq. unfold RedisCache.delete, warm; cbn [connected negb].
  unfold try_except, bind, ret, client, Redis.delete.
  cbn [redis_client connected].
  rewrite (command_quiet _ srv Hq). reflexivity.
Qed.

Lemma clear_all_quiet srv :
  Redis.faults srv = [] ->
  RedisCache.clear_all (warm srv) = (Ok true, warm (Redis.with_db srv ∅)).
Proof.
  intros Hq. unfold RedisCache.clear_all, warm; cbn [connected negb].
  unfold try_except, bind, ret, client, Redis.flushdb.
  cbn [redis_client connected].
  rewrite (command_quiet _ srv Hq). reflexivity.
Qed.

Lemma matching_spec pattern srv key :
  existsb (String.eqb key) (matching pattern srv)
  = match Redis.lookup srv key with
    | Some _ => Redis.glob pattern key
    | None => false
    end.
Proof.
  destruct (existsb (String.eqb key) (matching pattern srv)) eqn:Hex.
  - apply existsb_exists in Hex as (k & Hin & Heq).
    apply String.eqb_eq in Heq as <-.
    unfold matching in Hin. apply filter_In in Hin as [_ Hk].
    symmetry. exact Hk.
  - destruct (Redis.lookup srv key) as [e|] eqn:Hlook; [|reflexivity].
    destruct (Redis.glob pattern key) eqn:Hglob; [|reflexivity].
    assert (Hin : In key (matching pattern srv)).
    { unfold matching. apply filter_In. split.
      - apply list_elem_of_In, list_elem_of_fmap.
        unfold Redis.lookup in Hlook.
        destruct (Redis.db srv !! key) as [e'|] eqn:Hdb; [|discriminate].
        exists (key, e'). split; [reflexivity|].
        apply elem_of_map_to_list. exact Hdb.
      - rewrite Hlook. exact Hglob. }
    assert (existsb (String.eqb key) (matching pattern srv) = true).
    { apply existsb_exists. exists key. split; [exact Hin|].
      apply String.eqb_refl. }
    congruence.
Qed.

Lemma clear_pattern_quiet pattern srv :
  Redis.faults srv = [] ->
  exists n,
    RedisCache.clear_pattern pattern (warm srv)
    = (Ok n, warm (snd (Redis.del (matching pattern srv) srv))).
Proof.
  intros Hq. unfold RedisCache.clear_pattern, warm; cbn [connected negb].
  unfold try_except, bind, ret, client, Redis.keys.
  cbn [redis_client connected].
  rewrite (command_quiet _ srv Hq). fold (matching pattern srv).
  destruct (matching pattern srv) as [|k ks] eqn:Hm.
  - exists 0. reflexivity.
  - cbn [redis_client connected]. unfold Redis.delete.
    rewrite (command_quiet _ srv Hq).
    destruct (Redis.del (k :: ks) srv) as [n srv']. exists n. reflexivity.
Qed.

Lemma del_count (names : list string) srv :
  NoDup names ->
  (forall k, In k names -> Redis.lookup srv k <> None) ->
  fst (Redis.del names srv) = Z.of_nat (length names).
Proof.
  revert srv. induction names as [|k ks IH]; intros srv Hnd Hlive;
    [reflexivity|].
  cbn [Redis.del].
  apply NoDup_cons in Hnd as [Hk Hks].
  specialize (IH (Redis.with_db srv (base.delete k (Redis.db srv))) Hks).
  destruct (Redis.del ks _) as [n srv']. cbn [fst] in *.
  rewrite IH.
  - destruct (Redis.lookup srv k) eqn:Hlook;
      [cbn [length]; lia | exfalso; apply (Hlive k); [left; reflexivity|assumption]].
  - intros k' Hin. rewrite lookup_deleted.
    destruct (String.eqb_spec k' k) as [->|Hne].
    + exfalso. apply Hk, list_elem_of_In. exact Hin.
    + apply Hlive. right. exact Hin.
Qed.

Lemma matching_NoDup pattern srv : NoDup (matching pattern srv).
Proof.
  unfold matching. apply NoDup_ListNoDup, List.NoDup_filter, NoDup_ListNoDup.
  apply NoDup_fst_map_to_list.
Qed.

Lemma matching_live pattern srv key :
  In key (matching pattern srv) -> Redis.lookup srv key <> None.
Proof.
  unfold matching. intros Hin. apply filter_In in Hin as [_ Hk].
  destruct (Redis.lookup srv key); [discriminate | discriminate Hk].
Qed.

Lemma clear_pattern_count pattern srv :
  Redis.faults srv = [] ->
  RedisCache.clear_pattern pattern (warm srv)
  = (Ok (Z.of_nat (length (matching pattern srv))),
     warm (snd (Redis.del (matching pattern srv) srv))).
Proof.
  intros Hq. unfold RedisCache.clear_pattern, warm; cbn [connected negb].
  unfold try_except, bind, ret, client, Redis.keys.
  cbn [redis_client connected].
  rewrite (command_quiet _ srv Hq). fold (matching pattern srv).
  pose proof (del_count (matching pattern srv) srv
                (matching_NoDup pattern srv)
                (matching_live pattern srv)) as Hcount.
  destruct (matching pattern srv) as [|k ks] eqn:Hm; [reflexivity|].
  cbn [redis_client connected]. unfold Redis.delete.
  rewrite (command_quiet _ srv Hq).
  destruct (Redis.del (k :: ks) srv) as [n srv']. cbn [fst snd] in *.
  rewrite Hcount. reflexivity.
Qed.

End CacheRemoval.

(** X8. On a reachable store [delete] returns [True] whether or not the
    key was there, and [clear_all] returns [True]; after [delete] the
    key reads as [None] and every other key reads as before, after
    [clear_all] every key reads as [None]. *)
Theorem delete_and_clear_all_forget :
  forall (srv : Redis.server) (key : string),
    Redis.faults srv = [] ->
    let deleted := RedisCache.delete key (warm srv) in
    let cleared := RedisCache.clear_all (warm srv) in
    fst deleted = Ok true
    /\ fst cleared = Ok true
    /\ forall key',
         fst (RedisCache.get key' (snd deleted))
         = (if String.eqb key' key then Ok PyNone
            else fst (RedisCache.get key' (warm srv)))
         /\ fst (RedisCache.get key' (snd cleared)) = Ok PyNone.
Proof.
  intros srv key Hq deleted cleared. subst deleted cleared.
  rewrite (delete_quiet srv key Hq), (clear_all_quiet srv Hq).
  cbn [fst snd]. split; [reflexivity|]. split; [reflexivity|].
  intros key'. rewrite !get_quiet by exact Hq. cbn [fst].
  rewrite lookup_deleted. split.
  - destruct (String.eqb key' key); reflexivity.
  - unfold Redis.lookup, Redis.with_db; cbn [Redis.db].
    rewrite lookup_empty. reflexivity.
Qed.

Lemma delete_and_clear_all_forget_witness :
  let srv := Redis.Server {[ "a" := Redis.Entry "1" None ]} 0 [] in
  fst (RedisCache.delete "missing" (warm srv)) = Ok true
  /\ fst (RedisCache.get "a" (snd (RedisCache.delete "a" (warm srv))))
     = Ok PyNone.
Proof.
  split.
  - exact (proj1 (delete_and_clear_all_forget
                    (Redis.Server {[ "a" := Redis.Entry "1" None ]} 0 [])
                    "missing" eq_refl)).
  - exact (proj1 (proj2 (proj2 (delete_and_clear_all_forget
                    (Redis.Server {[ "a" := Redis.Entry "1" None ]} 0 [])
                    "a" eq_refl)) "a")).
Defined.

(** X9. On a reachable store [clear_pattern] returns the number of live
    keys that match the pattern; afterwards every key that matches the
    pattern reads as [None], and every key that does not match reads as
    before. *)
Theorem clear_pattern_removes_matching_keys :
  forall (srv : Redis.server) (pattern : string),
    Redis.faults srv = [] ->
    let cleared := RedisCache.clear_pattern pattern (warm srv) in
    fst cleared = Ok (Z.of_nat (length (matching pattern srv)))
    /\ forall key,
         fst (RedisCache.get key (snd cleared))
         = if Redis.glob pattern key then Ok PyNone
           else fst (RedisCache.get key (warm srv)).
Proof.
  intros srv pattern Hq cleared. subst cleared.
  rewrite (clear_pattern_count pattern srv Hq). cbn [fst snd].
  split; [reflexivity|]. intros key.
  destruct (del_state (matching pattern srv) srv) as [Hfaults _].
  rewrite !get_quiet by congruence. cbn [fst].
  rewrite del_lookup, matching_spec.
  destruct (Redis.lookup srv key) as [e|]; [|destruct (Redis.glob pattern key); reflexivity].
  destruct (Redis.glob pattern key); reflexivity.
Qed.

Lemma clear_pattern_removes_matching_keys_witness :
  let srv :=
    Redis.Server {[ "stats:a" := Redis.Entry "1" None;
                    "memory:a" := Redis.Entry "2" None ]} 0 [] in
  fst (RedisCache.clear_pattern "stats:*" (warm srv)) = Ok 1
  /\ fst (RedisCache.get "stats:a"
            (snd (RedisCache.clear_pattern "stats:*" (warm srv))))
     = Ok PyNone
  /\ fst (RedisCache.get "memory:a"
            (snd (RedisCache.clear_pattern "stats:*" (warm srv))))
     = Ok (PyInt 2).
Proof.
  pose proof (clear_pattern_removes_matching_keys
                (Redis.Server {[ "stats:a" := Redis.Entry "1" None;
                                 "memory:a" := Redis.Entry "2" None ]} 0 [])
                "stats:*" eq_refl) as [Hcount Hkeys].
  split; [exact Hcount|]. split.
  - exact (Hkeys "stats:a").
  - exact (Hkeys "memory:a").
Defined.

Section FailSoft.

Lemma try_except_returns {A} (body : M A) (default : A) (self : RedisCache.t) :
  Py.is_ok (fst (try_except body (fun _ => ret default) self)) = true.
Proof.
  unfold try_except, ret. destruct (body self) as [[a|e] self'];
    reflexivity.
Qed.

Lemma client_unreachable {A}
    (body : Redis.server -> result A * Redis.server) (srv : Redis.server) :
  Redis.reachable srv = false ->
  client (Redis.command body) (warm srv)
  = (Raise ConnectionError, warm (settled srv)).
Proof.
  unfold Redis.reachable, client, warm, Redis.command, settled.
  destruct srv as [d c [|[] fs]]; cbn; try discriminate. reflexivity.
Qed.

End FailSoft.

(** X10. The five operations of [RedisCache] never raise, in any state
    of the object and of the store: a transport failure, a refused
    command, a stored text that is not JSON, a value that cannot be
    written, even a connected flag without a client, all end in the
    operation's default. *)
Theorem cache_operations_never_raise :
  forall (cache : RedisCache.t) (key pattern : string) (value : pyval)
         (ttl : option Z),
    Py.is_ok (fst (RedisCache.get key cache)) = true
    /\ Py.is_ok (fst (RedisCache.set key value ttl cache)) = true
    /\ Py.is_ok (fst (RedisCache.delete key cache)) = true
    /\ Py.is_ok (fst (RedisCache.clear_pattern pattern cache)) = true
    /\ Py.is_ok (fst (RedisCache.clear_all cache)) = true.
Proof.
  intros cache key pattern value ttl.
  unfold RedisCache.get, RedisCache.set, RedisCache.delete,
    RedisCache.clear_pattern, RedisCache.clear_all.
  destruct (connected cache); cbn [negb];
    repeat split; try reflexivity; apply try_except_returns.
Qed.

(** X11. [RateLimiter] is fail-open only for a cache that was disabled
    at construction. On a connected cache a transport failure of the
    read raises [ConnectionError] from [is_allowed] and from
    [get_remaining]; a counter whose text is not an integer raises
    [ValueError]; a failure of the increment raises [ConnectionError]
    after the read; only a failure of the first write is swallowed (by
    [set]): that request is allowed and no counter is created. *)
Theorem rate_limiter_raises_when_connected :
  forall (srv : Redis.server) (identifier : string)
         (max_requests window : Z),
    let key := "ratelimit:" +:+ identifier in
    (Redis.reachable srv = false ->
       RateLimiter.is_allowed identifier max_requests window (warm srv)
       = (Raise ConnectionError, warm (settled srv))
       /\ RateLimiter.get_remaining identifier max_requests (warm srv)
          = (Raise ConnectionError, warm (settled srv)))
    /\ (forall e,
          Redis.reachable srv = true ->
          Redis.lookup srv key = Some e ->
          Py.int (Redis.value e) = Raise ValueError ->
          RateLimiter.is_allowed identifier max_requests window (warm srv)
          = (Raise ValueError, warm (settled srv))
          /\ RateLimiter.get_remaining identifier max_requests (warm srv)
             = (Raise ValueError, warm (settled srv)))
    /\ (forall e current,
          Redis.reachable srv = true ->
          Redis.reachable (settled srv) = false ->
          Redis.lookup srv key = Some e ->
          Py.int (Redis.value e) = Ok current ->
          current < max_requests ->
          RateLimiter.is_allowed identifier max_requests window (warm srv)
          = (Raise ConnectionError, warm (settled (settled srv))))
    /\ (Redis.reachable srv = true ->
        Redis.reachable (settled srv) = false ->
        Redis.lookup srv key = None ->
        RateLimiter.is_allowed identifier max_requests window (warm srv)
        = (Ok true, warm (settled (settled srv)))).
Proof.
  intros srv identifier max_requests window key. subst key.
  split; [|split; [|split]].
  - intros Hdown. split.
    + unfold RateLimiter.is_allowed; cbn [connected warm negb].
      unfold bind, Redis.get. rewrite (client_unreachable _ _ Hdown).
      reflexivity.
    + unfold RateLimiter.get_remaining; cbn [connected warm negb].
      unfold bind, Redis.get. rewrite (client_unreachable _ _ Hdown).
      reflexivity.
  - intros e Hup Hsome Hint. split.
    + unfold RateLimiter.is_allowed; cbn [connected warm negb].
      unfold bind at 1. rewrite (client_get_reachable _ _ Hup), Hsome.
      unfold bind, lift. rewrite Hint. reflexivity.
    + unfold RateLimiter.get_remaining; cbn [connected warm negb].
      unfold bind at 1. rewrite (client_get_reachable _ _ Hup), Hsome.
      unfold bind, lift. rewrite Hint. reflexivity.
  - intros e current Hup Hdown Hsome Hint Hlt.
    unfold RateLimiter.is_allowed; cbn [connected warm negb].
    unfold bind at 1. rewrite (client_get_reachable _ _ Hup), Hsome.
    unfold bind at 1, lift. rewrite Hint.
    destruct (Z.leb_spec max_requests current); [lia|].
    unfold bind, Redis.incr.
    rewrite (client_unreachable _ _ Hdown). reflexivity.
  - intros Hup Hdown Hnone.
    unfold RateLimiter.is_allowed; cbn [connected warm negb].
    unfold bind at 1. rewrite (client_get_reachable _ _ Hup), Hnone.
    unfold bind at 1. unfold RedisCache.set; cbn [connected warm negb].
    unfold try_except, bind at 1, bind at 1, lift.
    unfold Json.dumps; cbn [Json.dumps_in].
    change (Py.int_max_str_digits <? Py.len (Py.str_int (Z.abs 1)))
      with false. cbv iota.
    destruct (window =? 0); unfold Redis.set, Redis.setex;
      rewrite (client_unreachable _ _ Hdown); reflexivity.
Qed.

Lemma rate_limiter_raises_when_connected_witness :
  let down := Redis.Server ∅ 0 [true] in
  let text := Redis.Server {[ "ratelimit:u" := Redis.Entry "many" None ]} 0 [] in
  let lost := Redis.Server ∅ 0 [false; true] in
  fst (RateLimiter.is_allowed "u" 5 60 (warm down)) = Raise ConnectionError
  /\ fst (RateLimiter.get_remaining "u" 5 (warm text)) = Raise ValueError
  /\ RateLimiter.is_allowed "u" 5 60 (warm lost)
     = (Ok true, warm (Redis.Server ∅ 0 [])).
Proof.
  split; [|split].
  - exact (f_equal fst
             (proj1 (proj1 (rate_limiter_raises_when_connected
                              (Redis.Server ∅ 0 [true]) "u" 5 60)
                           eq_refl))).
  - exact (f_equal fst
             (proj2 (proj1 (proj2 (rate_limiter_raises_when_connected
                     (Redis.Server
                        {[ "ratelimit:u" := Redis.Entry "many" None ]} 0 [])
                     "u" 5 60))
                   (Redis.Entry "many" None) eq_refl eq_refl eq_refl))).
  - exact (proj2 (proj2 (proj2 (rate_limiter_raises_when_connected
                     (Redis.Server ∅ 0 [false; true]) "u" 5 60)))
                 eq_refl eq_refl eq_refl).
Defined.

Section Decorator.

Context {A B : Type} `{Str A} `{Str B}.
Variables (prefix : string) (ttl : Z).
Variables (args : list A) (kwargs : list (string * B)).
Hypothesis free : rebinds kwargs = false.

Let key := _generate_key prefix args kwargs.

Lemma cache_result_hit (func : list A -> list (string * B) -> M pyval)
    (cache cache' : RedisCache.t) (v : pyval) :
  RedisCache.get key cache = (Ok v, cache') ->
  v <> PyNone ->
  cache_result prefix ttl func args kwargs cache = (Ok v, cache').
Proof.
  intros Hget Hv. unfold cache_result. rewrite free.
  unfold bind. fold key. rewrite Hget.
  destruct v; try reflexivity. congruence.
Qed.

Lemma cache_result_miss (func : list A -> list (string * B) -> M pyval)
    (cache cache' : RedisCache.t) :
  RedisCache.get key cache = (Ok PyNone, cache') ->
  cache_result prefix ttl func args kwargs cache
  = match func args kwargs cache' with
    | (Ok v, cache'') => (Ok v, snd (RedisCache.set key v (Some ttl) cache''))
    | (Raise e, cache'') => (Raise e, cache'')
    end.
Proof.
  intros Hget. unfold cache_result. rewrite free.
  unfold bind. fold key. rewrite Hget.
  cbn [Py.is_not_None].
  destruct (func args kwargs cache') as [[v|e] cache'']; [|reflexivity].
  destruct (set_returns key v (Some ttl) cache'') as [b Hb].
  destruct (RedisCache.set key v (Some ttl) cache'') as [r c].
  cbn [fst snd] in *. subst r. reflexivity.
Qed.

(** A keyword argument named [self] or [prefix] stops the wrapper
    before it reads the cache or calls the function. *)
Lemma cache_result_rebinds (func : list A -> list (string * B) -> M pyval)
    (names : list (string * B)) (cache : RedisCache.t) :
  rebinds names = true ->
  cache_result prefix ttl func args names cache = (Raise TypeError, cache).
Proof.
  intros Hnames. unfold cache_result. rewrite Hnames. reflexivity.
Qed.

End Decorator.

(** X12. Memoisation. The call has no keyword argument named [self] or
    [prefix]. On a reachable store with nothing under the key, when
    [func] returns a value other than [None] that [json] writes and
    reads back (a plain value: [None], [bool], [str], [int] of at most
    4300 digits, lists and dicts of these with distinct keys, nested at
    most 100 deep), the wrapper returns it and stores it; a later call
    with the same arguments, less than [ttl] seconds later, returns the
    same value without calling the function: whatever the function
    would do then, raising included, does not matter. *)
Theorem cache_result_memoises :
  forall (A B : Type) (SA : Str A) (SB : Str B)
         (prefix : string) (ttl : Z)
         (func func' : list A -> list (string * B) -> M pyval)
         (args : list A) (kwargs : list (string * B))
         (srv : Redis.server) (v : pyval) (dt : Z),
    rebinds kwargs = false ->
    Redis.faults srv = [] ->
    Redis.lookup srv (_generate_key prefix args kwargs) = None ->
    func args kwargs (warm srv) = (Ok v, warm srv) ->
    plain v = true ->
    v <> PyNone ->
    0 < ttl ->
    dt < ttl ->
    let first := cache_result prefix ttl func args kwargs (warm srv) in
    fst first = Ok v
    /\ cache_result prefix ttl func' args kwargs (elapse dt (snd first))
       = (Ok v, elapse dt (snd first)).
Proof.
  intros A B SA SB prefix ttl func func' args kwargs srv v dt
         Hfree Hq Hnone Hfunc Hplain Hv Httl Hdt first.
  destruct (plain_round_trip v Hplain) as (text & Hdumps & _).
  assert (Hfirst : first
            = (Ok v, warm (put srv (_generate_key prefix args kwargs) text
                               (Some (Redis.clock srv + ttl))))).
  { subst first.
    rewrite (cache_result_miss prefix ttl args kwargs Hfree func (warm srv)
               (warm srv)).
    - rewrite Hfunc, (set_setex_quiet srv _ v text ttl Hq Hdumps Httl).
      reflexivity.
    - rewrite (get_quiet srv _ Hq), Hnone. reflexivity. }
  rewrite Hfirst. cbn [fst snd]. split; [reflexivity|].
  apply cache_result_hit; [exact Hfree | | exact Hv].
  rewrite (set_then_get srv _ v text _ dt Hq Hplain Hdumps).
  unfold Redis.expired, Redis.advance; cbn [Redis.expire_at Redis.clock].
  destruct (Z.leb_spec (Redis.clock srv + ttl) (Redis.clock srv + dt));
    [lia | reflexivity].
Qed.

Lemma cache_result_memoises_witness :
  let srv := Redis.Server ∅ 0 [] in
  let search := fun (_ : list string) (_ : list (string * string)) =>
                  ret (PyList [PyStr "hit"]) : M pyval in
  let broken := fun (_ : list string) (_ : list (string * string)) =>
                  raise ValueError : M pyval in
  fst (cache_result "search" 3600 broken ["wolf"] []
         (elapse 3599
            (snd (cache_result "search" 3600 search ["wolf"] [] (warm srv)))))
  = Ok (PyList [PyStr "hit"]).
Proof.
  exact (f_equal fst
           (proj2 (cache_result_memoises string string _ _ "search" 3600
                     (fun _ _ => ret (PyList [PyStr "hit"]))
                     (fun _ _ => raise ValueError)
                     ["wolf"] [] (Redis.Server ∅ 0 [])
                     (PyList [PyStr "hit"]) 3599
                     eq_refl eq_refl eq_refl eq_refl eq_refl
                     ltac:(discriminate) ltac:(lia) ltac:(lia)))).
Defined.

(** X13. A result of [None] is never served from the cache. For a call
    without a keyword argument named [self] or [prefix], the wrapper
    stores it (as [null]), but a stored [None] reads like a miss, so the
    next call runs the function again and returns what it returns
    then. *)
Theorem cache_result_recomputes_none :
  forall (A B : Type) (SA : Str A) (SB : Str B)
         (prefix : string) (ttl : Z)
         (func func' : list A -> list (string * B) -> M pyval)
         (args : list A) (kwargs : list (string * B))
         (srv : Redis.server) (v' : pyval),
    rebinds kwargs = false ->
    Redis.faults srv = [] ->
    Redis.lookup srv (_generate_key prefix args kwargs) = None ->
    func args kwargs (warm srv) = (Ok PyNone, warm srv) ->
    0 < ttl ->
    let first := cache_result prefix ttl func args kwargs (warm srv) in
    func' args kwargs (snd first) = (Ok v', snd first) ->
    first
    = (Ok PyNone,
       warm (put srv (_generate_key prefix args kwargs) "null"
                 (Some (Redis.clock srv + ttl))))
    /\ fst (cache_result prefix ttl func' args kwargs (snd first)) = Ok v'.
Proof.
  intros A B SA SB prefix ttl func func' args kwargs srv v'
         Hfree Hq Hnone Hfunc Httl first.
  assert (Hfirst : first
            = (Ok PyNone,
               warm (put srv (_generate_key prefix args kwargs) "null"
                         (Some (Redis.clock srv + ttl))))).
  { subst first.
    rewrite (cache_result_miss prefix ttl args kwargs Hfree func (warm srv)
               (warm srv)).
    - rewrite Hfunc,
        (set_setex_quiet srv _ PyNone "null" ttl Hq eq_refl Httl).
      reflexivity.
    - rewrite (get_quiet srv _ Hq), Hnone. reflexivity. }
  rewrite Hfirst. cbn [snd]. intros Hfunc'. split; [reflexivity|].
  rewrite (cache_result_miss prefix ttl args kwargs Hfree func' _
             (warm (put srv (_generate_key prefix args kwargs) "null"
                        (Some (Redis.clock srv + ttl))))).
  - rewrite Hfunc'. reflexivity.
  - pose proof (set_then_get srv (_generate_key prefix args kwargs)
                  PyNone "null" (Some (Redis.clock srv + ttl)) 0
                  Hq eq_refl eq_refl) as Hget.
    assert (Hsame : elapse 0 (warm (put srv
                       (_generate_key prefix args kwargs) "null"
                       (Some (Redis.clock srv + ttl))))
                    = warm (put srv (_generate_key prefix args kwargs) "null"
                                (Some (Redis.clock srv + ttl)))).
    { unfold elapse, warm, Redis.advance, put, Redis.with_db;
        cbn [redis_client connected option_map Redis.db Redis.clock
             Redis.faults].
      rewrite Z.add_0_r. reflexivity. }
    rewrite Hsame in Hget. rewrite Hget.
    destruct (Redis.expired _ _); reflexivity.
Qed.

Lemma cache_result_recomputes_none_witness :
  let srv := Redis.Server ∅ 0 [] in
  let nothing := fun (_ : list string) (_ : list (string * string)) =>
                   ret PyNone : M pyval in
  let found := fun (_ : list string) (_ : list (string * string)) =>
                 ret (PyInt 7) : M pyval in
  fst (cache_result "search" 3600 found ["wolf"] []
         (snd (cache_result "search" 3600 nothing ["wolf"] [] (warm srv))))
  = Ok (PyInt 7).
Proof.
  exact (proj2 (cache_result_recomputes_none string string _ _ "search" 3600
                  (fun _ _ => ret PyNone) (fun _ _ => ret (PyInt 7))
                  ["wolf"] [] (Redis.Server ∅ 0 []) (PyInt 7)
                  eq_refl eq_refl eq_refl eq_refl ltac:(lia) eq_refl)).
Defined.

(** X14. What cannot be cached is still passed on. For a call without
    a keyword argument named [self] or [prefix], on a miss, an
    exception of the function leaves the wrapper as it is and nothing is
    stored; a result that [json.dumps] cannot write is returned to the
    caller, and the store stays as it was. *)
Theorem cache_result_passes_failures_on :
  forall (A B : Type) (SA : Str A) (SB : Str B)
         (prefix : string) (ttl : Z)
         (func : list A -> list (string * B) -> M pyval)
         (args : list A) (kwargs : list (string * B))
         (srv : Redis.server),
    rebinds kwargs = false ->
    Redis.faults srv = [] ->
    Redis.lookup srv (_generate_key prefix args kwargs) = None ->
    (forall e cache',
       func args kwargs (warm srv) = (Raise e, cache') ->
       cache_result prefix ttl func args kwargs (warm srv)
       = (Raise e, cache'))
    /\ (forall v,
          func args kwargs (warm srv) = (Ok v, warm srv) ->
          Py.is_ok (Json.dumps v) = false ->
          cache_result prefix ttl func args kwargs (warm srv)
          = (Ok v, warm srv)).
Proof.
  intros A B SA SB prefix ttl func args kwargs srv Hfree Hq Hnone.
  assert (Hmiss : RedisCache.get (_generate_key prefix args kwargs) (warm srv)
                  = (Ok PyNone, warm srv)).
  { rewrite (get_quiet srv _ Hq), Hnone. reflexivity. }
  split.
  - intros e cache' Hfunc.
    rewrite (cache_result_miss prefix ttl args kwargs Hfree func _ _ Hmiss),
      Hfunc.
    reflexivity.
  - intros v Hfunc Hdumps.
    rewrite (cache_result_miss prefix ttl args kwargs Hfree func _ _ Hmiss),
      Hfunc.
    destruct (Json.dumps v) as [text|e] eqn:He; [discriminate Hdumps|].
    rewrite (set_unwritable srv _ v (Some ttl) e He). reflexivity.
Qed.

Lemma cache_result_passes_failures_on_witness :
  let srv := Redis.Server ∅ 0 [] in
  let broken := fun (_ : list string) (_ : list (string * string)) =>
                  raise ValueError : M pyval in
  let foreign := fun (_ : list string) (_ : list (string * string)) =>
                   ret (PyObject "Memory") : M pyval in
  cache_result "search" 3600 broken ["wolf"] [] (warm srv)
  = (Raise ValueError, warm srv)
  /\ cache_result "search" 3600 foreign ["wolf"] [] (warm srv)
     = (Ok (PyObject "Memory"), warm srv).
Proof.
  split.
  - exact (proj1 (cache_result_passes_failures_on string string _ _
                    "search" 3600 (fun _ _ => raise ValueError)
                    ["wolf"] [] (Redis.Server ∅ 0 [])
                    eq_refl eq_refl eq_refl)
                 ValueError _ eq_refl).
  - exact (proj2 (cache_result_passes_failures_on string string _ _
                    "search" 3600 (fun _ _ => ret (PyObject "Memory"))
                    ["wolf"] [] (Redis.Server ∅ 0 [])
                    eq_refl eq_refl eq_refl)
                 (PyObject "Memory") eq_refl eq_refl).
Defined.

(** X15. With the cache disabled the decorator is transparent for a
    call without a keyword argument named [self] or [prefix]: the
    wrapper returns, or raises, what the function does on every call,
    and leaves the object as the function left it. With such a keyword
    argument the wrapper raises [TypeError] in every state of the cache,
    before the cache is read and without calling the function. *)
Theorem cache_result_disabled_is_transparent :
  forall (A B : Type) (SA : Str A) (SB : Str B)
         (prefix : string) (ttl : Z)
         (func : list A -> list (string * B) -> M pyval)
         (args : list A) (kwargs : list (string * B))
         (cache : RedisCache.t),
    (rebinds kwargs = false ->
     connected cache = false ->
     connected (snd (func args kwargs cache)) = false ->
     cache_result prefix ttl func args kwargs cache = func args kwargs cache)
    /\ (rebinds kwargs = true ->
        cache_result prefix ttl func args kwargs cache
        = (Raise TypeError, cache)).
Proof.
  intros A B SA SB prefix ttl func args kwargs cache. split.
  - intros Hfree Hoff Hkeeps.
    rewrite (cache_result_miss prefix ttl args kwargs Hfree func cache cache
               (disabled_get _ cache Hoff)).
    destruct (func args kwargs cache) as [[v|e] cache'] eqn:Hfunc;
      [|reflexivity].
    cbn [snd] in Hkeeps. rewrite (disabled_set _ v (Some ttl) cache' Hkeeps).
    reflexivity.
  - apply cache_result_rebinds.
Qed.

Lemma cache_result_disabled_is_transparent_witness :
  let off := RedisCache.Make None false in
  let search := fun (_ : list string) (_ : list (string * string)) =>
                  ret (PyInt 1) : M pyval in
  cache_result "search" 3600 search ["wolf"] [] off = (Ok (PyInt 1), off)
  /\ cache_result "search" 3600 search ["wolf"] [("prefix", "x")] off
     = (Raise TypeError, off).
Proof.
  split.
  - exact (proj1 (cache_result_disabled_is_transparent string string _ _
                    "search" 3600 (fun _ _ => ret (PyInt 1)) ["wolf"] []
                    (RedisCache.Make None false))
                 eq_refl eq_refl eq_refl).
  - exact (proj2 (cache_result_disabled_is_transparent string string _ _
                    "search" 3600 (fun _ _ => ret (PyInt 1)) ["wolf"]
                    [("prefix", "x")] (RedisCache.Make None false))
                 eq_refl).
Defined.

(** ** Patterns, typed caches and keys *)

Section GlobFacts.

Lemma stringmatch_literal_star (p s : list ascii) (fuel : nat) :
  forallb
    (fun c => negb ((Py.code c =? 42) || (Py.code c =? 63)
                    || (Py.code c =? 91) || (Py.code c =? 92))) p = true ->
  (length p < fuel)%nat ->
  Redis.stringmatch fuel (p ++ ["*"%char])%list s
  = match Py.after p s with Some _ => true | None => false end.
Proof.
  revert s fuel. induction p as [|c p IH]; intros s fuel Hlit Hfuel.
  - destruct fuel as [|fuel]; [cbn in Hfuel; lia|]. reflexivity.
  - cbn [forallb] in Hlit. apply andb_true_iff in Hlit as [Hc Hp].
    apply negb_true_iff in Hc.
    apply orb_false_iff in Hc as [Hc H92].
    apply orb_false_iff in Hc as [Hc H91].
    apply orb_false_iff in Hc as [H42 H63].
    destruct fuel as [|fuel]; [cbn in Hfuel; lia|].
    cbn [app Redis.stringmatch Py.after]. rewrite H42.
    destruct s as [|d s]; [reflexivity|].
    rewrite H63, H91, H92.
    destruct (Ascii.eqb c d); [|reflexivity].
    apply IH; [exact Hp | cbn [length] in Hfuel; lia].
Qed.

Lemma stringmatch_literal (p s : list ascii) (fuel : nat) :
  forallb
    (fun c => negb ((Py.code c =? 42) || (Py.code c =? 63)
                    || (Py.code c =? 91) || (Py.code c =? 92))) p = true ->
  (length p < fuel)%nat ->
  Redis.stringmatch fuel p s
  = match Py.after p s with Some [] => true | _ => false end.
Proof.
  revert s fuel. induction p as [|c p IH]; intros s fuel Hlit Hfuel.
  - destruct fuel as [|fuel]; [cbn in Hfuel; lia|].
    destruct s; reflexivity.
  - cbn [forallb] in Hlit. apply andb_true_iff in Hlit as [Hc Hp].
    apply negb_true_iff in Hc.
    apply orb_false_iff in Hc as [Hc H92].
    apply orb_false_iff in Hc as [Hc H91].
    apply orb_false_iff in Hc as [H42 H63].
    destruct fuel as [|fuel]; [cbn in Hfuel; lia|].
    cbn [Redis.stringmatch Py.after]. rewrite H42.
    destruct s as [|d s]; [reflexivity|].
    rewrite H63, H91, H92.
    destruct (Ascii.eqb c d); [|reflexivity].
    apply IH; [exact Hp | cbn [length] in Hfuel; lia].
Qed.

Lemma after_prefix (p s : string) :
  match Py.after (list_ascii_of_string p) (list_ascii_of_string s) with
  | Some _ => true
  | None => false
  end = String.prefix p s.
Proof.
  revert s. induction p as [|c p IH]; intros s; [destruct s; reflexivity|].
  destruct s as [|d s]; [reflexivity|].
  cbn [list_ascii_of_string Py.after String.prefix].
  destruct (Ascii.eqb_spec c d) as [->|Hne].
  - destruct (ascii_dec d d); [apply IH | congruence].
  - destruct (ascii_dec c d); [congruence | reflexivity].
Qed.

Lemma after_eqb (p s : string) :
  match Py.after (list_ascii_of_string p) (list_ascii_of_string s) with
  | Some [] => true
  | _ => false
  end = String.eqb s p.
Proof.
  revert s. induction p as [|c p IH]; intros s; [destruct s; reflexivity|].
  destruct s as [|d s]; [reflexivity|].
  cbn [list_ascii_of_string Py.after String.eqb].
  rewrite (Ascii.eqb_sym d c).
  destruct (Ascii.eqb c d); [apply IH | reflexivity].
Qed.

(** A literal text followed by a star matches the keys that start with
    the text. *)
Lemma glob_literal_star (p key : string) :
  literal p = true -> Redis.glob (p +:+ "*") key = String.prefix p key.
Proof.
  intros Hlit. unfold Redis.glob. rewrite chars_append.
  change (list_ascii_of_string "*") with ["*"%char].
  rewrite stringmatch_literal_star; [apply after_prefix | exact Hlit|].
  rewrite length_app. cbn [length]. lia.
Qed.

(** A literal pattern matches itself only. *)
Lemma glob_literal (p key : string) :
  literal p = true -> Redis.glob p key = String.eqb key p.
Proof.
  intros Hlit. unfold Redis.glob.
  rewrite stringmatch_literal; [apply after_eqb | exact Hlit | lia].
Qed.

End GlobFacts.

Section TypedCaches.

Lemma set_get_ttl (srv : Redis.server) (key : string) (v : pyval)
    (ttl dt : Z) :
  Redis.faults srv = [] ->
  plain v = true ->
  0 < ttl ->
  fst (RedisCache.set key v (Some ttl) (warm srv)) = Ok true
  /\ RedisCache.get key
       (elapse dt (snd (RedisCache.set key v (Some ttl) (warm srv))))
     = (Ok (if dt <? ttl then v else PyNone),
        elapse dt (snd (RedisCache.set key v (Some ttl) (warm srv)))).
Proof.
  intros Hq Hplain Httl.
  destruct (plain_round_trip v Hplain) as (text & Hdumps & _).
  rewrite (set_setex_quiet srv key v text ttl Hq Hdumps Httl).
  cbn [fst snd]. split; [reflexivity|].
  rewrite (set_then_get srv key v text _ dt Hq Hplain Hdumps).
  unfold Redis.expired, Redis.advance; cbn [Redis.expire_at Redis.clock].
  destruct (Z.leb_spec (Redis.clock srv + ttl) (Redis.clock srv + dt)),
           (Z.ltb_spec dt ttl); try lia; reflexivity.
Qed.

End TypedCaches.

(** X16. The typed caches read back the plain value they wrote ([int]
    of at most 4300 digits, nested at most 100 deep), each for its own
    time to live: a search result for one hour (under the same query and
    user id, whether the key is hashed or not), a memory object for one
    day, statistics for five minutes, a session for seven days. After
    that time the entry reads as [None]. *)
Theorem typed_caches_round_trip :
  forall (srv : Redis.server) (v : pyval) (dt : Z) (name user_id : string),
    Redis.faults srv = [] ->
    plain v = true ->
    (let cache := snd (MemoryCache.cache_search name v user_id (warm srv)) in
     MemoryCache.get_cached_search name user_id (elapse dt cache)
     = (Ok (if dt <? 3600 then v else PyNone), elapse dt cache))
    /\ (let cache := snd (MemoryCache.cache_memory name v (warm srv)) in
        MemoryCache.get_cached_memory name (elapse dt cache)
        = (Ok (if dt <? 86400 then v else PyNone), elapse dt cache))
    /\ (let cache := snd (MemoryCache.cache_stats name v (warm srv)) in
        MemoryCache.get_cached_stats name (elapse dt cache)
        = (Ok (if dt <? 300 then v else PyNone), elapse dt cache))
    /\ (let cache :=
          snd (SessionManager.create_session user_id v (warm srv)) in
        SessionManager.get_session user_id (elapse dt cache)
        = (Ok (if dt <? 604800 then v else PyNone), elapse dt cache)).
Proof.
  intros srv v dt name user_id Hq Hplain.
  split; [|split; [|split]].
  - apply (set_get_ttl srv _ v 3600 dt Hq Hplain). lia.
  - apply (set_get_ttl srv _ v 86400 dt Hq Hplain). lia.
  - apply (set_get_ttl srv _ v 300 dt Hq Hplain). lia.
  - cbv zeta. unfold SessionManager.create_session, SessionManager.get_session.
    unfold bind, ret.
    destruct (set_get_ttl srv ("session:" +:+ user_id) v
                SessionManager.session_ttl dt Hq Hplain ltac:(reflexivity))
      as [Hset Hget].
    destruct (RedisCache.set ("session:" +:+ user_id) v
                (Some SessionManager.session_ttl) (warm srv)) as [r cache].
    cbn [fst snd] in *. subst r. cbn [snd]. exact Hget.
Qed.

Lemma typed_caches_round_trip_witness :
  let srv := Redis.Server ∅ 0 [] in
  let data := PyDict [("theme", PyStr "dark")] in
  SessionManager.get_session "ann"
    (elapse 604799 (snd (SessionManager.create_session "ann" data (warm srv))))
  = (Ok data,
     elapse 604799 (snd (SessionManager.create_session "ann" data (warm srv)))).
Proof.
  exact (proj2 (proj2 (proj2 (typed_caches_round_trip
           (Redis.Server ∅ 0 []) (PyDict [("theme", PyStr "dark")]) 604799
           "n" "ann" eq_refl eq_refl)))).
Defined.

Section Invalidation.

Lemma clear_pattern_get (srv : Redis.server) (pattern key : string) :
  Redis.faults srv = [] ->
  fst (RedisCache.get key
         (snd (RedisCache.clear_pattern pattern (warm srv))))
  = if Redis.glob pattern key then Ok PyNone
    else fst (RedisCache.get key (warm srv)).
Proof.
  intros Hq. rewrite (clear_pattern_count pattern srv Hq). cbn [snd].
  destruct (del_state (matching pattern srv) srv) as [Hfaults _].
  rewrite !get_quiet by congruence. cbn [fst].
  rewrite del_lookup, matching_spec.
  destruct (Redis.lookup srv key) as [e|];
    destruct (Redis.glob pattern key); reflexivity.
Qed.

Lemma literal_app (a b : string) :
  literal (a +:+ b) = literal a && literal b.
Proof.
  unfold literal. rewrite chars_append, forallb_app. reflexivity.
Qed.

Lemma append_assoc (a b c : string) : (a +:+ b) +:+ c = a +:+ (b +:+ c).
Proof.
  induction a as [|x a IH]; [reflexivity|].
  change (String x ((a +:+ b) +:+ c) = String x (a +:+ (b +:+ c))).
  rewrite IH. reflexivity.
Qed.

Lemma prefix_append (p q : string) : String.prefix p (p +:+ q) = true.
Proof.
  induction p as [|c p IH]; [destruct q; reflexivity|].
  change (String.prefix (String c p) (String c (p +:+ q)) = true).
  cbn [String.prefix]. destruct (ascii_dec c c); [exact IH | congruence].
Qed.

Lemma search_key_short (user_id query : string) :
  Py.len ("search:" +:+ user_id +:+ ":" +:+ query) <= 256 ->
  _generate_key (B := string) "search" [user_id; query] []
  = "search:" +:+ user_id +:+ ":" +:+ query.
Proof.
  intros Hshort.
  assert (Hj : joined_key (B := string) "search" [user_id; query] []
               = "search:" +:+ user_id +:+ ":" +:+ query) by reflexivity.
  unfold _generate_key. rewrite Hj.
  destruct (Z.ltb_spec 256 (Py.len ("search:" +:+ user_id +:+ ":" +:+ query)));
    [lia | reflexivity].
Qed.

End Invalidation.

(** X17. What [invalidate_searches] reaches. For a user id without
    pattern characters it removes exactly the keys that start with
    [search:<user_id>:], and for ["*"] exactly the keys that start with
    [search:]; every other key reads as before. So the searches that the
    user cached under a key of at most 256 characters are gone. *)
Theorem invalidate_searches_scope :
  forall (srv : Redis.server) (user_id : string),
    Redis.faults srv = [] ->
    user_id = "*" \/ literal user_id = true ->
    let cleared := MemoryCache.invalidate_searches user_id (warm srv) in
    let reach :=
      if String.eqb user_id "*" then "search:"
      else "search:" +:+ user_id +:+ ":" in
    (forall key,
       fst (RedisCache.get key (snd cleared))
       = if String.prefix reach key then Ok PyNone
         else fst (RedisCache.get key (warm srv)))
    /\ (forall query,
          literal user_id = true ->
          Py.len ("search:" +:+ user_id +:+ ":" +:+ query) <= 256 ->
          fst (MemoryCache.get_cached_search query user_id (snd cleared))
          = Ok PyNone).
Proof.
  intros srv user_id Hq Huser cleared reach.
  assert (Hkeys : forall key,
            fst (RedisCache.get key (snd cleared))
            = if String.prefix reach key then Ok PyNone
              else fst (RedisCache.get key (warm srv))).
  { intros key. subst cleared reach. unfold MemoryCache.invalidate_searches.
    rewrite (clear_pattern_get srv _ key Hq).
    destruct (String.eqb_spec user_id "*") as [->|Hne]; cbn [negb].
    - change "search:*" with ("search:" +:+ "*").
      rewrite glob_literal_star by reflexivity. reflexivity.
    - destruct Huser as [Hstar|Hlit]; [contradiction|].
      replace ("search:" +:+ user_id +:+ ":*")
        with (("search:" +:+ user_id +:+ ":") +:+ "*").
      + rewrite glob_literal_star; [reflexivity|].
        rewrite !literal_app, Hlit. reflexivity.
      + rewrite !append_assoc. reflexivity. }
  split; [exact Hkeys|].
  intros query Hlit Hshort.
  assert (Hne : String.eqb user_id "*" = false).
  { destruct (String.eqb_spec user_id "*") as [->|]; [discriminate Hlit|].
    reflexivity. }
  unfold MemoryCache.get_cached_search.
  rewrite (search_key_short user_id query Hshort).
  rewrite Hkeys. subst reach. rewrite Hne.
  assert (Hpre : String.prefix ("search:" +:+ user_id +:+ ":")
                   ("search:" +:+ user_id +:+ ":" +:+ query) = true).
  { replace ("search:" +:+ user_id +:+ ":" +:+ query)
      with (("search:" +:+ user_id +:+ ":") +:+ query)
      by (rewrite !append_assoc; reflexivity).
    apply prefix_append. }
  rewrite Hpre. reflexivity.
Qed.

Lemma invalidate_searches_scope_witness :
  let srv :=
    Redis.Server {[ "search:u:wolves" := Redis.Entry "[1]" None;
                    "search:v:foxes" := Redis.Entry "[2]" None ]} 0 [] in
  fst (MemoryCache.get_cached_search "wolves" "u"
         (snd (MemoryCache.invalidate_searches "u" (warm srv))))
  = Ok PyNone
  /\ fst (RedisCache.get "search:v:foxes"
            (snd (MemoryCache.invalidate_searches "u" (warm srv))))
     = Ok (PyList [PyInt 2]).
Proof.
  pose proof (invalidate_searches_scope
                (Redis.Server {[ "search:u:wolves" := Redis.Entry "[1]" None;
                                 "search:v:foxes" := Redis.Entry "[2]" None ]}
                              0 [])
                "u" eq_refl (or_intror eq_refl)) as [Hkeys Hsearch].
  split.
  - exact (Hsearch "wolves" eq_refl ltac:(vm_compute; discriminate)).
  - exact (Hkeys "search:v:foxes").
Defined.

(** X18. What [invalidate_stats] and [invalidate_memory] reach. For a
    key without pattern characters [invalidate_stats] removes the single
    entry [stats:<key>], and for ["*"] every key that starts with
    [stats:]; [invalidate_memory] returns [True] and removes the single
    entry [memory:<id>]. Every other key reads as before. *)
Theorem invalidate_stats_and_memory_scope :
  forall (srv : Redis.server) (name : string),
    Redis.faults srv = [] ->
    name = "*" \/ literal name = true ->
    (let cleared := MemoryCache.invalidate_stats name (warm srv) in
     forall key,
       fst (RedisCache.get key (snd cleared))
       = if (if String.eqb name "*" then String.prefix "stats:" key
             else String.eqb key ("stats:" +:+ name))
         then Ok PyNone
         else fst (RedisCache.get key (warm srv)))
    /\ (let removed := MemoryCache.invalidate_memory name (warm srv) in
        fst removed = Ok true
        /\ forall key,
             fst (RedisCache.get key (snd removed))
             = if String.eqb key ("memory:" +:+ name) then Ok PyNone
               else fst (RedisCache.get key (warm srv))).
Proof.
  intros srv name Hq Hname. split.
  - intros cleared key. subst cleared. unfold MemoryCache.invalidate_stats.
    rewrite (clear_pattern_get srv _ key Hq).
    destruct (String.eqb_spec name "*") as [->|Hne]; cbn [negb].
    + change "stats:*" with ("stats:" +:+ "*").
      rewrite glob_literal_star by reflexivity. reflexivity.
    + destruct Hname as [Hstar|Hlit]; [contradiction|].
      rewrite glob_literal; [reflexivity|].
      rewrite literal_app, Hlit. reflexivity.
  - intros removed. subst removed. unfold MemoryCache.invalidate_memory.
    rewrite (delete_quiet srv _ Hq). cbn [fst snd].
    split; [reflexivity|]. intros key.
    rewrite !get_quiet by exact Hq. cbn [fst]. rewrite lookup_deleted.
    destruct (String.eqb key ("memory:" +:+ name)); reflexivity.
Qed.

Lemma invalidate_stats_and_memory_scope_witness :
  let srv :=
    Redis.Server {[ "stats:daily" := Redis.Entry "1" None;
                    "stats:daily:eu" := Redis.Entry "2" None ]} 0 [] in
  fst (RedisCache.get "stats:daily"
         (snd (MemoryCache.invalidate_stats "daily" (warm srv))))
  = Ok PyNone
  /\ fst (RedisCache.get "stats:daily:eu"
            (snd (MemoryCache.invalidate_stats "daily" (warm srv))))
     = Ok (PyInt 2).
Proof.
  pose proof (proj1 (invalidate_stats_and_memory_scope
                (Redis.Server {[ "stats:daily" := Redis.Entry "1" None;
                                 "stats:daily:eu" := Redis.Entry "2" None ]}
                              0 [])
                "daily" eq_refl (or_intror eq_refl))) as Hkeys.
  split.
  - exact (Hkeys "stats:daily").
  - exact (Hkeys "stats:daily:eu").
Defined.

Section KeyCollisions.

Lemma join_merge (a b : string) (parts : list string) :
  Py.join ":" ((a +:+ ":" +:+ b) :: parts) = Py.join ":" (a :: b :: parts).
Proof.
  destruct parts as [|c parts]; cbn [Py.join]; [reflexivity|].
  rewrite !append_assoc. reflexivity.
Qed.

Lemma join_merge_after (p a b : string) (parts : list string) :
  Py.join ":" (p :: (a +:+ ":" +:+ b) :: parts)
  = Py.join ":" (p :: a :: b :: parts).
Proof.
  change (Py.join ":" (p :: (a +:+ ":" +:+ b) :: parts))
    with (p +:+ ":" +:+ Py.join ":" ((a +:+ ":" +:+ b) :: parts)).
  rewrite join_merge. reflexivity.
Qed.

Lemma joined_key_merge {B} `{Str B} (prefix a b : string)
    (args : list string) (kwargs : list (string * B)) :
  joined_key prefix ((a +:+ ":" +:+ b) :: args) kwargs
  = joined_key prefix (a :: b :: args) kwargs.
Proof.
  unfold joined_key. cbn [List.map app].
  change (str (a +:+ ":" +:+ b)) with (a +:+ ":" +:+ b).
  change (str a) with a. change (str b) with b.
  destruct kwargs; cbn [app]; apply join_merge_after.
Qed.

Lemma set_get_now (srv : Redis.server) (key : string) (v : pyval)
    (ttl : Z) :
  Redis.faults srv = [] ->
  plain v = true ->
  0 < ttl ->
  fst (RedisCache.get key (snd (RedisCache.set key v (Some ttl) (warm srv))))
  = Ok v.
Proof.
  intros Hq Hplain Httl.
  destruct (plain_round_trip v Hplain) as (text & Hdumps & Hloads).
  rewrite (set_setex_quiet srv key v text ttl Hq Hdumps Httl). cbn [snd].
  rewrite get_quiet by exact Hq. cbn [fst].
  rewrite lookup_put
    by (unfold Redis.expired; cbn [Redis.expire_at]; apply Z.leb_gt; lia).
  cbn [Redis.value].
  pose proof (dumps_nonempty Json.nesting_limit v text
                (proj1 (plain_writable v Hplain)) Hdumps) as Hlen.
  destruct text as [|c text]; [cbn in Hlen; lia|].
  rewrite Hloads. reflexivity.
Qed.

Lemma search_key_merge (a b q : string) :
  _generate_key (B := string) "search" [a +:+ ":" +:+ b; q] []
  = _generate_key (B := string) "search" [a; b +:+ ":" +:+ q] [].
Proof.
  unfold _generate_key.
  rewrite (joined_key_merge (B := string) "search" a b [q] []).
  assert (Hj : joined_key (B := string) "search" [a; b; q] []
               = joined_key (B := string) "search"
                   [a; b +:+ ":" +:+ q] []) by reflexivity.
  rewrite Hj. reflexivity.
Qed.

End KeyCollisions.

(** X19. Cache keys do not keep their parts apart. The positional
    arguments [a:b] and [a], [b] give the same key, and so do the
    positional argument [k:v] and the keyword argument [k=v] (for a
    keyword other than [self] and [prefix], which cannot be passed). For the
    search cache this crosses users: the plain value ([int] of at most
    4300 digits, nested at most 100 deep) that user [a] cached for the
    query [b:q] is what user [a:b] gets for the query [q]. *)
Theorem generate_key_collisions :
  forall (prefix a b : string) (args : list string)
         (kwargs : list (string * string)),
    _generate_key prefix ((a +:+ ":" +:+ b) :: args) kwargs
    = _generate_key prefix (a :: b :: args) kwargs
    /\ (rebinds [(a, b)] = false ->
        _generate_key (B := string) prefix [a +:+ ":" +:+ b] []
        = _generate_key (A := string) prefix [] [(a, b)])
    /\ forall (srv : Redis.server) (results : pyval) (q : string),
         Redis.faults srv = [] ->
         plain results = true ->
         fst (MemoryCache.get_cached_search q (a +:+ ":" +:+ b)
                (snd (MemoryCache.cache_search (b +:+ ":" +:+ q) results a
                        (warm srv))))
         = Ok results.
Proof.
  intros prefix a b args kwargs. split; [|split].
  - unfold _generate_key. rewrite joined_key_merge. reflexivity.
  - intros _. reflexivity.
  - intros srv results q Hq Hplain.
    unfold MemoryCache.get_cached_search, MemoryCache.cache_search.
    rewrite search_key_merge.
    apply set_get_now; [assumption | assumption | reflexivity].
Qed.

Lemma generate_key_collisions_witness :
  let srv := Redis.Server ∅ 0 [] in
  fst (MemoryCache.get_cached_search "wolves" "ann:private"
         (snd (MemoryCache.cache_search "private:wolves" (PyList [PyInt 1])
                 "ann" (warm srv))))
  = Ok (PyList [PyInt 1])
  /\ _generate_key (B := string) "p" ["ann:private"] []
     = _generate_key (A := string) "p" [] [("ann", "private")].
Proof.
  split.
  - exact (proj2 (proj2 (generate_key_collisions "p" "ann" "private" [] []))
                 (Redis.Server ∅ 0 []) (PyList [PyInt 1]) "wolves"
                 eq_refl eq_refl).
  - exact (proj1 (proj2 (generate_key_collisions "p" "ann" "private" [] []))
                 eq_refl).
Defined.

(** ** The tracker's invariants and endpoints, and the session listing *)

Section TrackerInvariants.

Implicit Types (self : TimeSyncManager.t) (clk : Clock) (service : string).
Implicit Types (st : TimeSyncManager.t * Clock) (c : Call).

Lemma step_other c st service :
  subject c <> service ->
  TimeSyncManager.sync_records (fst (step c st)) !! service
  = TimeSyncManager.sync_records (fst st) !! service.
Proof.
  destruct st as [self clk]. intros Hne.
  destruct c as [s | s flag | s]; cbn [subject] in Hne; unfold step.
  - unfold TimeSyncManager.register_service; cbn [Time.now fst].
    cbn [TimeSyncManager.with_records TimeSyncManager.sync_records].
    apply lookup_insert_ne. congruence.
  - unfold TimeSyncManager.update_sync, TimeSyncManager.register_service;
      cbn [Time.now].
    destruct (TimeSyncManager.sync_records self !! s); cbn [fst];
      cbn [TimeSyncManager.with_records TimeSyncManager.sync_records];
      apply lookup_insert_ne; congruence.
  - destruct (TimeSyncManager.sync_records self !! s) as [old|] eqn:Hold.
    + rewrite (check_stale_known _ _ _ _ Hold).
      destruct (stale_at self old (fst (Time.now clk))
                && ServiceStatus_eqb (SyncRecord.status old) ACTIVE);
        cbn [fst]; [|reflexivity].
      cbn [TimeSyncManager.with_records TimeSyncManager.sync_records].
      apply lookup_insert_ne. congruence.
    + rewrite (check_stale_unknown _ _ _ Hold). reflexivity.
Qed.

(** The record of the service a call is about, after the call. *)
Lemma step_subject c st :
  TimeSyncManager.sync_records (fst (step c st)) !! subject c
  = match c, TimeSyncManager.sync_records (fst st) !! subject c with
    | Register service, _ =>
        Some (SyncRecord.Make service (fst (Time.now (snd st)))
                (fst (Time.now (snd st))) ACTIVE)
    | UpdateSync service flag, Some old =>
        Some (SyncRecord.Make (SyncRecord.service old)
                (fst (Time.now (snd st)))
                (if flag then fst (Time.now (snd st))
                 else SyncRecord.last_memory_update old)
                ACTIVE)
    | UpdateSync service flag, None =>
        Some (SyncRecord.Make service
                (fst (Time.now (snd (Time.now (snd st)))))
                (fst (Time.now (snd (Time.now (snd st))))) ACTIVE)
    | CheckStale service, Some old =>
        Some (if stale_at (fst st) old (fst (Time.now (snd st)))
                 && ServiceStatus_eqb (SyncRecord.status old) ACTIVE
              then with_status old STALE else old)
    | CheckStale service, None => None
    end.
Proof.
  destruct st as [self clk].
  destruct c as [s | s flag | s]; cbn [subject fst snd]; unfold step.
  - unfold TimeSyncManager.register_service; cbn [Time.now fst].
    cbn [TimeSyncManager.with_records TimeSyncManager.sync_records].
    apply lookup_insert_eq.
  - unfold TimeSyncManager.update_sync, TimeSyncManager.register_service;
      cbn [Time.now].
    destruct (TimeSyncManager.sync_records self !! s); cbn [fst snd];
      cbn [TimeSyncManager.with_records TimeSyncManager.sync_records];
      apply lookup_insert_eq.
  - destruct (TimeSyncManager.sync_records self !! s) as [old|] eqn:Hold.
    + rewrite (check_stale_known _ _ _ _ Hold).
      destruct (stale_at self old (fst (Time.now clk))
                && ServiceStatus_eqb (SyncRecord.status old) ACTIVE);
        cbn [fst]; [|exact Hold].
      cbn [TimeSyncManager.with_records TimeSyncManager.sync_records].
      apply lookup_insert_eq.
    + rewrite (check_stale_unknown _ _ _ Hold). exact Hold.
Qed.

Lemma step_well_formed c st :
  well_formed (fst st) -> well_formed (fst (step c st)).
Proof.
  intros Hwf service record Hrec.
  destruct (decide (subject c = service)) as [<-|Hne].
  - rewrite step_subject in Hrec.
    destruct c as [s | s flag | s]; cbn [subject] in *.
    + injection Hrec as <-. split; [reflexivity | discriminate].
    + destruct (TimeSyncManager.sync_records (fst st) !! s) as [old|] eqn:Hold;
        injection Hrec as <-; cbn [SyncRecord.service SyncRecord.status].
      * split; [apply (Hwf s old Hold) | discriminate].
      * split; [reflexivity | discriminate].
    + destruct (TimeSyncManager.sync_records (fst st) !! s) as [old|] eqn:Hold;
        [|discriminate].
      injection Hrec as <-. destruct (Hwf s old Hold) as [Hname Hstatus].
      destruct (_ && _); [split; [exact Hname | discriminate]|].
      split; assumption.
  - rewrite (step_other c st service Hne) in Hrec. apply (Hwf _ _ Hrec).
Qed.

Lemma step_keeps c st service :
  is_Some (TimeSyncManager.sync_records (fst st) !! service) ->
  is_Some (TimeSyncManager.sync_records (fst (step c st)) !! service).
Proof.
  intros Hsome.
  destruct (decide (subject c = service)) as [<-|Hne].
  - rewrite step_subject. destruct Hsome as [old Hold].
    destruct c as [s | s flag | s]; cbn [subject] in *;
      try rewrite Hold; eauto.
  - rewrite (step_other c st service Hne). exact Hsome.
Qed.

Lemma run_cons c (calls : list Call) st :
  run (c :: calls) st = run calls (step c st).
Proof. reflexivity. Qed.

Lemma run_well_formed (calls : list Call) st :
  well_formed (fst st) -> well_formed (fst (run calls st)).
Proof.
  revert st. induction calls as [|c calls IH]; intros st Hwf; [exact Hwf|].
  rewrite run_cons. apply IH, step_well_formed, Hwf.
Qed.

Lemma run_keeps (calls : list Call) st service :
  is_Some (TimeSyncManager.sync_records (fst st) !! service) ->
  is_Some (TimeSyncManager.sync_records (fst (run calls st)) !! service).
Proof.
  revert st. induction calls as [|c calls IH]; intros st Hsome;
    [exact Hsome|].
  rewrite run_cons. apply IH, step_keeps, Hsome.
Qed.

End TrackerInvariants.

(** X20. Through every sequence of registrations, sync updates and
    staleness checks the tracker keeps its records well formed: each
    record is filed under its own service name and none is ever
    [DISCONNECTED] (the code never assigns that status); and no call
    removes a service: once registered, a service stays registered. *)
Theorem tracker_records_stay_well_formed :
  forall (calls : list Call) (st : TimeSyncManager.t * Clock),
    well_formed (fst st) ->
    well_formed (fst (run calls st))
    /\ forall service,
         is_Some (TimeSyncManager.sync_records (fst st) !! service) ->
         is_Some (TimeSyncManager.sync_records (fst (run calls st))
                    !! service).
Proof.
  intros calls st Hwf. split.
  - apply run_well_formed, Hwf.
  - intros service. apply run_keeps.
Qed.

Lemma tracker_records_stay_well_formed_witness :
  let st := (TimeSyncManager.__init__ 60000, ticking 0 1000000) in
  let calls := [UpdateSync "neo4j" true; CheckStale "neo4j"] in
  well_formed (fst (run calls st)).
Proof.
  refine (proj1 (tracker_records_stay_well_formed
                   [UpdateSync "neo4j" true; CheckStale "neo4j"]
                   (TimeSyncManager.__init__ 60000, ticking 0 1000000) _)).
  intros service record Hrec. cbn in Hrec.
  rewrite lookup_empty in Hrec. discriminate Hrec.
Defined.

Section BuiltinServices.

Lemma sync_manager_run (clk : Clock) :
  sync_manager clk
  = run (List.map Register SERVICES)
        (TimeSyncManager.__init__ TimeSyncManager.default_threshold, clk).
Proof. reflexivity. Qed.

Lemma init_well_formed (threshold : Z) :
  well_formed (TimeSyncManager.__init__ threshold).
Proof.
  intros service record Hrec. cbn in Hrec.
  rewrite lookup_empty in Hrec. discriminate Hrec.
Qed.

Lemma run_app (calls calls' : list Call) (st : TimeSyncManager.t * Clock) :
  run (calls ++ calls')%list st = run calls' (run calls st).
Proof. unfold run. apply fold_left_app. Qed.

Lemma registered_after (services : list string)
    (st : TimeSyncManager.t * Clock) (service : string) :
  In service services ->
  is_Some (TimeSyncManager.sync_records
             (fst (run (List.map Register services) st)) !! service).
Proof.
  revert st. induction services as [|s services IH]; intros st Hin;
    [destruct Hin|].
  cbn [List.map]. rewrite run_cons.
  destruct Hin as [->|Hin]; [|apply IH; exact Hin].
  apply run_keeps.
  pose proof (step_subject (Register service) st) as Hrec.
  cbn [subject] in Hrec. rewrite Hrec. eauto.
Qed.

Lemma size_at_least (m : gmap string SyncRecord.t) (keys : list string) :
  NoDup keys ->
  (forall k, In k keys -> is_Some (m !! k)) ->
  (length keys <= size m)%nat.
Proof.
  intros Hnd Hkeys.
  rewrite <- (size_list_to_set (C := gset string) keys Hnd), <- size_dom.
  apply subseteq_size. intros k Hk.
  apply elem_of_list_to_set, list_elem_of_In in Hk.
  apply elem_of_dom, Hkeys, Hk.
Qed.

End BuiltinServices.

(** X21. The six services registered at import time stay registered:
    after any sequence of calls on the module's tracker each of them
    has a record, so [/health] reports at least six registered
    services, and the records are well formed. *)
Theorem builtin_services_stay_registered :
  forall (clk : Clock) (calls : list Call) (service : string),
    In service SERVICES ->
    let self := fst (run calls (sync_manager clk)) in
    is_Some (TimeSyncManager.sync_records self !! service)
    /\ 6 <= HealthResponse.registered_services (health_check self)
    /\ well_formed self.
Proof.
  intros clk calls service Hin self. subst self.
  rewrite sync_manager_run.
  assert (Hall : forall s, In s SERVICES ->
            is_Some (TimeSyncManager.sync_records
                       (fst (run calls
                               (run (List.map Register SERVICES)
                                  (TimeSyncManager.__init__
                                     TimeSyncManager.default_threshold,
                                   clk)))) !! s)).
  { intros s Hs. apply run_keeps, registered_after, Hs. }
  split; [apply Hall, Hin|]. split.
  - unfold health_check. cbn [HealthResponse.registered_services].
    pose proof (size_at_least _ SERVICES
                  ltac:(apply (bool_decide_unpack _); reflexivity) Hall)
      as Hsize.
    cbn [SERVICES length] in Hsize. lia.
  - apply run_well_formed, run_well_formed, init_well_formed.
Qed.

Lemma builtin_services_stay_registered_witness :
  let clk := ticking 0 1000000 in
  let calls := [CheckStale "pgvector"; Register "extra"] in
  6 <= HealthResponse.registered_services
         (health_check (fst (run calls (sync_manager clk)))).
Proof.
  refine (proj1 (proj2 (builtin_services_stay_registered
                          (ticking 0 1000000)
                          [CheckStale "pgvector"; Register "extra"]
                          "pgvector" _))).
  vm_compute. tauto.
Defined.

Section TrackerFrame.

Lemma run_other (calls : list Call) (st : TimeSyncManager.t * Clock)
    (service : string) :
  Forall (fun c => subject c <> service) calls ->
  TimeSyncManager.sync_records (fst (run calls st)) !! service
  = TimeSyncManager.sync_records (fst st) !! service.
Proof.
  revert st. induction calls as [|c calls IH]; intros st Hall;
    [reflexivity|].
  apply Forall_cons in Hall as [Hc Hall].
  rewrite run_cons, (IH _ Hall). apply step_other, Hc.
Qed.

Lemma check_sync_status_known (service : string) (self : TimeSyncManager.t)
    (clk : Clock) (old : SyncRecord.t) :
  TimeSyncManager.sync_records self !! service = Some old ->
  check_sync_status service self clk
  = (StatusResponse.Make service (stale_at self old (fst (Time.now clk)))
       (Some (if stale_at self old (fst (Time.now clk))
                 && ServiceStatus_eqb (SyncRecord.status old) ACTIVE
              then with_status old STALE else old)),
     fst (step (CheckStale service) (self, clk)),
     snd (Time.now clk)).
Proof.
  intros Hold. unfold check_sync_status, step.
  rewrite (check_stale_known _ _ _ _ Hold).
  unfold TimeSyncManager.get_service_status.
  destruct (stale_at self old (fst (Time.now clk))
            && ServiceStatus_eqb (SyncRecord.status old) ACTIVE);
    cbn [fst snd];
    cbn [TimeSyncManager.with_records TimeSyncManager.sync_records].
  - rewrite lookup_insert_eq. reflexivity.
  - rewrite Hold. reflexivity.
Qed.

End TrackerFrame.

(** X22. A call about one service never touches the record of another:
    through any sequence of calls none of which is about [service], the
    record of [service] stays exactly as it was. *)
Theorem calls_touch_only_their_service :
  forall (calls : list Call) (st : TimeSyncManager.t * Clock)
         (service : string),
    Forall (fun c => subject c <> service) calls ->
    TimeSyncManager.sync_records (fst (run calls st)) !! service
    = TimeSyncManager.sync_records (fst st) !! service.
Proof.
  intros calls st service Hall. apply run_other, Hall.
Qed.

Lemma calls_touch_only_their_service_witness :
  let st := sync_manager (ticking 0 70000000) in
  let calls := [CheckStale "neo4j"; UpdateSync "pgvector" true;
                Register "new"] in
  TimeSyncManager.sync_records (fst (run calls st)) !! "flask-ui"
  = TimeSyncManager.sync_records (fst st) !! "flask-ui".
Proof.
  apply (calls_touch_only_their_service
           [CheckStale "neo4j"; UpdateSync "pgvector" true; Register "new"]
           (sync_manager (ticking 0 70000000)) "flask-ui").
  repeat constructor; discriminate.
Defined.

(** X23. What [/sync/status/{service}] answers. For an unknown service:
    stale, without a record, and without reading the clock. For a known
    service whose record is well formed: when the answer says stale the
    record in the answer has status [STALE], and when it says fresh the
    record is the stored one, unchanged, so a [STALE] status is not
    reset by a check. *)
Theorem check_sync_status_answer :
  forall (service : string) (self : TimeSyncManager.t) (clk : Clock),
    well_formed self ->
    let answer := check_sync_status service self clk in
    let response := fst (fst answer) in
    StatusResponse.service response = service
    /\ match TimeSyncManager.sync_records self !! service with
       | None =>
           StatusResponse.is_stale response = true
           /\ StatusResponse.status response = None
           /\ answer = (response, self, clk)
       | Some old =>
           snd answer = snd (Time.now clk)
           /\ StatusResponse.is_stale response
              = stale_at self old (fst (Time.now clk))
           /\ if StatusResponse.is_stale response
              then StatusResponse.status response
                   = Some (with_status old STALE)
              else StatusResponse.status response = Some old
                   /\ snd (fst answer) = self
       end.
Proof.
  intros service self clk Hwf answer response. subst response answer.
  destruct (TimeSyncManager.sync_records self !! service) as [old|] eqn:Hold.
  - rewrite (check_sync_status_known service self clk old Hold).
    cbn [fst snd StatusResponse.service StatusResponse.is_stale
         StatusResponse.status].
    split; [reflexivity|]. split; [reflexivity|]. split; [reflexivity|].
    unfold step. rewrite (check_stale_known _ _ _ _ Hold).
    destruct (Hwf service old Hold) as [_ Hstatus].
    destruct (stale_at self old (fst (Time.now clk))); cbn [andb fst].
    + destruct old as [name sync memory []]; cbn in *;
        [reflexivity | reflexivity | congruence].
    + split; reflexivity.
  - unfold check_sync_status.
    rewrite (check_stale_unknown _ _ _ Hold).
    unfold TimeSyncManager.get_service_status. rewrite Hold.
    cbn [fst snd StatusResponse.service StatusResponse.is_stale
         StatusResponse.status].
    repeat split.
Qed.

(** The module's tracker, whose clock advances by 70 seconds from one
    reading to the next: [flask-ui] is found stale. *)
Lemma check_sync_status_answer_witness :
  let st := sync_manager (ticking 0 70000000) in
  let response := fst (fst (check_sync_status "flask-ui" (fst st) (snd st))) in
  StatusResponse.is_stale response = true
  /\ StatusResponse.status response
     = Some (SyncRecord.Make "flask-ui" 0 0 STALE).
Proof.
  pose proof (check_sync_status_answer "flask-ui"
                (fst (sync_manager (ticking 0 70000000)))
                (snd (sync_manager (ticking 0 70000000)))
                (run_well_formed (List.map Register SERVICES)
                   (TimeSyncManager.__init__
                      TimeSyncManager.default_threshold,
                    ticking 0 70000000)
                   (init_well_formed _))) as [_ Hanswer].
  change (TimeSyncManager.sync_records
            (fst (sync_manager (ticking 0 70000000))) !! "flask-ui")
    with (Some (SyncRecord.Make "flask-ui" 0 0 ACTIVE)) in Hanswer.
  destruct Hanswer as (_ & Hstale & Hstatus).
  assert (Hnow : stale_at (fst (sync_manager (ticking 0 70000000)))
                   (SyncRecord.Make "flask-ui" 0 0 ACTIVE)
                   (fst (Time.now (snd (sync_manager (ticking 0 70000000)))))
                 = true) by (vm_compute; reflexivity).
  rewrite Hnow in Hstale. rewrite Hstale in Hstatus.
  split; [exact Hstale | exact Hstatus].
Defined.

(** X24. A service is made [ACTIVE] only by a sync update or a
    registration of that very service: if a record is [ACTIVE] after a
    call, either the call was one of these, or the record was [ACTIVE]
    before. A staleness check never revives a service, and no call
    about another service does. *)
Theorem only_sync_makes_active :
  forall (c : Call) (st : TimeSyncManager.t * Clock) (service : string)
         (new : SyncRecord.t),
    TimeSyncManager.sync_records (fst (step c st)) !! service = Some new ->
    SyncRecord.status new = ACTIVE ->
    (c = Register service \/ exists flag, c = UpdateSync service flag)
    \/ exists old,
         TimeSyncManager.sync_records (fst st) !! service = Some old
         /\ SyncRecord.status old = ACTIVE.
Proof.
  intros c st service new Hnew Hactive.
  destruct (decide (subject c = service)) as [<-|Hne].
  - rewrite step_subject in Hnew.
    destruct c as [s | s flag | s]; cbn [subject] in *.
    + left. left. reflexivity.
    + left. right. exists flag. reflexivity.
    + right.
      destruct (TimeSyncManager.sync_records (fst st) !! s) as [old|] eqn:Hold;
        [|discriminate].
      exists old. split; [reflexivity|]. injection Hnew as <-.
      destruct (_ && _); [discriminate Hactive | exact Hactive].
  - right. exists new. rewrite <- (step_other c st service Hne).
    split; assumption.
Qed.

Lemma only_sync_makes_active_witness :
  let st := sync_manager (ticking 0 70000000) in
  let c := UpdateSync "neo4j" false in
  (c = Register "neo4j" \/ exists flag, c = UpdateSync "neo4j" flag)
  \/ exists old,
       TimeSyncManager.sync_records (fst st) !! "neo4j" = Some old
       /\ SyncRecord.status old = ACTIVE.
Proof.
  exact (only_sync_makes_active (UpdateSync "neo4j" false)
           (sync_manager (ticking 0 70000000)) "neo4j"
           (SyncRecord.Make "neo4j" 420000000 350000000 ACTIVE)
           eq_refl eq_refl).
Defined.

Section ActiveSessions.

Lemma replace_from_colon_free (old new s : list ascii) (c : ascii) :
  Py.code c = 58 ->
  In c old ->
  forallb (fun c => negb (Py.code c =? 58)) s = true ->
  Py.replace_from old new s 0 = s.
Proof.
  intros Hc Hin. induction s as [|d s IH]; intros Hfree; [reflexivity|].
  cbn [forallb] in Hfree. apply andb_true_iff in Hfree as [Hd Hs].
  cbn [Py.replace_from].
  destruct (Py.after old (d :: s)) as [r|] eqn:Hafter.
  - exfalso.
    assert (Hall : forall (o t r : list ascii),
              Py.after o t = Some r -> forall x, In x o -> In x t).
    { clear. induction o as [|a o IHo]; intros t r Ha x Hx; [destruct Hx|].
      destruct t as [|b t]; [discriminate Ha|]. cbn [Py.after] in Ha.
      destruct (Ascii.eqb_spec a b) as [->|]; [|discriminate Ha].
      destruct Hx as [->|Hx]; [left; reflexivity|].
      right. apply (IHo t r Ha x Hx). }
    pose proof (Hall old (d :: s) r Hafter c Hin) as Hcs.
    assert (Hfree : forallb (fun c => negb (Py.code c =? 58)) (d :: s) = true)
      by (cbn [forallb]; rewrite Hd, Hs; reflexivity).
    rewrite forallb_forall in Hfree. specialize (Hfree c Hcs).
    rewrite Hc in Hfree. discriminate Hfree.
  - rewrite (IH Hs). reflexivity.
Qed.

Lemma after_app (old s : list ascii) : Py.after old (old ++ s)%list = Some s.
Proof.
  induction old as [|a old IH]; [destruct s; reflexivity|].
  cbn [app Py.after]. rewrite Ascii.eqb_refl. exact IH.
Qed.

Lemma replace_from_skip (old new p s : list ascii) :
  Py.replace_from old new (p ++ s)%list (length p)
  = Py.replace_from old new s 0.
Proof.
  induction p as [|c p IH]; [destruct s; reflexivity|].
  cbn [app length Py.replace_from]. exact IH.
Qed.

Lemma replace_from_prefix (a : ascii) (old new s : list ascii) :
  Py.replace_from (a :: old) new ((a :: old) ++ s)%list 0
  = (new ++ Py.replace_from (a :: old) new s 0)%list.
Proof.
  pose proof (after_app (a :: old) s) as Hafter.
  cbn [app] in *. cbn [Py.replace_from]. rewrite Hafter.
  cbn [length]. rewrite Nat.sub_succ, Nat.sub_0_r.
  rewrite replace_from_skip. reflexivity.
Qed.

Lemma replace_session (user_id : string) :
  colon_free user_id = true ->
  Py.replace "session:" EmptyString ("session:" +:+ user_id) = user_id
  /\ Py.replace "session:" EmptyString ("session:session:" +:+ user_id)
     = user_id.
Proof.
  intros Hfree. unfold Py.replace.
  assert (Hrest : Py.replace_from (list_ascii_of_string "session:") []
                    (list_ascii_of_string user_id) 0
                  = list_ascii_of_string user_id).
  { apply (replace_from_colon_free _ _ _ ":"%char);
      [reflexivity | cbn; tauto | exact Hfree]. }
  change (list_ascii_of_string "") with (@nil ascii).
  split.
  - rewrite chars_append.
    change (list_ascii_of_string "session:")
      with ("s"%char :: list_ascii_of_string "ession:") in *.
    rewrite replace_from_prefix, Hrest. cbn [app].
    apply string_of_list_ascii_of_string.
  - change ("session:session:" +:+ user_id)
      with ("session:" +:+ ("session:" +:+ user_id)).
    rewrite !chars_append.
    change (list_ascii_of_string "session:")
      with ("s"%char :: list_ascii_of_string "ession:") in *.
    rewrite !replace_from_prefix, Hrest. cbn [app].
    apply string_of_list_ascii_of_string.
Qed.

End ActiveSessions.

Section SessionListing.

Lemma matching_In (pattern key : string) (srv : Redis.server) :
  In key (matching pattern srv)
  <-> Redis.lookup srv key <> None /\ Redis.glob pattern key = true.
Proof.
  pose proof (matching_spec pattern srv key) as Hspec. split.
  - intros Hin.
    assert (Hex : existsb (String.eqb key) (matching pattern srv) = true).
    { apply existsb_exists. exists key. split; [exact Hin|].
      apply String.eqb_refl. }
    rewrite Hex in Hspec.
    destruct (Redis.lookup srv key); [|discriminate Hspec].
    split; [discriminate | symmetry; exact Hspec].
  - intros [Hlive Hglob]. rewrite Hglob in Hspec.
    destruct (Redis.lookup srv key); [|contradiction].
    apply existsb_exists in Hspec as (k & Hin & Heq).
    apply String.eqb_eq in Heq as <-. exact Hin.
Qed.

Lemma get_active_sessions_quiet (srv : Redis.server) :
  Redis.faults srv = [] ->
  SessionManager.get_active_sessions (warm srv)
  = (Ok (List.map (fun key => Py.replace "session:" EmptyString key)
                  (matching "session:*" srv)),
     warm srv).
Proof.
  intros Hq. unfold SessionManager.get_active_sessions, warm;
    cbn [connected negb].
  unfold try_except, bind, ret, client, Redis.keys.
  cbn [redis_client connected].
  rewrite (command_quiet _ srv Hq). reflexivity.
Qed.

Lemma session_key_matches (rest : string) :
  Redis.glob "session:*" ("session:" +:+ rest) = true.
Proof.
  change "session:*" with ("session:" +:+ "*").
  rewrite glob_literal_star by reflexivity. apply prefix_append.
Qed.

End SessionListing.

(** X25. [get_active_sessions] lists the live keys that start with
    [session:], each with every occurrence of [session:] removed. So a
    user id without a colon is listed when that user has a live session,
    but also when only the key [session:session:<id>] is live, which is
    the session of the user [session:<id>]. When the store cannot be
    reached, or the cache is disabled, the list is empty and nothing is
    raised. *)
Theorem active_sessions_listing :
  forall (srv : Redis.server) (user_id : string),
    (Redis.faults srv = [] ->
     colon_free user_id = true ->
     exists names,
       SessionManager.get_active_sessions (warm srv) = (Ok names, warm srv)
       /\ (Redis.lookup srv ("session:" +:+ user_id) <> None ->
           In user_id names)
       /\ (Redis.lookup srv ("session:session:" +:+ user_id) <> None ->
           In user_id names)
       /\ forall name,
            In name names ->
            exists key,
              Redis.lookup srv key <> None
              /\ String.prefix "session:" key = true
              /\ name = Py.replace "session:" EmptyString key)
    /\ (Redis.reachable srv = false ->
        SessionManager.get_active_sessions (warm srv)
        = (Ok [], warm (settled srv)))
    /\ (forall cache,
          connected cache = false ->
          SessionManager.get_active_sessions cache = (Ok [], cache)).
Proof.
  intros srv user_id. split; [|split].
  - intros Hq Hfree. eexists. split; [apply get_active_sessions_quiet, Hq|].
    destruct (replace_session user_id Hfree) as [Hone Htwo].
    split; [|split].
    + intros Hlive. apply in_map_iff.
      exists ("session:" +:+ user_id). split; [exact Hone|].
      apply matching_In. split; [exact Hlive | apply session_key_matches].
    + intros Hlive. apply in_map_iff.
      exists ("session:session:" +:+ user_id). split; [exact Htwo|].
      apply matching_In. split; [exact Hlive|].
      apply (session_key_matches ("session:" +:+ user_id)).
    + intros name Hin. apply in_map_iff in Hin as (key & <- & Hkey).
      apply matching_In in Hkey as [Hlive Hglob].
      exists key. split; [exact Hlive|]. split; [|reflexivity].
      change "session:*" with ("session:" +:+ "*") in Hglob.
      rewrite glob_literal_star in Hglob by reflexivity. exact Hglob.
  - intros Hdown. unfold SessionManager.get_active_sessions;
      cbn [connected warm negb].
    unfold try_except, bind, Redis.keys.
    rewrite (client_unreachable _ _ Hdown). reflexivity.
  - intros cache Hoff. unfold SessionManager.get_active_sessions.
    rewrite Hoff. reflexivity.
Qed.

Lemma active_sessions_listing_witness :
  let srv :=
    snd (SessionManager.create_session "session:bob" (PyDict [])
           (warm (Redis.Server ∅ 0 []))) in
  exists names,
    SessionManager.get_active_sessions srv = (Ok names, srv)
    /\ In "bob" names.
Proof.
  destruct (proj1 (active_sessions_listing
                     (Redis.Server
                        {[ "session:session:bob"
                           := Redis.Entry "{}" (Some 604800) ]} 0 [])
                     "bob") eq_refl eq_refl)
    as (names & Hlist & _ & Hbob & _).
  exists names. split; [exact Hlist|].
  apply Hbob. vm_compute. discriminate.
Defined.

(** ** How the caches compose *)

Section Composition.

Lemma generate_key_2_prefix (prefix a b : string) :
  String.prefix (prefix +:+ ":")
    (_generate_key (B := string) prefix [a; b] []) = true.
Proof.
  unfold _generate_key.
  assert (Hj : joined_key (B := string) prefix [a; b] []
               = (prefix +:+ ":") +:+ (a +:+ ":" +:+ b)).
  { unfold joined_key. cbn [List.map app Py.join].
    change (str a) with a. change (str b) with b.
    rewrite append_assoc. reflexivity. }
  rewrite Hj.
  destruct (256 <? Py.len _).
  - replace (prefix +:+ ":" +:+ Md5.hexdigest
               (Py.encode ((prefix +:+ ":") +:+ a +:+ ":" +:+ b)))
      with ((prefix +:+ ":") +:+ Md5.hexdigest
               (Py.encode ((prefix +:+ ":") +:+ a +:+ ":" +:+ b)))
      by (rewrite append_assoc; reflexivity).
    apply prefix_append.
  - apply prefix_append.
Qed.

Lemma lookup_flushed (srv : Redis.server) (key : string) :
  Redis.lookup (Redis.with_db srv ∅) key = None.
Proof.
  unfold Redis.lookup, Redis.with_db; cbn [Redis.db].
  rewrite lookup_empty. reflexivity.
Qed.

End Composition.

(** X26. [invalidate_searches("*")] reaches every cached search, the
    ones stored under a hashed key included: every key that
    [cache_search] writes starts with [search:], whatever the query and
    the user id, so after the call [get_cached_search] returns [None]
    for every query and every user. *)
Theorem invalidate_all_searches_reaches_hashed_keys :
  forall (srv : Redis.server) (query user_id : string),
    Redis.faults srv = [] ->
    String.prefix "search:"
      (_generate_key (B := string) "search" [user_id; query] []) = true
    /\ fst (MemoryCache.get_cached_search query user_id
              (snd (MemoryCache.invalidate_searches "*" (warm srv))))
       = Ok PyNone.
Proof.
  intros srv query user_id Hq.
  pose proof (generate_key_2_prefix "search" user_id query) as Hpre.
  split; [exact Hpre|].
  unfold MemoryCache.get_cached_search, MemoryCache.invalidate_searches.
  cbn [String.eqb Ascii.eqb Bool.eqb negb].
  rewrite (clear_pattern_get srv "search:*" _ Hq).
  change "search:*" with ("search:" +:+ "*").
  rewrite glob_literal_star by reflexivity.
  change ("search" +:+ ":") with "search:" in Hpre.
  rewrite Hpre. reflexivity.
Qed.

Lemma invalidate_all_searches_reaches_hashed_keys_witness :
  let cache :=
    snd (MemoryCache.cache_search long_query (PyList [PyInt 1]) "u"
           (warm (Redis.Server ∅ 0 []))) in
  fst (MemoryCache.get_cached_search long_query "u" cache)
  = Ok (PyList [PyInt 1])
  /\ fst (MemoryCache.get_cached_search long_query "u"
            (snd (MemoryCache.invalidate_searches "*" cache)))
     = Ok PyNone.
Proof.
  split; [vm_compute; reflexivity|].
  exact (proj2 (invalidate_all_searches_reaches_hashed_keys
                  (Redis.Server
                     {[ "search:94d64b6feda7bbf73dfd3d112d4a74d1"
                        := Redis.Entry "[1]" (Some 3600) ]} 0 [])
                  long_query "u" eq_refl)).
Defined.

(** X27. The caches share one store, so [clear_all] also resets every
    rate limit and ends every session: after it, on a reachable store,
    each identifier starts a new window whatever its count was, no
    session is listed as active, and every session reads as [None]. *)
Theorem clear_all_resets_limits_and_sessions :
  forall (srv : Redis.server) (identifier user_id : string)
         (max_requests window : Z) (n : nat),
    Redis.faults srv = [] ->
    0 < window ->
    max_requests < 2 ^ 63 ->
    let cache := snd (RedisCache.clear_all (warm srv)) in
    allow_then_remaining n identifier max_requests window cache
    = List.map (expected_request max_requests) (seq 0 n)
    /\ fst (SessionManager.get_active_sessions cache) = Ok []
    /\ fst (SessionManager.get_session user_id cache) = Ok PyNone.
Proof.
  intros srv identifier user_id max_requests window n Hq Hw Hsmall cache.
  subst cache. rewrite (clear_all_quiet srv Hq). cbn [snd].
  assert (Hq' : Redis.faults (Redis.with_db srv ∅) = []) by exact Hq.
  split; [|split].
  - apply window_requests;
      [exact Hq' | apply lookup_flushed | exact Hsmall | exact Hw].
  - rewrite (get_active_sessions_quiet _ Hq'). cbn [fst].
    destruct (matching "session:*" (Redis.with_db srv ∅)) as [|k ks] eqn:Hm;
      [reflexivity|].
    assert (Hin : In k (matching "session:*" (Redis.with_db srv ∅)))
      by (rewrite Hm; left; reflexivity).
    apply matching_In in Hin as [Hlive _].
    rewrite lookup_flushed in Hlive. contradiction.
  - unfold SessionManager.get_session.
    rewrite (get_quiet _ _ Hq'), lookup_flushed. reflexivity.
Qed.

Lemma clear_all_resets_limits_and_sessions_witness :
  let srv :=
    Redis.Server {[ "ratelimit:c" := Redis.Entry "3" (Some 60);
                    "session:ann" := Redis.Entry "{}" None ]} 0 [] in
  fst (RateLimiter.is_allowed "c" 3 60 (warm srv)) = Ok false
  /\ allow_then_remaining 1 "c" 3 60 (snd (RedisCache.clear_all (warm srv)))
     = [(Ok true, Ok 2)].
Proof.
  split; [vm_compute; reflexivity|].
  exact (proj1 (clear_all_resets_limits_and_sessions
                  (Redis.Server
                     {[ "ratelimit:c" := Redis.Entry "3" (Some 60);
                        "session:ann" := Redis.Entry "{}" None ]} 0 [])
                  "c" "ann" 3 60 1 eq_refl ltac:(lia) ltac:(lia))).
Defined.
